(* ===== verification/_CoqProject ===== *)
-Q . S2P
Prelude.v
JSNumber.v
Random.v
Config.v
Forest.v
Line.v
Collision.v
Geometry.v
Model.v
Invariants.v
Lifetime.v
Safety.v
Render.v
