(* ===== verification/Prelude.v ===== *)
(** * Verification of generative-city-map: src/js/generator.js

    ** The program

    [src/js/generator.js] grows a forest of straight lines on a canvas and
    animates it.  It is one module made of closures:

    - [randomFromSeed] (lines 97-111): the mulberry32 generator and the ranged
      draw [rnd(a, b)] built on it;
    - [buildRandomConfig] (lines 181-198): the configuration, drawn from the
      generator;
    - [buildCollisionDetector] (lines 113-179): [lineOffscreen],
      [orientation], [onSegment], [linesIntersect] and [checkForCollisions];
    - [buildModel] (lines 4-95): [buildLine] (a line with its [grow] and
      [clip]), [buildSeed] (a seed with its per-tick [grow]) and the model
      object ([generate], [grow], [forEachLineUntilTrue], [isActive]);
    - [createNewRender] (lines 200-269): the animation loop ([init], [start],
      [stop], [update], [applyPencil]);
    - the exported object (lines 271-295): [onFinishedCurrent], [startNew],
      [resume], [pause], [applyPencil].

    The model receives the configuration, the random source and the
    collision detector; the detector receives the canvas and reads the forest
    through the model's traversal [forEachLineUntilTrue]; a render owns one
    model and shares its generator with it; the exported object owns the
    current render.

    ** The development, file by file

    - [Prelude] (this file): tactics, hint databases, the state monad and its
      notation, the array combinators of JavaScript the program uses ([some]
      with a callback that has effects, [forEach]), boolean comparisons on
      rationals, exceptions as values.
    - [JSNumber]: the integer coercions of JavaScript ([ToInt32],
      [ToUint32], [Math.imul], [>>>], [^], [|]) on [Z] with the wrap-around
      written out, and the rounding of an integer to a binary64 double.
    - [Random]: [mulberry32] and [rnd] as state-passing functions, the 32-bit
      generator of the specification as their reference, and the interface
      [RandomSource] (with its laws [RandomSourceLaws]) against which the
      rest is written; instances for mulberry32 and for a scripted source.
    - [Config]: the configuration record and [buildRandomConfig].
    - [Forest]: points, lines, seeds and the model's variables as records;
      references to lines; reading, updating and pushing lines; the
      interfaces [MathEnv] and [Canvas]; the environments of the examples.
    - [Line]: [grow], [clip] and [buildLine].
    - [Collision]: [orientation], [onSegment], [linesIntersect] and
      [checkForCollisions] over an abstract traversal; the interface
      [CollisionDetector].
    - [Geometry]: segments as sets of points and the correctness of
      [linesIntersect] with respect to them.
    - [Model]: [buildSeed], the body of the loop of a seed's [grow]
      ([growLine]), [seed_grow], [generate], [model_grow] (the model's
      [grow]), [forEachLineUntilTrue], [isActive].
    - [Invariants]: what a tick does to every line and what holds in every
      state reached by [generate] followed by [grow]s.
    - [Lifetime]: the bound on the length and the lifetime of a line on a
      canvas, and termination without bifurcation.
    - [Safety]: what the detector buys the model: a line that goes on
      growing keeps clear of the lines that have stopped.
    - [Render]: [createNewRender] and the exported object as a state machine
      driven by the calls of the environment.

    ** How the state and the numbers are modelled

    - An integer-valued JavaScript number is a [Z].  Bit operations go through
      [toInt32] and [toUint32] as the language specifies.  The generator's
      state is a number the code never reduces: [seed += 0x6D2B79F5] is an
      exact addition followed by [roundDouble], the identity below 2^53.
    - Every other number (coordinates, angles, probabilities, colours) is a
      rational [Q] with exact arithmetic: the rounding of binary64 on
      non-integers is NOT modelled.  Theorems on geometry are stated up to
      the equality of rationals ([≡] on points).
    - [Math.sin], [Math.cos] and [Math.PI] are the fields of [MathEnv];
      [canvas.width], [canvas.height] and [canvas.isVisible] those of
      [Canvas]; what [view.canvas.drawWithPencil] draws from the generator is
      the field of [View].  Definitions and theorems are parametric in them.
    - A line object's identity is its position (seed index, line index) in the
      forest ([LineRef]); lines are only ever appended, so positions are
      stable.  The [parent] field holds such a reference.  Mutating a line
      object is replacing the record at its position.
    - A tick is a fold of the loop body over the snapshot of the indices of
      the lines that are active when a seed's [grow] starts.
    - Exceptions are values: [generate], [grow] and the calls of the exported
      object return [JSError + state].  An exception ends the modelled run:
      the state the program is left in after a throw (the canvas that [init]
      cleared before [generate] threw, the variable [render] already
      reassigned) is not kept.  No call throws in a system started with a
      lawful random source, which is a theorem of [Render].
    - Calls on [view.canvas] and on the [onFinished] handler are events of a
      trace; [requestAnimationFrame] appends the render to a queue of pending
      frames, which the call [Frame] serves first-in first-out.  Colour
      strings are the numbers interpolated in them.  What a handler does when
      it is called is not modelled (it is assumed not to call back into the
      module before it returns).

    ** What the theorems show

    - JSNumber: ranges of the coercions, [imul] as multiplication modulo
      2^32, [roundDouble] exact below 2^53; from 2^53 on a double is even,
      and an odd integer below 2^85 is stored with a non-zero error smaller
      than 2^32.
    - Random: one draw and [n] draws of the code refine the 32-bit generator
      while the state is below 2^53 (about 4.9 million draws from a default
      seed); from every state a double can hold between 2^53 and 2^85 the
      next state is rounded and its low 32 bits are not those of the 32-bit
      generator; at 2^85 the state is stuck; [rnd(a, b)] lies in [[a, b)]
      when [a < b], and in [(b, a]] when the bounds are reversed.
    - Config: the ranges of the growth parameters.
    - Line: [clip] undoes [grow]; roots never expire; expiry is monotone in
      the generation.
    - Collision, Geometry, Model: [linesIntersect] is true exactly when the
      two segments share a point; it is symmetric (the literal cases of the
      specification are an example); [checkForCollisions] on the model's
      traversal is the
      off-canvas test or the existence of a line, other than the line, its
      parent and its children, whose segment meets the line's.
    - Invariants: in one tick every line that was active takes exactly one
      step and either goes on (active, not expired, the tip one step
      further), expires (inactive, expired, the tip one step further) or
      collides (inactive, not expired, the tip one step further and back);
      every other line is unchanged; every new line is a fresh child of a
      line that was active; [activeLineCount] is the number of active lines
      in every reachable state; the parent links form a tree in each seed;
      the tip of a line is as many steps from its origin as the line counts
      when the line is active or expired, and one fewer when it was stopped
      by a collision; step counts over [k] ticks; quiescence once
      [isActive()] is false; the error paths of [generate] and [grow].
    - Lifetime: under the laws [CanvasLaws] (what is visible lies within the
      rectangle of the canvas) and [MathLaws] (sin^2 + cos^2 = 1), with the
      detector of the canvas, an active line counts at most as many steps as
      the diagonal is long, every line stops within that many ticks, and
      without bifurcation [isActive()] is false after that many ticks.
    - Safety: with the detector of the canvas, a line that is active before
      and after a tick ends the tick with its tip on the canvas and with a
      segment that shares no point with the segment of any line that was
      inactive when the tick began, its parent and its children excepted.
      (The first step of a line, taken in its constructor, is not tested by
      the code, so nothing of the kind holds of new lines.)
    - Render: the invariants of the model hold for every render in every
      state of the system; no call throws once [startNew] has been called
      with a good generator; what one animation frame does; [pause] takes
      effect one update late; a stale stop request swallows a [resume];
      [resume] on a running render doubles its frames.

    Determinism (the same seed gives the same run) holds by construction:
    every operation is a function of the state, and the state of the random
    source is part of it.

    The examples (witnesses) run the definitions on a 10 x 10 canvas with an
    axis-aligned Math environment ([AxisMath]) and a scripted random source.

    ** Bounds

    No fuel is used: every loop of the modelled code is a traversal of a
    finite list and is structurally recursive; the animation loop is driven
    by the calls of the environment, one frame per call.  The exactness
    window of the generator's state (2^53) is a hypothesis of the theorems
    that need it.

    ** Not modelled

    The bodies of the canvas methods and the browser ([view.canvas],
    [requestAnimationFrame], [Date.now]), which are not in src/; the rounding
    of binary64 arithmetic on non-integers; the text of the colour strings;
    what the [onFinished] handler does. *)

From Stdlib Require Import ZArith QArith Qminmax Lia Lqa Bool List.
Import ListNotations.

(** * Part 1: tactics, hint databases and definitions *)

(** [lia] after turning [/] and [mod] into their defining equations. *)
Ltac zlia := Z.div_mod_to_equations; lia.

(** Invert a hypothesis and clean up. *)
Ltac inv H := inversion H; subst; clear H.

(** Case analysis on the first [match] or [if] scrutinee of the goal. *)
Ltac destr :=
  match goal with
  | |- context [match ?x with _ => _ end] => destruct x eqn:?
  end.

(** Split the conjunctions of booleans of the context and the goal. *)
Ltac split_andb :=
  repeat match goal with
         | H : _ && _ = true |- _ => apply andb_true_iff in H; destruct H
         | |- _ && _ = true => apply andb_true_iff; split
         end.

(** [js] collects the range and reflection lemmas of the development;
    [js_rw] is its rewrite database (equations oriented left to right). *)
Create HintDb js discriminated.
Create Rewrite HintDb js_rw.

(** ** A state monad

    The program threads two pieces of mutable state through its closures: the
    generator's seed and the model's variables.  [State S A] is a computation
    that reads and updates a state [S] and returns an [A]. *)

Definition State (S A : Type) : Type := S -> A * S.

Definition ret {S A : Type} (a : A) : State S A := fun s => (a, s).

Definition bind {S A B : Type} (m : State S A) (k : A -> State S B) : State S B :=
  fun s => let (a, s') := m s in k a s'.

Definition get {S : Type} : State S S := fun s => (s, s).

Definition put {S : Type} (s : S) : State S unit := fun _ => (tt, s).

Definition modify {S : Type} (f : S -> S) : State S unit := fun s => (tt, f s).

(** Run a computation on a component of a larger state. *)
Definition zoom {S T A : Type} (proj : S -> T) (upd : T -> S -> S)
    (m : State T A) : State S A :=
  fun s => let (a, t') := m (proj s) in (a, upd t' s).

Declare Scope st_scope.
Delimit Scope st_scope with st.
Notation "x <- m ;; k" := (bind m (fun x => k))
  (at level 100, m at next level, right associativity) : st_scope.
Notation "m ;;; k" := (bind m (fun _ => k))
  (at level 100, k at level 200, right associativity) : st_scope.

(** ** JavaScript array combinators *)

(** [Array.prototype.some] with a callback that has side effects on a state
    [S]: the callback runs on the elements in order until it returns a truthy
    value; the elements after that one are not visited. *)
Fixpoint some_st {A S : Type} (f : A -> State S bool) (l : list A) : State S bool :=
  match l with
  | [] => ret false
  | x :: l' => fun s =>
      let (b, s') := f x s in
      if b then (true, s') else some_st f l' s'
  end.

(** [Array.prototype.forEach]: the callback runs on every element in order. *)
Fixpoint forEach {A S : Type} (f : A -> S -> S) (l : list A) (s : S) : S :=
  match l with
  | [] => s
  | x :: l' => forEach f l' (f x s)
  end.

(** ** Boolean comparisons on rationals

    The program compares numbers with [<], [<=] and [>=]; these are their
    boolean forms on [Q]. *)

Definition Qltb (x y : Q) : bool := negb (Qle_bool y x).
Definition Qleb (x y : Q) : bool := Qle_bool x y.

(** ** Exceptions *)

(** The two exceptions the modelled code can raise. *)
Inductive JSError : Type :=
| RangeError   (* [Array(n)] with an invalid length *)
| TypeError.   (* a method call on [undefined] *)

(** A result is an exception or a value. *)
Definition Result (A : Type) : Type := (JSError + A)%type.

(** * Part 2: lemmas *)

Section MonadLaws.
Context {S A B C : Type}.

Lemma bind_ret_l (a : A) (k : A -> State S B) (s : S) :
  bind (ret a) k s = k a s.
Proof. reflexivity. Qed.

Lemma bind_ret_r (m : State S A) (s : S) : bind m ret s = m s.
Proof. unfold bind, ret. destruct (m s); reflexivity. Qed.

Lemma bind_assoc (m : State S A) (k : A -> State S B) (h : B -> State S C) (s : S) :
  bind (bind m k) h s = bind m (fun a => bind (k a) h) s.
Proof. unfold bind. destruct (m s); reflexivity. Qed.

End MonadLaws.

Section Arrays.
Context {A S : Type}.

Lemma forEach_app (f : A -> S -> S) (l1 l2 : list A) (s : S) :
  forEach f (l1 ++ l2) s = forEach f l2 (forEach f l1 s).
Proof. revert s; induction l1 as [|x l1 IH]; intros s; simpl; auto. Qed.

(** An invariant of the callback is an invariant of the loop. *)
Lemma forEach_invariant (P : S -> Prop) (f : A -> S -> S) (l : list A) :
  (forall x s, In x l -> P s -> P (f x s)) ->
  forall s, P s -> P (forEach f l s).
Proof. induction l as [|x l IH]; simpl; intros Hf s Hs; auto. Qed.

(** A callback without effects makes [some_st] the list's [existsb]. *)
Lemma some_st_pure (p : A -> bool) (l : list A) (s : S) :
  some_st (fun x => ret (p x)) l s = (existsb p l, s).
Proof.
  induction l as [|x l IH]; simpl; auto.
  unfold ret at 1. destruct (p x); simpl; auto.
Qed.

(** [some] over a concatenation: the second part is visited only when the
    callback was falsy on the whole first part. *)
Lemma some_st_app (f : A -> State S bool) (l1 l2 : list A) (s : S) :
  some_st f (l1 ++ l2) s =
  (let (b, s') := some_st f l1 s in if b then (true, s') else some_st f l2 s').
Proof.
  revert s; induction l1 as [|x l1 IH]; intros s; simpl; [reflexivity |].
  destruct (f x s) as [[|] s']; [reflexivity | apply IH].
Qed.

(** A callback that is never truthy is run on every element: [some] is
    then [forEach]. *)
Lemma some_st_never (f : A -> State S bool) (l : list A) (s : S) :
  (forall x s', fst (f x s') = false) ->
  some_st f l s = (false, forEach (fun x s' => snd (f x s')) l s).
Proof.
  intros Hf. revert s; induction l as [|x l IH]; intros s; simpl; [reflexivity |].
  specialize (Hf x s). destruct (f x s) as [b s']. simpl in *. subst b. apply IH.
Qed.

End Arrays.

(** Reflection of the boolean comparisons. *)

Lemma Qltb_lt (x y : Q) : Qltb x y = true <-> (x < y)%Q.
Proof.
  unfold Qltb. rewrite negb_true_iff, <- not_true_iff_false, Qle_bool_iff.
  split; [apply Qnot_le_lt | apply Qlt_not_le].
Qed.

Lemma Qltb_ge (x y : Q) : Qltb x y = false <-> (y <= x)%Q.
Proof.
  unfold Qltb. rewrite negb_false_iff. apply Qle_bool_iff.
Qed.

Lemma Qleb_le (x y : Q) : Qleb x y = true <-> (x <= y)%Q.
Proof. apply Qle_bool_iff. Qed.

Lemma Qleb_gt (x y : Q) : Qleb x y = false <-> (y < x)%Q.
Proof.
  unfold Qleb. rewrite <- not_true_iff_false, Qle_bool_iff.
  split; [apply Qnot_le_lt | apply Qlt_not_le].
Qed.

#[export] Instance Qltb_Proper : Proper (Qeq ==> Qeq ==> eq) Qltb.
Proof. intros x x' Hx y y' Hy. unfold Qltb. now rewrite Hx, Hy. Qed.

#[export] Instance Qleb_Proper : Proper (Qeq ==> Qeq ==> eq) Qleb.
Proof. intros x x' Hx y y' Hy. unfold Qleb. now rewrite Hx, Hy. Qed.

(** Turn every boolean comparison of the context and the goal into its
    proposition, ready for [lra] or [nra]. *)
Ltac qreflect :=
  repeat match goal with
         | H : Qltb _ _ = true |- _ => apply Qltb_lt in H
         | H : Qltb _ _ = false |- _ => apply Qltb_ge in H
         | H : Qleb _ _ = true |- _ => apply Qleb_le in H
         | H : Qleb _ _ = false |- _ => apply Qleb_gt in H
         | H : Qeq_bool _ _ = true |- _ => apply Qeq_bool_iff in H
         | H : Qeq_bool _ _ = false |- _ => apply Qeq_bool_neq in H
         | |- Qltb _ _ = true => apply Qltb_lt
         | |- Qltb _ _ = false => apply Qltb_ge
         | |- Qleb _ _ = true => apply Qleb_le
         | |- Qleb _ _ = false => apply Qleb_gt
         | |- Qeq_bool _ _ = true => apply Qeq_bool_iff
         end.
