(* ===== verification/JSNumber.v ===== *)
(** * JSNumber: the integer arithmetic of JavaScript numbers

    [mulberry32] (src/js/generator.js, lines 99-104) mixes a double with the
    operators [^], [|], [>>>], [+] and [Math.imul].  Each of them first coerces
    its operands with [ToInt32] or [ToUint32].  This file defines the
    coercions and the operators on [Z], with the wrap-around written out, and
    the rounding [roundDouble] that an integer undergoes when it is stored in
    a binary64 double.  The lemmas give the ranges of the results and their
    values modulo 2^32, which is what the generator's correctness needs. *)

From Stdlib Require Import ZArith Lia Bool.
From S2P Require Import Prelude.

Local Open Scope Z_scope.

(** * Part 1: definitions *)

Module JS.

(** 2^32, 2^31 and 2^53 as literals, so that [lia] sees constants. *)
Definition two32 : Z := 4294967296.
Definition two31 : Z := 2147483648.
Definition two53 : Z := 9007199254740992.

(** [ToUint32]: the value modulo 2^32. *)
Definition toUint32 (x : Z) : Z := x mod two32.

(** [ToInt32]: the value modulo 2^32, read as a signed 32-bit integer. *)
Definition toInt32 (x : Z) : Z :=
  let u := x mod two32 in
  if two31 <=? u then u - two32 else u.

(** [a ^ b]: both operands through [ToInt32], the result a signed 32-bit
    integer. *)
Definition xor (a b : Z) : Z := toInt32 (Z.lxor (toInt32 a) (toInt32 b)).

(** [a | b]. *)
Definition or (a b : Z) : Z := toInt32 (Z.lor (toInt32 a) (toInt32 b)).

(** [a >>> n]: the left operand through [ToUint32], the shift count modulo
    32, the result an unsigned 32-bit integer. *)
Definition ushr (a n : Z) : Z := Z.shiftr (toUint32 a) (toUint32 n mod 32).

(** [Math.imul(a, b)]: the product of the operands' [ToUint32] modulo 2^32,
    read as a signed 32-bit integer. *)
Definition imul (a b : Z) : Z := toInt32 ((toUint32 a * toUint32 b) mod two32).

(** The integer [z] stored in a binary64 double: [z] itself when it has at
    most 53 significant bits, and otherwise the nearest multiple of
    [2^(bits - 53)], ties going to the even significand.  (Overflow to
    [Infinity], beyond 2^1024, is not modelled.) *)
Definition roundDouble (z : Z) : Z :=
  let a := Z.abs z in
  let e := Z.log2 a - 52 in
  if e <=? 0 then z
  else
    let q := Z.shiftr a e in
    let r := a - Z.shiftl q e in
    let half := Z.shiftl 1 (e - 1) in
    let q' := if (half <? r) || ((r =? half) && Z.odd q) then q + 1 else q in
    Z.sgn z * Z.shiftl q' e.

(** [x + y] on integer-valued doubles. *)
Definition add (x y : Z) : Z := roundDouble (x + y).

(** Membership in the two 32-bit ranges. *)
Definition is_uint32 (x : Z) : Prop := 0 <= x < two32.
Definition is_int32 (x : Z) : Prop := - two31 <= x < two31.

End JS.

(** * Part 2: lemmas *)

Module JSFacts.
Import JS.

(** ** Ranges *)

Lemma toUint32_range (x : Z) : is_uint32 (toUint32 x).
Proof. unfold is_uint32, toUint32, two32. zlia. Qed.

Lemma toInt32_range (x : Z) : is_int32 (toInt32 x).
Proof.
  unfold is_int32, toInt32, two31, two32.
  destruct (Z.leb_spec 2147483648 (x mod 4294967296)); zlia.
Qed.

Lemma xor_range (a b : Z) : is_int32 (xor a b).
Proof. apply toInt32_range. Qed.

Lemma or_range (a b : Z) : is_int32 (or a b).
Proof. apply toInt32_range. Qed.

Lemma imul_range (a b : Z) : is_int32 (imul a b).
Proof. apply toInt32_range. Qed.

Lemma ushr_range (a n : Z) : is_uint32 (ushr a n).
Proof.
  unfold ushr. pose proof (toUint32_range a) as [Ha1 Ha2].
  assert (0 <= toUint32 n mod 32) as Hn by zlia.
  rewrite Z.shiftr_div_pow2 by exact Hn.
  assert (0 < 2 ^ (toUint32 n mod 32)) by (apply Z.pow_pos_nonneg; lia).
  split.
  - apply Z.div_pos; lia.
  - apply Z.le_lt_trans with (toUint32 a); [| exact Ha2].
    apply Z.div_le_upper_bound; nia.
Qed.

(** ** The coercions on values already in range *)

Lemma toUint32_id (x : Z) : is_uint32 x -> toUint32 x = x.
Proof. unfold is_uint32, toUint32, two32. intros. apply Z.mod_small. lia. Qed.

Lemma toInt32_id (x : Z) : is_int32 x -> toInt32 x = x.
Proof.
  unfold is_int32, toInt32, two31, two32. intros H.
  destruct (Z.leb_spec 2147483648 (x mod 4294967296)); zlia.
Qed.

(** ** Values modulo 2^32 *)

Lemma toUint32_toInt32 (x : Z) : toUint32 (toInt32 x) = toUint32 x.
Proof.
  unfold toUint32, toInt32, two31, two32.
  destruct (Z.leb_spec 2147483648 (x mod 4294967296)); zlia.
Qed.

Lemma toUint32_idem (x : Z) : toUint32 (toUint32 x) = toUint32 x.
Proof. unfold toUint32, two32. zlia. Qed.

Lemma toInt32_toUint32 (x : Z) : toInt32 (toUint32 x) = toInt32 x.
Proof. unfold toInt32, toUint32, two32. now rewrite Z.mod_mod by lia. Qed.

Lemma toUint32_add (x y : Z) :
  toUint32 (x + y) = toUint32 (toUint32 x + toUint32 y).
Proof. unfold toUint32, two32. apply Z.add_mod. lia. Qed.

Lemma toUint32_mul (x y : Z) :
  toUint32 (x * y) = toUint32 (toUint32 x * toUint32 y).
Proof. unfold toUint32, two32. apply Z.mul_mod. lia. Qed.

(** [ToUint32] is the mask of the low 32 bits. *)
Lemma toUint32_land (x : Z) : toUint32 x = Z.land x (Z.ones 32).
Proof. unfold toUint32, two32. now rewrite Z.land_ones by lia. Qed.

Lemma land_lxor_distr (a b c : Z) :
  Z.land (Z.lxor a b) c = Z.lxor (Z.land a c) (Z.land b c).
Proof.
  apply Z.bits_inj'; intros n _.
  rewrite !Z.land_spec, !Z.lxor_spec, !Z.land_spec.
  destruct (Z.testbit a n), (Z.testbit b n), (Z.testbit c n); reflexivity.
Qed.

Lemma toUint32_lxor (a b : Z) :
  toUint32 (Z.lxor a b) = Z.lxor (toUint32 a) (toUint32 b).
Proof. rewrite !toUint32_land. apply land_lxor_distr. Qed.

Lemma toUint32_lor (a b : Z) :
  toUint32 (Z.lor a b) = Z.lor (toUint32 a) (toUint32 b).
Proof. rewrite !toUint32_land. apply Z.land_lor_distr_l. Qed.

(** The operators, read modulo 2^32, are the bit operations on the operands
    read modulo 2^32. *)
Lemma toUint32_xor (a b : Z) :
  toUint32 (xor a b) = Z.lxor (toUint32 a) (toUint32 b).
Proof.
  unfold xor. now rewrite toUint32_toInt32, toUint32_lxor, !toUint32_toInt32.
Qed.

Lemma toUint32_or (a b : Z) :
  toUint32 (or a b) = Z.lor (toUint32 a) (toUint32 b).
Proof.
  unfold or. now rewrite toUint32_toInt32, toUint32_lor, !toUint32_toInt32.
Qed.

Lemma toUint32_imul (a b : Z) :
  toUint32 (imul a b) = (toUint32 a * toUint32 b) mod two32.
Proof.
  unfold imul. rewrite toUint32_toInt32. fold (toUint32 (toUint32 a * toUint32 b)).
  apply toUint32_idem.
Qed.

Lemma toUint32_ushr (a n : Z) : toUint32 (ushr a n) = ushr a n.
Proof. apply toUint32_id, ushr_range. Qed.

(** [Math.imul] is multiplication modulo 2^32. *)
Lemma imul_mod (a b : Z) : (imul a b - a * b) mod two32 = 0.
Proof.
  pose proof (toUint32_imul a b) as H.
  fold (toUint32 (toUint32 a * toUint32 b)) in H.
  rewrite <- toUint32_mul in H. unfold toUint32, two32 in *. zlia.
Qed.

(** ** [roundDouble] *)

(** Integers below 2^53 in absolute value are stored exactly. *)
Lemma roundDouble_exact (z : Z) : Z.abs z < two53 -> roundDouble z = z.
Proof.
  unfold roundDouble, two53. intros H.
  destruct (Z.leb_spec (Z.log2 (Z.abs z) - 52) 0) as [_ | Hlog]; [reflexivity |].
  exfalso.
  destruct (Z.eq_dec (Z.abs z) 0) as [E | Hne]; [rewrite E in Hlog; simpl in Hlog; lia |].
  assert (Z.log2 (Z.abs z) < 53); [| lia].
  apply Z.log2_lt_pow2; [lia | exact H].
Qed.

Lemma add_exact (x y : Z) : Z.abs (x + y) < two53 -> add x y = x + y.
Proof. apply roundDouble_exact. Qed.

(** From 2^53 on an integer is stored as a multiple of [2^e], where
    [e = log2 z - 52] is at least 1: the multiple below it or the one above. *)
Lemma roundDouble_large (z : Z) :
  two53 <= z ->
  exists e q, 1 <= e /\ e = Z.log2 z - 52 /\ q = z / 2 ^ e /\
    (roundDouble z = q * 2 ^ e \/ roundDouble z = (q + 1) * 2 ^ e).
Proof.
  unfold two53. intros Hz.
  assert (53 <= Z.log2 z) as Hlog by (apply Z.log2_le_pow2; [lia | exact Hz]).
  exists (Z.log2 z - 52), (z / 2 ^ (Z.log2 z - 52)).
  split; [lia |]. split; [reflexivity |]. split; [reflexivity |].
  unfold roundDouble. rewrite Z.abs_eq by lia.
  destruct (Z.leb_spec (Z.log2 z - 52) 0) as [? | _]; [lia |].
  rewrite Z.sgn_pos, Z.mul_1_l, Z.shiftr_div_pow2 by lia.
  destruct (_ || _); rewrite Z.shiftl_mul_pow2 by lia; auto.
Qed.

(** So every integer a double holds from 2^53 on is even. *)
Lemma roundDouble_even (z : Z) : two53 <= z -> Z.even (roundDouble z) = true.
Proof.
  intros Hz. destruct (roundDouble_large z Hz) as (e & q & He & _ & _ & H).
  replace (2 ^ e) with (2 * 2 ^ (e - 1)) in H
    by (rewrite <- Z.pow_succ_r by lia; f_equal; lia).
  destruct H as [-> | ->]; rewrite Z.mul_assoc, Z.mul_shuffle0, Z.even_mul; cbn;
    apply orb_true_r.
Qed.

(** An odd integer between 2^53 and 2^85 is not stored exactly: the double
    differs from it by a non-zero amount below 2^32 in absolute value. *)
Lemma roundDouble_odd (z : Z) :
  two53 <= z < 2 ^ 85 -> Z.odd z = true ->
  exists d, roundDouble z = z + d /\ d <> 0 /\ - two32 < d < two32.
Proof.
  intros [Hz Hlt] Hodd. destruct (roundDouble_large z Hz) as (e & q & He & Ee & Eq & H).
  assert (e <= 32) as He32.
  { assert (Z.log2 z < 85); [| lia]. apply Z.log2_lt_pow2; [unfold two53 in Hz; lia | exact Hlt]. }
  assert (2 ^ e <= two32) as Hpow by (apply (Z.pow_le_mono_r 2 e 32); lia).
  assert (2 ^ e = 2 * 2 ^ (e - 1)) as E2
    by (rewrite <- Z.pow_succ_r by lia; f_equal; lia).
  assert (0 < 2 ^ (e - 1)) as Hp by (apply Z.pow_pos_nonneg; lia).
  pose proof (Z.div_mod z (2 ^ e) ltac:(lia)) as Hdm.
  pose proof (Z.mod_pos_bound z (2 ^ e) ltac:(lia)) as Hr.
  rewrite <- Eq in Hdm. apply Zodd_bool_iff in Hodd. destruct (Zodd_ex _ Hodd) as [k Hk].
  exists (roundDouble z - z). split; [lia |].
  assert (z mod 2 ^ e <> 0) as Hr0.
  { intros E0. rewrite E0, E2 in Hdm. nia. }
  destruct H as [-> | ->]; nia.
Qed.

(** A shift by a literal count below 32 shifts the operand's [ToUint32]. *)
Lemma ushr_small (a n : Z) : 0 <= n < 32 -> ushr a n = Z.shiftr (toUint32 a) n.
Proof.
  intros Hn. unfold ushr. f_equal.
  rewrite toUint32_id by (unfold is_uint32, two32; lia).
  apply Z.mod_small; lia.
Qed.

Lemma ushr_0 (a : Z) : ushr a 0 = toUint32 a.
Proof. rewrite ushr_small by lia. apply Z.shiftr_0_r. Qed.

(** The sum of two 32-bit integers is stored exactly. *)
Lemma add_int32 (x y : Z) : is_int32 x -> is_int32 y -> add x y = x + y.
Proof.
  unfold is_int32, two31. intros Hx Hy. apply add_exact. unfold two53. lia.
Qed.

End JSFacts.

#[export] Hint Resolve JSFacts.toUint32_range JSFacts.toInt32_range
  JSFacts.xor_range JSFacts.or_range JSFacts.imul_range JSFacts.ushr_range : js.
#[export] Hint Rewrite JSFacts.toUint32_toInt32 JSFacts.toUint32_idem
  JSFacts.toUint32_xor JSFacts.toUint32_or JSFacts.toUint32_imul
  JSFacts.toUint32_ushr JSFacts.ushr_0 : js_rw.
