(* ===== verification/Random.v ===== *)
(** * Random: the seeded generator [randomFromSeed]

    Models src/js/generator.js, lines 97-111: [mulberry32], a closure over the
    mutable number [seed], and the ranged draw [rnd(a = 1, b = 0)] returned by
    [randomFromSeed].  The generator's state is the integer value of [seed];
    the code never wraps it to 32 bits, so it is a [Z] that grows by the
    increment at each draw and is rounded as a double is.

    The file also declares [RandomSource], the interface the growth model is
    written against (the model receives [rnd] as an argument), with the
    mulberry32 implementation and a scripted implementation for tests.

    Theorems: the mixed value is a 32-bit unsigned integer and the draw lies
    in [0, 1); while the state is below 2^53 the generator is the 32-bit state
    machine [mulberry32_ref] (refinement); the ranged draw lies in its
    interval when [a < b]; the cases where it does not; past 2^53 the state
    is rounded at every draw and the refinement fails. *)

From Stdlib Require Import ZArith QArith Lia Lqa Bool List.
From S2P Require Import Prelude JSNumber.
Import ListNotations.

Local Open Scope Z_scope.

(** * Part 1: definitions *)

Module Mulberry.
Import JS.

(** The additive constant [0x6D2B79F5]. *)
Definition increment : Z := 0x6D2B79F5.

(** Line 101: [t = Math.imul(t ^ t >>> 15, t | 1)]. *)
Definition round1 (t : Z) : Z := imul (xor t (ushr t 15)) (or t 1).

(** Line 102: [t ^= t + Math.imul(t ^ t >>> 7, t | 61)]. *)
Definition round2 (t : Z) : Z := xor t (add t (imul (xor t (ushr t 7)) (or t 61))).

(** Line 103, the numerator: [(t ^ t >>> 14) >>> 0]. *)
Definition final (t : Z) : Z := ushr (xor t (ushr t 14)) 0.

(** Lines 101-103: the two rounds of mixing and the unsigned result. *)
Definition mix (t : Z) : Z := final (round2 (round1 t)).

(** Lines 100-103: [var t = seed += 0x6D2B79F5], then the mixing.  Returns
    the mixed value and the new state. *)
Definition mulberry32_bits : State Z Z := fun seed =>
  let seed' := add seed increment in
  (mix seed', seed').

(** Lines 99-104: the draw, the mixed value divided by 4294967296. *)
Definition mulberry32 : State Z Q := fun seed =>
  let (u, seed') := mulberry32_bits seed in
  (Qmake u 4294967296, seed').

(** The generator with a 32-bit state: every operation on unsigned 32-bit
    integers, the state wrapped at each step.  This is what the
    specification describes; it is the reference of the refinement theorem. *)
Definition round1_32 (u : Z) : Z :=
  ((Z.lxor u (Z.shiftr u 15)) * (Z.lor u 1)) mod two32.

Definition round2_32 (u : Z) : Z :=
  Z.lxor u ((u + ((Z.lxor u (Z.shiftr u 7)) * (Z.lor u 61)) mod two32) mod two32).

Definition final32 (u : Z) : Z := Z.lxor u (Z.shiftr u 14).

Definition mix32 (u : Z) : Z := final32 (round2_32 (round1_32 u)).

Definition mulberry32_ref : State Z Z := fun s =>
  let s' := (s + increment) mod two32 in
  (mix32 s', s').

(** The values of [n] successive draws of a generator, and the state after
    them. *)
Fixpoint run (gen : State Z Z) (n : nat) (s : Z) : list Z * Z :=
  match n with
  | O => ([], s)
  | S n' =>
      let (u, s') := gen s in
      let (us, s'') := run gen n' s' in
      (u :: us, s'')
  end.

End Mulberry.

Module Rnd.

(** JavaScript truthiness of a number: everything but zero (and NaN, which
    the rationals do not have). *)
Definition truthy (x : Q) : bool := negb (Qeq_bool x 0).

(** Lines 107-109: [min = b && a], [max = b || a], and the affine map of a
    unit draw [u] onto the interval. *)
Definition rnd_min (a b : Q) : Q := if truthy b then a else b.
Definition rnd_max (a b : Q) : Q := if truthy b then b else a.
Definition scale (a b u : Q) : Q := (u * (rnd_max a b - rnd_min a b) + rnd_min a b)%Q.

(** Lines 106-110: the function [randomFromSeed] returns, over any unit
    generator. *)
Definition rnd_of {S : Type} (gen : State S Q) (a b : Q) : State S Q :=
  fun s => let (u, s') := gen s in (scale a b u, s').

(** Lines 97-111: [randomFromSeed(seed)]; the seed is the initial state. *)
Definition randomFromSeed : Q -> Q -> State Z Q := rnd_of Mulberry.mulberry32.

(** A scripted unit generator: the draws are read off a list ([0] when the
    list is exhausted).  It stands for [rnd] in tests of the model. *)
Definition scripted : State (list Q) Q := fun s =>
  match s with
  | [] => (0%Q, [])
  | u :: s' => (u, s')
  end.

End Rnd.

(** The interface between the random source and its clients: [buildModel]
    and [buildRandomConfig] receive [rnd] and call it as [rnd()], [rnd(a)] and
    [rnd(a, b)] (the defaults are [a = 1], [b = 0]). *)
Class RandomSource : Type := {
  rng : Type;
  rnd : Q -> Q -> State rng Q;
}.

(** What clients rely on, on the states [rng_ok] the source can be in: a
    unit draw lies in [0, 1), and a ranged draw is the affine image of the unit
    draw from the same state and leaves the same state behind. *)
Class RandomSourceLaws (R : RandomSource) : Type := {
  rng_ok : rng -> Prop;
  rnd_ok : forall a b s, rng_ok s -> rng_ok (snd (rnd a b s));
  rnd_unit : forall s, rng_ok s -> (0 <= fst (rnd 1 0 s) < 1)%Q;
  rnd_scale : forall a b s,
      (fst (rnd a b s) == Rnd.scale a b (fst (rnd 1 0 s)))%Q /\
      snd (rnd a b s) = snd (rnd 1 0 s);
}.

#[export] Instance MulberrySource : RandomSource := {|
  rng := Z;
  rnd := Rnd.randomFromSeed;
|}.

#[export] Instance ScriptedSource : RandomSource := {|
  rng := list Q;
  rnd := Rnd.rnd_of Rnd.scripted;
|}.

(** * Part 2: theorems *)

Module MulberryFacts.
Import JS JSFacts Mulberry.

(** ** Ranges *)

Lemma mix_range (t : Z) : is_uint32 (mix t).
Proof. unfold mix, final. auto with js. Qed.

Lemma mulberry32_bits_range (seed : Z) : is_uint32 (fst (mulberry32_bits seed)).
Proof. apply mix_range. Qed.

(** The draw of [mulberry32] lies in [0, 1), whatever the state. *)
Lemma mulberry32_unit_interval (seed : Z) :
  (0 <= fst (mulberry32 seed) < 1)%Q.
Proof.
  unfold mulberry32.
  pose proof (mulberry32_bits_range seed) as H.
  destruct (mulberry32_bits seed) as [u s']; simpl in *.
  unfold is_uint32, two32 in H. unfold Qle, Qlt; simpl. lia.
Qed.

(** ** The mixing depends on its argument modulo 2^32 only *)

Lemma toUint32_lit (n : Z) : 0 <= n < two32 -> toUint32 n = n.
Proof. intros. now apply toUint32_id. Qed.

Lemma round1_32_spec (t : Z) : toUint32 (round1 t) = round1_32 (toUint32 t).
Proof.
  unfold round1, round1_32. autorewrite with js_rw.
  rewrite ushr_small, (toUint32_lit 1) by (unfold two32; lia). reflexivity.
Qed.

Lemma round2_32_spec (t : Z) :
  is_int32 t -> toUint32 (round2 t) = round2_32 (toUint32 t).
Proof.
  intros Ht. unfold round2, round2_32.
  rewrite add_int32 by auto with js.
  autorewrite with js_rw. rewrite toUint32_add. autorewrite with js_rw.
  rewrite ushr_small, (toUint32_lit 61) by (unfold two32; lia). reflexivity.
Qed.

Lemma final32_spec (t : Z) : final t = final32 (toUint32 t).
Proof.
  unfold final, final32. autorewrite with js_rw.
  now rewrite ushr_small by lia.
Qed.

Lemma mix_mix32 (t : Z) : mix t = mix32 (toUint32 t).
Proof.
  unfold mix, mix32.
  rewrite final32_spec, round2_32_spec, round1_32_spec by apply imul_range.
  reflexivity.
Qed.

(** ** Refinement of the 32-bit machine *)

Lemma toUint32_step (seed : Z) :
  toUint32 (seed + increment) = (toUint32 seed + increment) mod two32.
Proof. unfold toUint32, two32. now rewrite Z.add_mod_idemp_l by lia. Qed.

Lemma mulberry32_bits_exact (seed : Z) :
  Z.abs (seed + increment) < two53 ->
  mulberry32_bits seed = (mix32 (toUint32 (seed + increment)), seed + increment).
Proof.
  intros H. unfold mulberry32_bits. rewrite add_exact by exact H.
  now rewrite mix_mix32.
Qed.

Lemma mulberry32_ref_eq (seed : Z) :
  mulberry32_ref (toUint32 seed) =
  (mix32 (toUint32 (seed + increment)), toUint32 (seed + increment)).
Proof. unfold mulberry32_ref. now rewrite <- toUint32_step. Qed.

Lemma run_S (gen : State Z Z) (n : nat) (s : Z) :
  run gen (S n) s =
  (fst (gen s) :: fst (run gen n (snd (gen s))), snd (run gen n (snd (gen s)))).
Proof. cbn [run]. destruct (gen s) as [u s']; simpl. now destruct (run gen n s'). Qed.

(** C4: while the state is stored exactly (below 2^53), one draw of the code's
    generator returns the value of the 32-bit generator and leaves a state
    that is the 32-bit state modulo 2^32. *)
Theorem mulberry32_refines_ref (seed : Z) :
  Z.abs (seed + increment) < two53 ->
  fst (mulberry32_bits seed) = fst (mulberry32_ref (toUint32 seed)) /\
  toUint32 (snd (mulberry32_bits seed)) = snd (mulberry32_ref (toUint32 seed)).
Proof.
  intros H. rewrite mulberry32_bits_exact, mulberry32_ref_eq by exact H.
  split; reflexivity.
Qed.

Lemma mulberry32_refines_ref_witness :
  Z.abs (1 + increment) < two53 /\
  fst (mulberry32_bits 1) = fst (mulberry32_ref (toUint32 1)).
Proof.
  split; [vm_compute; reflexivity | apply (mulberry32_refines_ref 1); vm_compute; reflexivity].
Defined.

(** [n] draws from a non-negative seed, while the state stays below 2^53,
    return the values of the 32-bit generator, and the state has grown by [n]
    increments without wrapping. *)
Lemma run_exact (n : nat) (seed : Z) :
  0 <= seed ->
  seed + Z.of_nat n * increment < two53 ->
  fst (run mulberry32_bits n seed) = fst (run mulberry32_ref n (toUint32 seed)) /\
  snd (run mulberry32_bits n seed) = seed + Z.of_nat n * increment.
Proof.
  revert seed; induction n as [|n IH]; intros seed Hpos Hlt.
  - simpl. split; [reflexivity | lia].
  - assert (0 < increment) as Hinc by reflexivity.
    rewrite Nat2Z.inj_succ in *.
    rewrite !run_S, mulberry32_bits_exact, mulberry32_ref_eq by nia.
    cbn [fst snd].
    destruct (IH (seed + increment)) as [IHv IHs]; [lia | nia |].
    rewrite IHv, IHs. split; [reflexivity | lia].
Qed.

(** C28: the sequence of [n] draws from a non-negative seed is the sequence
    of the 32-bit generator started from the seed modulo 2^32, as long as the
    un-wrapped state stays below 2^53. *)
Theorem run_refines_ref (n : nat) (seed : Z) :
  0 <= seed ->
  seed + Z.of_nat n * increment < two53 ->
  fst (run mulberry32_bits n seed) = fst (run mulberry32_ref n (toUint32 seed)).
Proof. intros. now apply run_exact. Qed.

Lemma run_refines_ref_witness :
  fst (run mulberry32_bits 3 1) = fst (run mulberry32_ref 3 (toUint32 1)).
Proof. apply (run_refines_ref 3 1); vm_compute; [discriminate | reflexivity]. Defined.

(** C29: a seed chosen by [startNew] ([Date.now() & 0xfffff]) leaves the state
    exact for at least 4917000 draws. *)
Theorem default_seed_exact_window (n : nat) (seed : Z) :
  0 <= seed <= 0xfffff ->
  Z.of_nat n <= 4917000 ->
  snd (run mulberry32_bits n seed) = seed + Z.of_nat n * increment.
Proof.
  intros Hs Hn. apply run_exact; [lia |].
  unfold increment, two53. lia.
Qed.

Lemma default_seed_exact_window_witness :
  snd (run mulberry32_bits 2 5) = 5 + Z.of_nat 2 * increment.
Proof. apply (default_seed_exact_window 2 5); [vm_compute; split; discriminate | lia]. Defined.

(** Past 2^53 every state the generator leaves is even: a double holds only
    even integers there. *)
Lemma mulberry32_state_even (seed : Z) :
  two53 <= seed + increment -> Z.even (snd (mulberry32_bits seed)) = true.
Proof. apply roundDouble_even. Qed.

(** C30: past 2^53 the code is no longer the 32-bit generator, at every draw.
    From every even state [seed] (past 2^53 a double is even) with
    [2^53 <= seed + 0x6D2B79F5 < 2^85], the sum is odd and cannot be stored:
    the new state is not the sum, and its low 32 bits, which are what the
    mixing reads, are not the next state of the 32-bit generator. *)
Theorem mulberry32_diverges_past_two53 (seed : Z) :
  two53 <= seed + increment < 2 ^ 85 -> Z.even seed = true ->
  snd (mulberry32_bits seed) <> seed + increment /\
  toUint32 (snd (mulberry32_bits seed)) <> snd (mulberry32_ref (toUint32 seed)).
Proof.
  intros Hr He.
  assert (Z.odd (seed + increment) = true) as Hodd
    by (rewrite Z.odd_add, <- Z.negb_even, He; reflexivity).
  destruct (roundDouble_odd _ Hr Hodd) as (d & E & Hd & Hb).
  unfold mulberry32_bits, mulberry32_ref, add. cbn [snd]. rewrite E, <- toUint32_step.
  split; [lia |]. unfold toUint32, two32 in *. zlia.
Qed.

Lemma mulberry32_diverges_past_two53_witness :
  snd (mulberry32_bits two53) <> two53 + increment /\
  toUint32 (snd (mulberry32_bits two53)) <> snd (mulberry32_ref (toUint32 two53)).
Proof.
  apply (mulberry32_diverges_past_two53 two53); vm_compute; [split; [discriminate | reflexivity] | reflexivity].
Defined.

(** At the state 2^53 the draws themselves differ. *)
Example mulberry32_draw_differs_at_two53 :
  fst (mulberry32_bits two53) <> fst (mulberry32_ref (toUint32 two53)).
Proof. vm_compute. discriminate. Qed.

(** From 2^85 on the increment is absorbed by the rounding: the state no
    longer moves and every draw returns the same value. *)
Lemma mulberry32_stuck_at_two85 (n : nat) :
  snd (run mulberry32_bits n (2 ^ 85)) = 2 ^ 85 /\
  forall u, In u (fst (run mulberry32_bits n (2 ^ 85))) -> u = mix (2 ^ 85).
Proof.
  assert (mulberry32_bits (2 ^ 85) = (mix (2 ^ 85), 2 ^ 85)) as E by (vm_compute; reflexivity).
  induction n as [|n [IHs IHv]]; [simpl; split; [reflexivity | tauto] |].
  cbn [run]. rewrite E.
  destruct (run mulberry32_bits n (2 ^ 85)) as [us s'']. simpl in *.
  split; [exact IHs | intros u [<- | Hin]; auto].
Qed.

End MulberryFacts.

Module RndFacts.
Import Rnd.
Local Open Scope Q_scope.

Lemma truthy_true (b : Q) : truthy b = true <-> ~ b == 0.
Proof.
  unfold truthy. rewrite negb_true_iff. split.
  - apply Qeq_bool_neq.
  - intros H. destruct (Qeq_bool b 0) eqn:E; [apply Qeq_bool_iff in E; tauto | reflexivity].
Qed.

Lemma truthy_false (b : Q) : truthy b = false <-> b == 0.
Proof. unfold truthy. rewrite negb_false_iff. apply Qeq_bool_iff. Qed.

(** [rnd(a, b)] with [b] non-zero and [a < b] lies in [[a, b)]. *)
Lemma scale_in_range (a b u : Q) :
  ~ b == 0 -> a < b -> 0 <= u < 1 ->
  a <= scale a b u < b.
Proof.
  intros Hb Hab Hu. apply truthy_true in Hb.
  unfold scale, rnd_min, rnd_max. rewrite Hb. split; nra.
Qed.

(** [rnd(a)] (that is, [b = 0]) with [0 < a] lies in [[0, a)]. *)
Lemma scale_default_in_range (a u : Q) :
  0 < a -> 0 <= u < 1 -> 0 <= scale a 0 u < a.
Proof.
  intros Ha Hu. unfold scale, rnd_min, rnd_max. simpl. split; nra.
Qed.

(** C31: when the bounds come in decreasing order, [b < a] with [b] non-zero,
    the draw lies in [(b, a]]: the upper bound [max(a, b)] is attained by the
    unit draw 0 and the lower bound is never reached. *)
Theorem scale_reversed_range (a b u : Q) :
  ~ b == 0 -> b < a -> 0 <= u < 1 ->
  b < scale a b u <= a /\ scale a b 0 == a.
Proof.
  intros Hb Hab Hu. apply truthy_true in Hb.
  unfold scale, rnd_min, rnd_max. rewrite Hb. repeat split; nra.
Qed.

Lemma scale_reversed_range_witness :
  1 < scale 10 1 (1 # 2) <= 10 /\ scale 10 1 0 == 10.
Proof.
  apply (scale_reversed_range 10 1 (1 # 2)); [discriminate | reflexivity | split; [discriminate | reflexivity]].
Defined.

(** The unit draw is [rnd()] itself. *)
Lemma scale_unit (u : Q) : scale 1 0 u == u.
Proof. unfold scale, rnd_min, rnd_max. simpl. ring. Qed.

Lemma rnd_of_scale {S : Type} (gen : State S Q) (a b : Q) (s : S) :
  fst (rnd_of gen a b s) = scale a b (fst (gen s)) /\
  snd (rnd_of gen a b s) = snd (gen s).
Proof. unfold rnd_of. destruct (gen s); auto. Qed.

End RndFacts.

(** ** The implementations satisfy the interface's laws *)

Module SourceFacts.
Import Rnd RndFacts.
Local Open Scope Q_scope.

Lemma rnd_of_laws {S : Type} (gen : State S Q) (a b : Q) (s : S) :
  fst (rnd_of gen a b s) == scale a b (fst (rnd_of gen 1 0 s)) /\
  snd (rnd_of gen a b s) = snd (rnd_of gen 1 0 s).
Proof.
  destruct (rnd_of_scale gen a b s) as [-> ->].
  destruct (rnd_of_scale gen 1 0 s) as [-> ->].
  split; [| reflexivity]. unfold scale at 1 2. now rewrite scale_unit.
Qed.

Lemma mulberry_unit (s : Z) : 0 <= fst (randomFromSeed 1 0 s) < 1.
Proof.
  unfold randomFromSeed. destruct (rnd_of_scale Mulberry.mulberry32 1 0 s) as [-> _].
  rewrite scale_unit. apply MulberryFacts.mulberry32_unit_interval.
Qed.

(** C27: a draw [rnd(a, b)] of the seeded generator with [a < b] and [b]
    non-zero lies in [[a, b)], and a draw [rnd(a)] with [0 < a] lies in
    [[0, a)], from every state of the generator. *)
Theorem randomFromSeed_in_range (a b : Q) (s : Z) :
  a < b ->
  (~ b == 0 -> a <= fst (randomFromSeed a b s) < b) /\
  (0 < a -> 0 <= fst (randomFromSeed a 0 s) < a).
Proof.
  intros Hab. unfold randomFromSeed. split; intros H.
  - destruct (rnd_of_scale Mulberry.mulberry32 a b s) as [-> _].
    apply scale_in_range; auto using MulberryFacts.mulberry32_unit_interval.
  - destruct (rnd_of_scale Mulberry.mulberry32 a 0 s) as [-> _].
    apply scale_default_in_range; auto using MulberryFacts.mulberry32_unit_interval.
Qed.

Lemma randomFromSeed_in_range_witness :
  1 <= fst (randomFromSeed 1 10 42%Z) < 10 /\ 0 <= fst (randomFromSeed 1 0 42%Z) < 1.
Proof.
  destruct (randomFromSeed_in_range 1 10 42%Z) as [H1 H2]; [reflexivity |].
  split; [apply H1; discriminate | apply H2; reflexivity].
Defined.

(** The scripted source is in a good state when what is left of the script
    lies in [0, 1). *)
Definition script_ok (s : list Q) : Prop := Forall (fun u => 0 <= u < 1) s.

Lemma scripted_ok (a b : Q) (s : list Q) :
  script_ok s -> script_ok (snd (rnd_of scripted a b s)).
Proof.
  destruct (rnd_of_scale scripted a b s) as [_ ->].
  unfold script_ok. destruct s as [|u s]; simpl; auto. now inversion 1.
Qed.

Lemma scripted_unit (s : list Q) : script_ok s -> 0 <= fst (rnd_of scripted 1 0 s) < 1.
Proof.
  destruct (rnd_of_scale scripted 1 0 s) as [-> _]. rewrite scale_unit.
  unfold script_ok. destruct s as [|u s]; simpl.
  - intros _. split; [apply Qle_refl | reflexivity].
  - now inversion 1.
Qed.

End SourceFacts.

#[export] Instance MulberryLaws : RandomSourceLaws MulberrySource.
Proof.
  refine (Build_RandomSourceLaws MulberrySource (fun _ => True) _ _ _).
  - intros; exact I.
  - intros s _. exact (SourceFacts.mulberry_unit s).
  - exact (SourceFacts.rnd_of_laws Mulberry.mulberry32).
Defined.

#[export] Instance ScriptedLaws : RandomSourceLaws ScriptedSource.
Proof.
  refine (Build_RandomSourceLaws ScriptedSource SourceFacts.script_ok _ _ _).
  - exact SourceFacts.scripted_ok.
  - exact SourceFacts.scripted_unit.
  - exact (SourceFacts.rnd_of_laws Rnd.scripted).
Defined.
