(* ===== verification/Config.v ===== *)
(** * Config: the configuration bundle and [buildRandomConfig]

    Models src/js/generator.js, lines 181-198.  The configuration is drawn
    from the random source, twelve draws in the order of the object literal;
    the growth model reads [seedCount], [pBifurcation] and [expiryThreshold],
    the rendering reads the rest.

    Theorems: the ranges of the three growth parameters for any lawful random
    source, and the number of draws consumed. *)

From Stdlib Require Import ZArith QArith Qround Lia Lqa Bool List.
From S2P Require Import Prelude JSNumber Random.
Import ListNotations.

Local Open Scope Q_scope.

(** * Part 1: definitions *)

(** The configuration object. *)
Record Config : Type := mkConfig {
  seedCount : Z;
  pBifurcation : Q;
  maxRectWidth : Q;
  rectBaseHue : Q;
  rectSaturation : Q;
  rectHueVariation : Q;
  rectAlpha : Q;
  rectLightness : Q;
  expiryThreshold : Q;
  lineDarkness : Q;
  pencilHorizontal : bool;
  useGradients : bool;
}.

(** [Math.round]: the nearest integer, halves going up. *)
Definition Math_round (q : Q) : Z := Qfloor (q + (1 # 2)).

Section BuildConfig.
Context {R : RandomSource}.
Local Open Scope st_scope.

(** Lines 181-198.  The draws happen in the order the properties are
    written; [rectAlpha] draws once on either branch. *)
Definition buildRandomConfig : State rng Config :=
  u0 <- rnd 1 0 ;;
  let useGradients := Qltb (3 # 10) u0 in
  u1 <- rnd 1 10 ;;
  u2 <- rnd (2 # 100) (5 # 100) ;;
  u3 <- rnd 0 100 ;;
  u4 <- rnd 360 0 ;;
  u5 <- rnd 20 100 ;;
  u6 <- rnd 100 0 ;;
  u7 <- (if useGradients then rnd (4 # 10) (8 # 10) else rnd (1 # 10) (4 # 10)) ;;
  u8 <- rnd 20 70 ;;
  u9 <- rnd (1 # 1000) 0 ;;
  u10 <- rnd 1 0 ;;
  u11 <- rnd 1 0 ;;
  ret {| seedCount := Math_round u1;
         pBifurcation := u2;
         maxRectWidth := u3;
         rectBaseHue := u4;
         rectSaturation := u5;
         rectHueVariation := u6;
         rectAlpha := u7;
         rectLightness := u8;
         expiryThreshold := u9;
         lineDarkness := u10;
         pencilHorizontal := Qltb (1 # 2) u11;
         useGradients := useGradients |}.

(** The state of the source after [n] unit draws. *)
Fixpoint after_draws (n : nat) (s : rng) : rng :=
  match n with
  | O => s
  | S n' => after_draws n' (snd (rnd 1 0 s))
  end.

End BuildConfig.

(** * Part 2: theorems *)

Section RndLaws.
Context {R : RandomSource} {L : RandomSourceLaws R}.

(** Consequences of the interface's laws used by every client. *)

Lemma rnd_state (a b : Q) (s : rng) : snd (rnd a b s) = after_draws 1 s.
Proof. simpl. apply rnd_scale. Qed.

Lemma rnd_in_range (a b : Q) (s : rng) :
  rng_ok s -> ~ b == 0 -> a < b -> a <= fst (rnd a b s) < b.
Proof.
  intros Hs Hb Hab. destruct (rnd_scale a b s) as [-> _].
  apply RndFacts.scale_in_range; auto. now apply rnd_unit.
Qed.

Lemma rnd_default_in_range (a : Q) (s : rng) :
  rng_ok s -> 0 < a -> 0 <= fst (rnd a 0 s) < a.
Proof.
  intros Hs Ha. destruct (rnd_scale a 0 s) as [-> _].
  apply RndFacts.scale_default_in_range; auto. now apply rnd_unit.
Qed.

Lemma after_draws_ok (n : nat) (s : rng) : rng_ok s -> rng_ok (after_draws n s).
Proof. revert s; induction n; simpl; intros; auto using rnd_ok. Qed.

Lemma after_draws_add (n m : nat) (s : rng) :
  after_draws (n + m) s = after_draws m (after_draws n s).
Proof. revert s; induction n; simpl; intros; auto. Qed.

End RndLaws.

(** [Math.round] of a number between two integers lies between them. *)
Lemma Math_round_bounds (lo hi : Z) (q : Q) :
  inject_Z lo <= q < inject_Z hi -> (lo <= Math_round q <= hi)%Z.
Proof.
  unfold Math_round. intros [Hlo Hhi].
  pose proof (Qfloor_le (q + (1 # 2))) as Hle.
  pose proof (Qlt_floor (q + (1 # 2))) as Hlt.
  rewrite inject_Z_plus in Hlt. change (inject_Z 1) with 1 in Hlt.
  split.
  - apply Z.lt_succ_r. rewrite Zlt_Qlt. unfold Z.succ.
    rewrite inject_Z_plus. change (inject_Z 1) with 1. lra.
  - apply Z.lt_succ_r. rewrite Zlt_Qlt. unfold Z.succ.
    rewrite inject_Z_plus. change (inject_Z 1) with 1. lra.
Qed.

Section BuildConfigFacts.
Context {R : RandomSource} {L : RandomSourceLaws R}.

(** One draw in a sequence: its value, and the state one unit draw later. *)
Lemma bind_rnd {A : Type} (a b : Q) (k : Q -> State rng A) (s : rng) :
  bind (rnd a b) k s = k (fst (rnd a b s)) (after_draws 1 s).
Proof.
  unfold bind. rewrite <- (rnd_state a b s). now destruct (rnd a b s).
Qed.

Lemma bind_if_rnd {A : Type} (c : bool) (a b a' b' : Q) (k : Q -> State rng A) (s : rng) :
  bind (if c then rnd a b else rnd a' b') k s =
  k (fst ((if c then rnd a b else rnd a' b') s)) (after_draws 1 s).
Proof. destruct c; apply bind_rnd. Qed.

(** [buildRandomConfig] in closed form: the field [seedCount] and the state
    of the source after the twelve draws. *)
Lemma buildRandomConfig_eq (s : rng) :
  seedCount (fst (buildRandomConfig s)) = Math_round (fst (rnd 1 10 (after_draws 1 s))) /\
  pBifurcation (fst (buildRandomConfig s)) = fst (rnd (2 # 100) (5 # 100) (after_draws 2 s)) /\
  expiryThreshold (fst (buildRandomConfig s)) = fst (rnd (1 # 1000) 0 (after_draws 9 s)) /\
  snd (buildRandomConfig s) = after_draws 12 s.
Proof.
  unfold buildRandomConfig.
  rewrite !bind_rnd, bind_if_rnd, !bind_rnd. unfold ret.
  cbn [fst snd seedCount pBifurcation expiryThreshold].
  rewrite <- !after_draws_add. cbn [Nat.add]. auto.
Qed.

(** The seed count drawn from a good state is between 1 and 10. *)
Lemma buildRandomConfig_seedCount (s : rng) :
  rng_ok s -> (1 <= seedCount (fst (buildRandomConfig s)) <= 10)%Z.
Proof.
  intros Hs. destruct (buildRandomConfig_eq s) as (-> & _).
  apply (Math_round_bounds 1 10), rnd_in_range;
    [now apply after_draws_ok | discriminate | reflexivity].
Qed.

(** C40: from a good state of the random source, [buildRandomConfig] returns a
    configuration with [seedCount] between 1 and 10, [pBifurcation] in
    [[0.02, 0.05)] and [expiryThreshold] in [[0, 0.001)], and consumes exactly
    twelve draws. *)
Theorem buildRandomConfig_ranges (s : rng) :
  rng_ok s ->
  let c := fst (buildRandomConfig s) in
  (1 <= seedCount c <= 10)%Z /\
  (2 # 100) <= pBifurcation c < (5 # 100) /\
  0 <= expiryThreshold c < (1 # 1000) /\
  snd (buildRandomConfig s) = after_draws 12 s.
Proof.
  intros Hs. cbv zeta. split; [now apply buildRandomConfig_seedCount |].
  destruct (buildRandomConfig_eq s) as (_ & -> & -> & ->).
  split; [| split; [| reflexivity]].
  - apply rnd_in_range; [now apply after_draws_ok | discriminate | reflexivity].
  - apply rnd_default_in_range; [now apply after_draws_ok | reflexivity].
Qed.

End BuildConfigFacts.

Lemma buildRandomConfig_ranges_witness :
  let c := fst (buildRandomConfig (R := MulberrySource) 7%Z) in
  (1 <= seedCount c <= 10)%Z /\
  (2 # 100) <= pBifurcation c < (5 # 100) /\
  0 <= expiryThreshold c < (1 # 1000) /\
  snd (buildRandomConfig (R := MulberrySource) 7%Z) = after_draws (R := MulberrySource) 12 7%Z.
Proof. apply (@buildRandomConfig_ranges MulberrySource MulberryLaws 7%Z). exact I. Defined.
