(* ===== verification/Forest.v ===== *)
(** * Forest: the data model of [buildModel]

    The shapes of the objects src/js/generator.js builds: points, lines (the
    object literal of [buildLine], lines 10-20), seeds (the literal of
    [buildSeed], lines 42-47) and the closure variables of [buildModel]
    ([activeLineCount], [seeds], line 5-6, together with the state of [rnd]).
    The environment the code reads but does not define ([Math], [canvas]) is
    a pair of classes.

    JavaScript objects have identity and are mutated in place.  Here a line is
    identified by its position in the forest and a mutation is an update of
    the forest at that position: [lookupLine], [updateLine], [pushLine].  The
    lemmas of Part 2 are the laws of these accessors. *)

From Stdlib Require Import ZArith QArith Qround Lia Bool.
From stdpp Require Import base list.
From S2P Require Import Prelude Random Config.

(** * Part 1: definitions *)

(** [Math.sin], [Math.cos] and [Math.PI]. *)
Class MathEnv : Type := {
  Math_sin : Q -> Q;
  Math_cos : Q -> Q;
  Math_PI : Q;
}.

(** The canvas: the global [canvas] read by [buildSeed] (width and height)
    and the [canvas] handed to [buildCollisionDetector] ([isVisible]). *)
Class Canvas : Type := {
  canvas_width : Q;
  canvas_height : Q;
  isVisible : Q -> Q -> bool;
}.

(** A point [{x, y}]. *)
Record Point : Type := mkPoint { x : Q; y : Q }.

(** Two points are equivalent when their coordinates are equal rationals. *)
#[export] Instance Point_equiv : Equiv Point :=
  fun p q => (x p == x q)%Q /\ (y p == y q)%Q.

(** The identity of a line object: the index of its seed in [seeds] and its
    index in that seed's [lines]. *)
Definition LineRef : Type := (nat * nat)%type.

(** The line object of [buildLine] (lines 10-20).  The field [rnd] of the
    source is [rnd_tag] here, [rnd] being the random source. *)
Record Line : Type := mkLine {
  p0 : Point;
  p1 : Point;
  angle : Q;
  generation : nat;
  parent : option LineRef;
  active : bool;
  split : bool;
  expired : bool;
  steps : nat;
  rnd_tag : Q;
}.

(** The seed object of [buildSeed] (lines 42-47); its [angle] is
    [seed_angle] here. *)
Record Seed : Type := mkSeed {
  seed_angle : Q;
  lines : list Line;
}.

(** The mutable variables of the closure [buildModel]: the state of [rnd],
    [activeLineCount] and [seeds] ([None] is [undefined], its value before
    [generate]). *)
Record Model {R : RandomSource} : Type := mkModel {
  rng_state : rng;
  activeLineCount : Z;
  seeds : option (list Seed);
}.
Arguments mkModel {R} _ _ _.

(** Field updates of a line, as the assignments of the source write them. *)
Definition set_p1 (p : Point) (l : Line) : Line :=
  mkLine (p0 l) p (angle l) (generation l) (parent l) (active l) (split l)
         (expired l) (steps l) (rnd_tag l).

Definition set_active (b : bool) (l : Line) : Line :=
  mkLine (p0 l) (p1 l) (angle l) (generation l) (parent l) b (split l)
         (expired l) (steps l) (rnd_tag l).

Definition set_split (b : bool) (l : Line) : Line :=
  mkLine (p0 l) (p1 l) (angle l) (generation l) (parent l) (active l) b
         (expired l) (steps l) (rnd_tag l).

Definition set_expired (b : bool) (l : Line) : Line :=
  mkLine (p0 l) (p1 l) (angle l) (generation l) (parent l) (active l) (split l)
         b (steps l) (rnd_tag l).

Definition set_steps (n : nat) (l : Line) : Line :=
  mkLine (p0 l) (p1 l) (angle l) (generation l) (parent l) (active l) (split l)
         (expired l) n (rnd_tag l).

Definition set_lines (ls : list Line) (s : Seed) : Seed := mkSeed (seed_angle s) ls.

(** Reading the line object a reference points to. *)
Definition lookupLine (r : LineRef) (ss : list Seed) : option Line :=
  match ss !! r.1 with
  | Some s => lines s !! r.2
  | None => None
  end.

(** Mutating the line object a reference points to. *)
Definition updateLine (r : LineRef) (f : Line -> Line) (ss : list Seed) : list Seed :=
  alter (fun s => set_lines (alter f r.2 (lines s)) s) r.1 ss.

(** [seed.lines.push(l)] on the seed of index [si]. *)
Definition pushLine (si : nat) (l : Line) (ss : list Seed) : list Seed :=
  alter (fun s => set_lines (lines s ++ [l]) s) si ss.

(** Every line of the forest with its reference, in the order of the
    traversal: seeds in creation order, lines in creation order within a
    seed. *)
Definition seedLines (si : nat) (s : Seed) : list (LineRef * Line) :=
  imap (fun li l => ((si, li), l)) (lines s).

Definition allLines (ss : list Seed) : list (LineRef * Line) :=
  mjoin (imap seedLines ss).

(** The number of lines whose [active] flag is set, in a seed and in the
    forest. *)
Definition countActiveLines (ls : list Line) : nat :=
  length (filter (fun l => active l = true) ls).

Definition countActive (ss : list Seed) : nat :=
  sum_list ((fun s => countActiveLines (lines s)) <$> ss).

(** Updates of the model's variables. *)
Section ModelUpdates.
Context {R : RandomSource}.

Definition set_rng (s : rng) (m : Model) : Model :=
  mkModel s (activeLineCount m) (seeds m).

Definition set_count (n : Z) (m : Model) : Model :=
  mkModel (rng_state m) n (seeds m).

Definition set_seeds (ss : option (list Seed)) (m : Model) : Model :=
  mkModel (rng_state m) (activeLineCount m) ss.

(** The forest: [seeds || []]. *)
Definition forest (m : Model) : list Seed := default [] (seeds m).

(** A draw of [rnd] inside the model. *)
Definition draw (a b : Q) : State Model Q :=
  zoom rng_state set_rng (rnd a b).

End ModelUpdates.

(** ** Concrete environments for the examples

    [RectCanvas w h] is a canvas whose visible region is the rectangle
    [[0, w] x [0, h]].  [AxisMath] measures angles in units of a quarter turn
    ([Math_PI = 2]) and rounds them down to a whole number of quarter turns, so
    that lines grow along the axes by whole steps.  They stand for the
    browser's canvas and [Math] in the examples; no theorem depends on them. *)

Local Open Scope Q_scope.

Definition RectCanvas (w h : Q) : Canvas := {|
  canvas_width := w;
  canvas_height := h;
  isVisible := fun px py => Qleb 0 px && Qleb px w && Qleb 0 py && Qleb py h;
|}.

Definition quarter (a : Q) : Z := (Qfloor a mod 4)%Z.

Definition AxisMath : MathEnv := {|
  Math_sin := fun a => match quarter a with 1%Z => 1 | 3%Z => -1 | _ => 0 end;
  Math_cos := fun a => match quarter a with 0%Z => 1 | 2%Z => -1 | _ => 0 end;
  Math_PI := 2;
|}.

(** A configuration for the examples: two seeds, a line splits on a draw
    below 1/2 and a line of generation [g] expires on a draw below [g/10]. *)
Definition exampleConfig : Config := {|
  seedCount := 2; pBifurcation := 1 # 2; maxRectWidth := 10; rectBaseHue := 0;
  rectSaturation := 50; rectHueVariation := 10; rectAlpha := 1 # 2;
  rectLightness := 50; expiryThreshold := 1 # 10; lineDarkness := 1 # 2;
  pencilHorizontal := false; useGradients := false;
|}.

Local Close Scope Q_scope.

(** * Part 2: lemmas *)

#[export] Instance Point_equivalence : Equivalence (≡@{Point}).
Proof.
  split.
  - intros p; split; reflexivity.
  - intros p q [Hx Hy]; split; now symmetry.
  - intros p q r [Hx Hy] [Hx' Hy']; split; etransitivity; eauto.
Qed.

#[export] Instance x_proper : Proper ((≡) ==> Qeq) x.
Proof. now intros p q [Hx _]. Qed.

#[export] Instance y_proper : Proper ((≡) ==> Qeq) y.
Proof. now intros p q [_ Hy]. Qed.

Section Accessors.
Implicit Types (ss : list Seed) (r : LineRef) (l : Line) (f : Line -> Line).

Lemma lookupLine_updateLine_eq r f ss :
  lookupLine r (updateLine r f ss) = f <$> lookupLine r ss.
Proof.
  unfold lookupLine, updateLine. rewrite list_lookup_alter_eq.
  destruct (ss !! r.1) as [s|]; simpl; [| done].
  apply list_lookup_alter_eq.
Qed.

Lemma lookupLine_updateLine_ne r r' f ss :
  r <> r' -> lookupLine r' (updateLine r f ss) = lookupLine r' ss.
Proof.
  intros Hne. unfold lookupLine, updateLine.
  destruct (decide (r.1 = r'.1)) as [E | NE].
  - rewrite <- E, list_lookup_alter_eq.
    destruct (ss !! r.1) as [s|]; simpl; [| done].
    apply list_lookup_alter_ne. destruct r, r'; simpl in *; congruence.
  - now rewrite list_lookup_alter_ne.
Qed.

Lemma lookupLine_pushLine_old si l r ss x :
  lookupLine r ss = Some x -> lookupLine r (pushLine si l ss) = Some x.
Proof.
  unfold lookupLine, pushLine. intros H.
  destruct (decide (si = r.1)) as [-> | NE].
  - rewrite list_lookup_alter_eq.
    destruct (ss !! r.1) as [s|]; simpl in *; [| done].
    now apply lookup_app_l_Some.
  - now rewrite list_lookup_alter_ne.
Qed.

Lemma lookupLine_pushLine_new si l ss s :
  ss !! si = Some s -> lookupLine (si, length (lines s)) (pushLine si l ss) = Some l.
Proof.
  unfold lookupLine, pushLine. intros H. simpl.
  rewrite list_lookup_alter_eq, H. simpl.
  rewrite lookup_app_r by lia. now rewrite Nat.sub_diag.
Qed.

Lemma length_updateLine r f ss : length (updateLine r f ss) = length ss.
Proof. apply length_alter. Qed.

Lemma length_pushLine si l ss : length (pushLine si l ss) = length ss.
Proof. apply length_alter. Qed.

(** Membership in the traversal is lookup. *)
Lemma elem_of_allLines r l ss : (r, l) ∈ allLines ss <-> lookupLine r ss = Some l.
Proof.
  unfold allLines, lookupLine. rewrite list_elem_of_join. split.
  - intros (k & Hin & Hk). apply elem_of_lookup_imap in Hk as (si & s & -> & Hs).
    apply elem_of_lookup_imap in Hin as (li & l' & E & Hl). inversion E; subst.
    simpl. now rewrite Hs.
  - destruct r as [si li]; simpl. destruct (ss !! si) as [s|] eqn:Hs; [| done].
    intros Hl. exists (seedLines si s). split.
    + now apply (elem_of_lookup_imap_2 (fun li l => ((si, li), l))).
    + now apply elem_of_lookup_imap_2.
Qed.

End Accessors.

Section DrawFacts.
Context {R : RandomSource} {L : RandomSourceLaws R}.

Lemma forest_Some (m : Model) (ss : list Seed) : seeds m = Some ss -> forest m = ss.
Proof. unfold forest. now intros ->. Qed.

(** One draw in a sequence of the model: its value, and the model with the
    source one unit draw later. *)
Lemma bind_draw {A : Type} (a b : Q) (k : Q -> State Model A) (m : Model) :
  bind (draw a b) k m =
  k (fst (rnd a b (rng_state m))) (set_rng (after_draws 1 (rng_state m)) m).
Proof.
  unfold bind, draw, zoom. rewrite <- (rnd_state a b).
  now destruct (rnd a b (rng_state m)).
Qed.

End DrawFacts.

(** ** Counting active lines under mutation *)

Section Counting.
Implicit Types (ss : list Seed) (ls : list Line) (r : LineRef) (l : Line) (f : Line -> Line).

Lemma countActiveLines_cons l ls :
  countActiveLines (l :: ls) = (Nat.b2n (active l) + countActiveLines ls)%nat.
Proof.
  unfold countActiveLines. rewrite filter_cons.
  destruct (decide (active l = true)) as [-> | H]; [reflexivity |].
  apply not_true_is_false in H. now rewrite H.
Qed.

Lemma countActiveLines_app ls1 ls2 :
  countActiveLines (ls1 ++ ls2) = (countActiveLines ls1 + countActiveLines ls2)%nat.
Proof. unfold countActiveLines. now rewrite filter_app, length_app. Qed.

Lemma countActiveLines_alter ls i f l :
  ls !! i = Some l ->
  (countActiveLines (alter f i ls) + Nat.b2n (active l) =
   countActiveLines ls + Nat.b2n (active (f l)))%nat.
Proof.
  revert i. induction ls as [|l' ls IH]; intros [|i] H; try discriminate; cbn in H.
  - inversion H; subst. cbn [alter list_alter]. rewrite !countActiveLines_cons. lia.
  - cbn [alter list_alter]. rewrite !countActiveLines_cons.
    specialize (IH i H). cbn [alter] in IH. lia.
Qed.

Lemma countActive_cons s ss :
  countActive (s :: ss) = (countActiveLines (lines s) + countActive ss)%nat.
Proof. reflexivity. Qed.

Lemma countActive_alter ss si (h : Seed -> Seed) s :
  ss !! si = Some s ->
  (countActive (alter h si ss) + countActiveLines (lines s) =
   countActive ss + countActiveLines (lines (h s)))%nat.
Proof.
  revert si. induction ss as [|s' ss IH]; intros [|si] H; try discriminate; cbn in H.
  - inversion H; subst. cbn [alter list_alter]. rewrite !countActive_cons. lia.
  - cbn [alter list_alter]. rewrite !countActive_cons.
    specialize (IH si H). cbn [alter] in IH. lia.
Qed.

Lemma countActive_updateLine r f ss l :
  lookupLine r ss = Some l ->
  (countActive (updateLine r f ss) + Nat.b2n (active l) =
   countActive ss + Nat.b2n (active (f l)))%nat.
Proof.
  unfold lookupLine, updateLine. destruct (ss !! r.1) as [s|] eqn:Hs; [| discriminate].
  intros Hl. pose proof (countActive_alter ss r.1 (fun s => set_lines (alter f r.2 (lines s)) s) s Hs) as H1.
  pose proof (countActiveLines_alter (lines s) r.2 f l Hl) as H2.
  cbn [lines set_lines] in H1. lia.
Qed.

Lemma countActive_pushLine si l ss s :
  ss !! si = Some s ->
  countActive (pushLine si l ss) = (countActive ss + Nat.b2n (active l))%nat.
Proof.
  intros Hs. unfold pushLine.
  pose proof (countActive_alter ss si (fun s => set_lines (lines s ++ [l]) s) s Hs) as H1.
  cbn [lines set_lines] in H1.
  rewrite countActiveLines_app, countActiveLines_cons in H1.
  change (countActiveLines []) with 0%nat in H1. lia.
Qed.

(** A forest without active lines has an empty snapshot in every seed. *)
Lemma countActive_0_seed ss si s :
  countActive ss = 0%nat -> ss !! si = Some s -> countActiveLines (lines s) = 0%nat.
Proof.
  revert si. induction ss as [|s' ss IH]; intros [|si] H0 Hs; try discriminate;
    rewrite countActive_cons in H0; cbn in Hs.
  - inversion Hs; subst. lia.
  - apply (IH si); [lia | assumption].
Qed.

End Counting.

(** ** Successive mutations of one line *)

Section UpdateAlgebra.
Implicit Types (ss : list Seed) (r : LineRef) (l : Line) (f g : Line -> Line).

Lemma updateLine_compose r f g ss :
  updateLine r f (updateLine r g ss) = updateLine r (f ∘ g) ss.
Proof.
  unfold updateLine. rewrite list_alter_alter_eq.
  apply list_alter_ext; [| reflexivity]. intros s _. unfold set_lines; cbn.
  now rewrite list_alter_alter_eq.
Qed.

Lemma updateLine_ext r f g ss :
  (forall l, lookupLine r ss = Some l -> f l = g l) ->
  updateLine r f ss = updateLine r g ss.
Proof.
  intros H. unfold updateLine. apply list_alter_ext; [| reflexivity].
  intros s Hs. f_equal. apply list_alter_ext; [| reflexivity].
  intros l Hl. apply H. unfold lookupLine. now rewrite Hs.
Qed.

(** Writing back what is there changes nothing. *)
Lemma updateLine_id r ss l :
  lookupLine r ss = Some l -> updateLine r (fun _ => l) ss = ss.
Proof.
  unfold lookupLine, updateLine. destruct (ss !! r.1) as [s|] eqn:Hs; [| discriminate].
  intros Hl. rewrite <- (list_alter_id id ss r.1) at 2 by reflexivity.
  apply list_alter_ext; [| reflexivity]. intros s' Hs'.
  rewrite Hs in Hs'. inversion Hs'; subst s'. destruct s as [a ls]. unfold set_lines; cbn in *.
  f_equal. rewrite <- (list_alter_id id ls r.2) at 2 by reflexivity.
  apply list_alter_ext; [| reflexivity]. intros l' Hl'. cbn. congruence.
Qed.

Lemma lookup_seed_updateLine r f ss si :
  lines <$> updateLine r f ss !! si =
  (fun s => if decide (r.1 = si) then alter f r.2 (lines s) else lines s) <$> ss !! si.
Proof.
  unfold updateLine. rewrite list_lookup_alter.
  destruct (decide (r.1 = si)) as [-> | NE]; [| reflexivity].
  now destruct (ss !! si).
Qed.

Lemma lookupLine_is_Some_seed r ss l :
  lookupLine r ss = Some l -> exists s, ss !! r.1 = Some s /\ lines s !! r.2 = Some l.
Proof.
  unfold lookupLine. destruct (ss !! r.1) as [s|]; [eauto | discriminate].
Qed.

End UpdateAlgebra.

(** ** What a push can make appear *)

Lemma lookupLine_pushLine_inv (si : nat) (c : Line) (r : LineRef) (ss : list Seed) (l : Line) :
  lookupLine r (pushLine si c ss) = Some l ->
  lookupLine r ss = Some l \/ (lookupLine r ss = None /\ r.1 = si /\ l = c).
Proof.
  unfold lookupLine, pushLine. destruct (decide (si = r.1)) as [-> | NE].
  - rewrite list_lookup_alter_eq. destruct (ss !! r.1) as [s|]; cbn; [| discriminate].
    intros H. apply lookup_app_Some in H as [H | [Hlen H]]; [now left |].
    right. rewrite (lookup_ge_None_2 _ _ Hlen).
    apply list_lookup_singleton_Some in H as [_ ->]. auto.
  - rewrite list_lookup_alter_ne by assumption. now left.
Qed.

Lemma countActive_pushLine_lt (si : nat) (l : Line) (ss : list Seed) :
  (si < length ss)%nat ->
  countActive (pushLine si l ss) = (countActive ss + Nat.b2n (active l))%nat.
Proof.
  intros H. apply lookup_lt_is_Some in H as [s Hs]. eapply countActive_pushLine, Hs.
Qed.

Lemma lookupLine_lt (r : LineRef) (ss : list Seed) (l : Line) :
  lookupLine r ss = Some l -> (r.1 < length ss)%nat.
Proof.
  intros H. apply lookupLine_is_Some_seed in H as (s & Hs & _).
  eapply lookup_lt_Some, Hs.
Qed.

(** ** No active line *)

(** A reference that points to nothing in a seed that exists is beyond the
    references of the seed's lines. *)
Lemma lookupLine_Some_None_lt (si a b : nat) (ss : list Seed) (l : Line) :
  lookupLine (si, a) ss = Some l -> lookupLine (si, b) ss = None -> (a < b)%nat.
Proof.
  unfold lookupLine. cbn. destruct (ss !! si) as [s|]; [| discriminate].
  intros Ha Hb. apply lookup_lt_Some in Ha. apply lookup_ge_None in Hb. lia.
Qed.

Lemma countActiveLines_0_iff (ls : list Line) :
  countActiveLines ls = 0%nat <-> forall i l, ls !! i = Some l -> active l = false.
Proof.
  induction ls as [|l0 ls IH].
  - split; [intros _ i l H; discriminate | reflexivity].
  - rewrite countActiveLines_cons. split.
    + intros H [|i] l Hl; cbn in Hl.
      * inversion Hl; subst. destruct (active l); [discriminate | reflexivity].
      * apply (proj1 IH) with i; [lia | assumption].
    + intros H. rewrite (H 0%nat l0 eq_refl). cbn.
      apply IH. intros i l Hl. apply (H (S i) l Hl).
Qed.

Lemma countActive_0_iff (ss : list Seed) :
  countActive ss = 0%nat <-> forall r l, lookupLine r ss = Some l -> active l = false.
Proof.
  split.
  - intros H0 r l Hl. apply lookupLine_is_Some_seed in Hl as (s & Hs & Hl).
    eapply countActiveLines_0_iff; [eapply countActive_0_seed; eauto | exact Hl].
  - induction ss as [|s ss IH]; [reflexivity |]. intros H.
    rewrite countActive_cons.
    rewrite (proj2 (countActiveLines_0_iff (lines s))), IH; [reflexivity | |].
    + intros [si li] l Hl. apply (H (S si, li) l Hl).
    + intros i l Hl. apply (H (0%nat, i) l Hl).
Qed.

Lemma countActiveLines_pos (ls : list Line) :
  countActiveLines ls <> 0%nat -> exists i l, ls !! i = Some l /\ active l = true.
Proof.
  induction ls as [|l0 ls IH]; [intros H; now destruct H |].
  rewrite countActiveLines_cons. destruct (active l0) eqn:Ha.
  - intros _. exists 0%nat, l0. auto.
  - cbn. intros H. destruct (IH H) as (i & l & Hl & Hal). exists (S i), l. auto.
Qed.

Lemma countActive_pos (ss : list Seed) :
  countActive ss <> 0%nat -> exists r l, lookupLine r ss = Some l /\ active l = true.
Proof.
  induction ss as [|s ss IH]; [intros H; now destruct H |].
  rewrite countActive_cons. destruct (decide (countActiveLines (lines s) = 0%nat)) as [E | NE].
  - rewrite E. cbn. intros H. destruct (IH H) as ([si li] & l & Hl & Ha).
    exists (S si, li), l. auto.
  - intros _. destruct (countActiveLines_pos _ NE) as (i & l & Hl & Ha).
    exists (0%nat, i), l. auto.
Qed.
