(* ===== verification/Line.v ===== *)
(** * Line: the operations of a line object

    Models [buildLine] of src/js/generator.js (lines 8-38): the constructor,
    which draws the line's random tag, counts the line as active and grows it
    once, and the two methods [grow] (lines 21-29) and [clip] (lines 30-33).

    Theorems: what [grow] changes and what it leaves alone, the probability
    model of expiry (a root never expires, deeper lines expire whenever
    shallower ones would), [clip] undoes the move of [grow], and the
    postcondition of [buildLine]. *)

From Stdlib Require Import ZArith QArith Lia Lqa Bool.
From stdpp Require Import base list.
From S2P Require Import Prelude Random Config Forest.

(** * Part 1: definitions *)

(** Line 9: [const growthRate = 1]. *)
Definition growthRate : Q := 1.

Section LineOps.
Context {R : RandomSource} {M : MathEnv} (config : Config).
Local Open Scope st_scope.

(** Lines 22-23: the tip one step further along the line's angle. *)
Definition tip_forward (l : Line) : Point :=
  {| x := (x (p1 l) + Math_sin (angle l) * growthRate)%Q;
     y := (y (p1 l) + Math_cos (angle l) * growthRate)%Q |}.

(** Lines 31-32: the tip one step back. *)
Definition tip_back (l : Line) : Point :=
  {| x := (x (p1 l) - Math_sin (angle l) * growthRate)%Q;
     y := (y (p1 l) - Math_cos (angle l) * growthRate)%Q |}.

(** The probability of expiry of a line: [generation * expiryThreshold]. *)
Definition expiryProbability (l : Line) : Q :=
  (inject_Z (Z.of_nat (generation l)) * expiryThreshold config)%Q.

(** Lines 21-29, [line.grow()]: move the tip, count the step, draw [split]
    afresh, and draw whether the line expires. *)
Definition line_grow (l : Line) : State rng Line :=
  let l := set_p1 (tip_forward l) l in
  let l := set_steps (S (steps l)) l in
  u <- rnd 1 0 ;;
  let l := set_split (Qltb u (pBifurcation config)) l in
  v <- rnd 1 0 ;;
  ret (if Qltb v (expiryProbability l) then set_expired true l else l).

(** Lines 30-33, [line.clip()]: move the tip one step back. *)
Definition clip (l : Line) : Line := set_p1 (tip_back l) l.

(** The generation of a new line: [parent ? parent.generation + 1 : 0]. *)
Definition childGeneration (parent : option (LineRef * Line)) : nat :=
  match parent with
  | Some (_, p) => generation p + 1
  | None => 0
  end.

(** Lines 8-38, [buildLine(p0, angle, parent)]: the object literal (with the
    draw of the tag), [activeLineCount++], and the first [grow]. *)
Definition buildLine (p0 : Point) (angle : Q) (parent : option (LineRef * Line))
    : State Model Line :=
  tag <- draw 1 0 ;;
  let line := {| p0 := p0; p1 := p0; angle := angle;
                 generation := childGeneration parent;
                 parent := fst <$> parent;
                 active := true; split := false; expired := false;
                 steps := 0; rnd_tag := tag |} in
  modify (fun m => set_count (activeLineCount m + 1) m) ;;;
  zoom rng_state set_rng (line_grow line).

End LineOps.

(** Lines for the examples: a root at the origin and a branch of generation 1
    from it, both pointing along the quarter turn 1 (the positive x axis of
    [AxisMath]). *)
Definition exampleRoot : Line := {|
  p0 := mkPoint 0 0; p1 := mkPoint 3 0; angle := 1; generation := 0;
  parent := None; active := true; split := false; expired := false;
  steps := 3; rnd_tag := 1 # 4 |}.

Definition exampleBranch (g : nat) : Line := {|
  p0 := mkPoint 3 0; p1 := mkPoint 3 2; angle := 0; generation := g;
  parent := Some (0%nat, 0%nat); active := true; split := false; expired := false;
  steps := 2; rnd_tag := 3 # 4 |}.

(** * Part 2: theorems *)

Section LineFacts.
Context {R : RandomSource} {L : RandomSourceLaws R} {M : MathEnv} (config : Config).
Implicit Types (l : Line) (s : rng).

(** [grow] in closed form: the two draws and the resulting line. *)
Lemma line_grow_eq l s :
  line_grow config l s =
  (let u := fst (rnd 1 0 s) in
   let v := fst (rnd 1 0 (after_draws 1 s)) in
   let l' := set_split (Qltb u (pBifurcation config))
               (set_steps (S (steps l)) (set_p1 (tip_forward l) l)) in
   if Qltb v (expiryProbability config l') then set_expired true l' else l',
   after_draws 2 s).
Proof.
  unfold line_grow. rewrite !bind_rnd. unfold ret. reflexivity.
Qed.

(** What [grow] leaves alone. *)
Lemma line_grow_frame l s :
  let l' := fst (line_grow config l s) in
  p0 l' = p0 l /\ angle l' = angle l /\ generation l' = generation l /\
  parent l' = parent l /\ active l' = active l /\ rnd_tag l' = rnd_tag l.
Proof. rewrite line_grow_eq. cbn. destruct (Qltb _ _); cbn; auto 10. Qed.

Lemma line_grow_steps l s : steps (fst (line_grow config l s)) = S (steps l).
Proof. rewrite line_grow_eq. cbn. now destruct (Qltb _ _). Qed.

Lemma line_grow_p1 l s : p1 (fst (line_grow config l s)) = tip_forward l.
Proof. rewrite line_grow_eq. cbn. now destruct (Qltb _ _). Qed.

(** [split] after [grow]: the first of the two draws against
    [pBifurcation]. *)
Lemma line_grow_split l s :
  split (fst (line_grow config l s)) = Qltb (fst (rnd 1 0 s)) (pBifurcation config).
Proof. rewrite line_grow_eq. cbn -[after_draws]. now destruct (Qltb _ (expiryProbability _ _)). Qed.

Lemma line_grow_state l s : snd (line_grow config l s) = after_draws 2 s.
Proof. now rewrite line_grow_eq. Qed.

(** [grow] never clears [expired]. *)
Lemma line_grow_expired_mono l s :
  expired l = true -> expired (fst (line_grow config l s)) = true.
Proof. rewrite line_grow_eq. cbn. now destruct (Qltb _ _). Qed.

(** [expired] after [grow], as a formula. *)
Lemma line_grow_expired l s :
  expired (fst (line_grow config l s)) =
  Qltb (fst (rnd 1 0 (after_draws 1 s))) (expiryProbability config l) || expired l.
Proof.
  rewrite line_grow_eq. cbn -[after_draws].
  unfold expiryProbability. cbn -[after_draws].
  destruct (Qltb _ _); cbn; auto.
Qed.

(** What [clip] leaves alone: everything but the tip. *)
Lemma clip_frame l :
  p0 (clip l) = p0 l /\ angle (clip l) = angle l /\ generation (clip l) = generation l /\
  parent (clip l) = parent l /\ active (clip l) = active l /\ split (clip l) = split l /\
  expired (clip l) = expired l /\ steps (clip l) = steps l /\ rnd_tag (clip l) = rnd_tag l.
Proof. cbn. auto 10. Qed.

(** C32: [clip] after [grow] puts the tip back where it was (in exact
    arithmetic): the retraction on a collision undoes exactly the step that
    collided. *)
Theorem clip_undoes_grow l s : p1 (clip (fst (line_grow config l s))) ≡ p1 l.
Proof.
  unfold clip, tip_back. cbn [p1 set_p1].
  pose proof (line_grow_frame l s) as (_ & -> & _).
  rewrite line_grow_p1. unfold tip_forward, growthRate. split; cbn; ring.
Qed.

(** C33: a line of generation 0 (a root) never expires: its probability of
    expiry is zero and a draw is never negative. *)
Theorem root_never_expires l s :
  rng_ok s -> generation l = 0%nat -> expired l = false ->
  expired (fst (line_grow config l s)) = false.
Proof.
  intros Hs Hg He. rewrite line_grow_expired, He, orb_false_r.
  apply Qltb_ge. unfold expiryProbability. rewrite Hg.
  change (inject_Z (Z.of_nat 0)) with 0%Q.
  pose proof (rnd_unit _ (after_draws_ok 1 s Hs)) as [H0 _].
  lra.
Qed.

(** C34: with a non-negative [expiryThreshold], whenever a line expires on a
    draw, a line of a deeper generation that was not expired before expires
    on the same draw: the probability of expiry grows with the generation. *)
Theorem expiry_monotone_in_generation l l' s :
  (0 <= expiryThreshold config)%Q ->
  (generation l <= generation l')%nat ->
  expired l = false ->
  expired (fst (line_grow config l s)) = true ->
  expired (fst (line_grow config l' s)) = true.
Proof.
  intros Ht Hg He. rewrite !line_grow_expired, He, orb_false_r. intros Hv.
  apply orb_true_iff. left. qreflect. unfold expiryProbability in *.
  assert (inject_Z (Z.of_nat (generation l)) <= inject_Z (Z.of_nat (generation l')))%Q
    by (rewrite <- Zle_Qle; lia).
  nra.
Qed.

(** [buildLine] in closed form: three draws (the tag and the two of the
    first [grow]) and one more active line. *)
Lemma buildLine_eq (p : Point) (a : Q) (par : option (LineRef * Line)) (m : Model) :
  buildLine config p a par m =
  (let line := {| p0 := p; p1 := p; angle := a;
                  generation := childGeneration par; parent := fst <$> par;
                  active := true; split := false; expired := false;
                  steps := 0; rnd_tag := fst (rnd 1 0 (rng_state m)) |} in
   fst (line_grow config line (after_draws 1 (rng_state m))),
   mkModel (after_draws 3 (rng_state m)) (activeLineCount m + 1) (seeds m)).
Proof.
  unfold buildLine. rewrite bind_draw. unfold bind, modify, zoom.
  cbn [set_rng set_count rng_state activeLineCount seeds].
  rewrite (surjective_pairing (line_grow _ _ _)), line_grow_state.
  reflexivity.
Qed.

(** [buildLine] returns an active line of one step that starts at the
    given point with the given angle, one generation below its parent (0 for
    a root), with its tip one step from its origin; it counts the line in
    [activeLineCount], leaves the forest alone and consumes three draws. *)
Lemma buildLine_post (p : Point) (a : Q) (par : option (LineRef * Line)) (m : Model) :
  let (l, m') := buildLine config p a par m in
  p0 l = p /\ angle l = a /\ active l = true /\ steps l = 1%nat /\
  generation l = childGeneration par /\ parent l = fst <$> par /\
  activeLineCount m' = (activeLineCount m + 1)%Z /\ seeds m' = seeds m /\
  rng_state m' = after_draws 3 (rng_state m) /\
  p1 l = tip_forward (set_p1 (p0 l) l).
Proof.
  rewrite buildLine_eq. cbn zeta. unfold tip_forward at 1. cbn [set_p1 angle p1].
  match goal with |- context [line_grow config ?l0 ?s0] =>
    pose proof (line_grow_frame l0 s0) as (-> & -> & -> & -> & -> & _);
    rewrite (line_grow_steps l0 s0), (line_grow_p1 l0 s0) end.
  cbn. auto 15.
Qed.

End LineFacts.

Lemma root_never_expires_witness :
  expired (fst (line_grow (R := MulberrySource) (M := AxisMath) exampleConfig exampleRoot 1%Z)) = false.
Proof.
  apply (@root_never_expires MulberrySource MulberryLaws AxisMath exampleConfig exampleRoot 1%Z);
    [exact I | reflexivity | reflexivity].
Defined.

Lemma expiry_monotone_in_generation_witness :
  expired (fst (line_grow (R := ScriptedSource) (M := AxisMath) exampleConfig
                  (exampleBranch 2) [1 # 2; 1 # 20]%Q)) = true.
Proof.
  apply (@expiry_monotone_in_generation ScriptedSource ScriptedLaws AxisMath exampleConfig
           (exampleBranch 1) (exampleBranch 2) [1 # 2; 1 # 20]%Q);
    [discriminate | cbn; lia | reflexivity | vm_compute; reflexivity].
Defined.
