(* ===== verification/Collision.v ===== *)
(** * Collision: the collision detector

    Models [buildCollisionDetector] of src/js/generator.js (lines 113-179):
    [lineOffscreen], [orientation], [onSegment], [linesIntersect] and
    [checkForCollisions].  The detector does not know the forest: it receives
    the model's traversal [forEachLineUntilTrue] and runs a callback on it
    that records its answer in the variable [foundCollision].

    Theorems: [linesIntersect] as a disjunction and its symmetry (with the
    cases the specification lists as an example), the compatibility of the geometry with the
    equality of rationals, and [checkForCollisions] over any traversal that
    enumerates a list: it is the off-screen test or the existence of a line
    that is not excluded and intersects. *)

From Stdlib Require Import ZArith QArith Qminmax Lia Lqa Bool.
From stdpp Require Import base list.
From S2P Require Import Prelude Random Config Forest.

(** * Part 1: definitions *)

(** Line 114: the three results of [orientation]. *)
Inductive Orientation : Type := COLINEAR | CLOCKWISE | ANTICLOCKWISE.

#[export] Instance Orientation_eq_dec : EqDecision Orientation.
Proof. solve_decision. Defined.

(** Line 121: the cross product whose sign [orientation] reads. *)
Definition cross (p q r : Point) : Q :=
  ((y q - y p) * (x r - x q) - (x q - x p) * (y r - y q))%Q.

(** Lines 120-128. *)
Definition orientation (p q r : Point) : Orientation :=
  let val := cross p q r in
  if Qltb 0 val then CLOCKWISE
  else if Qltb val 0 then ANTICLOCKWISE
  else COLINEAR.

(** Lines 130-132: [q] lies in the bounding box of [p] and [r]. *)
Definition onSegment (p q r : Point) : bool :=
  Qleb (x q) (Qmax (x p) (x r)) && Qleb (Qmin (x p) (x r)) (x q) &&
  Qleb (y q) (Qmax (y p) (y r)) && Qleb (Qmin (y p) (y r)) (y q).

(** Lines 134-161. *)
Definition linesIntersect (l1 l2 : Line) : bool :=
  let o1 := orientation (p0 l1) (p1 l1) (p0 l2) in
  let o2 := orientation (p0 l1) (p1 l1) (p1 l2) in
  let o3 := orientation (p0 l2) (p1 l2) (p0 l1) in
  let o4 := orientation (p0 l2) (p1 l2) (p1 l1) in
  if bool_decide (o1 <> o2) && bool_decide (o3 <> o4) then true
  else if bool_decide (o1 = COLINEAR) && onSegment (p0 l1) (p0 l2) (p1 l1) then true
  else if bool_decide (o2 = COLINEAR) && onSegment (p0 l1) (p1 l2) (p1 l1) then true
  else if bool_decide (o3 = COLINEAR) && onSegment (p0 l2) (p0 l1) (p1 l2) then true
  else if bool_decide (o4 = COLINEAR) && onSegment (p0 l2) (p1 l1) (p1 l2) then true
  else false.

(** The traversal the detector is handed: it runs a callback, which may
    update a state of its own, on lines of the forest (each with its identity)
    and the configuration, until the callback returns a truthy value. *)
Definition Traversal : Type :=
  forall S : Type, (LineRef * Line -> Config -> State S bool) -> State S unit.

(** Line 171: the lines the callback skips: the line itself, its parent and
    its children. *)
Definition excluded (r1 : LineRef) (line1 : Line) (rl2 : LineRef * Line) : bool :=
  bool_decide (r1 = rl2.1) || bool_decide (parent line1 = Some rl2.1) ||
  bool_decide (parent rl2.2 = Some r1).

(** Lines 170-175: the callback.  Its state is the variable
    [foundCollision]; a skipped line returns [undefined]. *)
Definition visit (r1 : LineRef) (line1 : Line) (rl2 : LineRef * Line) (_ : Config)
    : State bool bool :=
  fun foundCollision =>
    if excluded r1 line1 rl2 then (false, foundCollision)
    else let c := linesIntersect line1 rl2.2 in (c, c).

Section Detector.
Context {C : Canvas}.

(** Lines 116-118. *)
Definition lineOffscreen (l : Line) : bool := negb (isVisible (x (p1 l)) (y (p1 l))).

(** Lines 164-177: [checkForCollisions(line1, forEachLineUntilTrue)], where
    [r1] is the identity of [line1]. *)
Definition checkForCollisions (r1 : LineRef) (line1 : Line)
    (forEachLineUntilTrue : Traversal) : bool :=
  if lineOffscreen line1 then true
  else snd (forEachLineUntilTrue bool (visit r1 line1) false).

(** The interface of the detector to the model: [buildModel] receives
    [collisionDetector] and calls its [checkForCollisions]. *)
Class CollisionDetector : Type := {
  detect : LineRef -> Line -> Traversal -> bool;
}.

(** The detector [buildCollisionDetector(canvas)] returns. *)
#[export] Instance CanvasDetector : CollisionDetector := {|
  detect := checkForCollisions;
|}.

(** The declarative reading of the detector over a list of lines. *)
Definition collides (r1 : LineRef) (line1 : Line) (ls : list (LineRef * Line)) : bool :=
  lineOffscreen line1 ||
  existsb (fun rl2 => negb (excluded r1 line1 rl2) && linesIntersect line1 rl2.2) ls.

End Detector.

(** A traversal enumerates the list [ls] with the configuration [cfg] when
    it runs its callback as [Array.prototype.some] does over [ls]. *)
Definition enumerates (T : Traversal) (cfg : Config) (ls : list (LineRef * Line)) : Prop :=
  forall (S : Type) (fn : LineRef * Line -> Config -> State S bool) (s : S),
    T S fn s = (tt, snd (some_st (fun rl => fn rl cfg) ls s)).

(** A segment as a line object, for the examples. *)
Definition segment (ax ay bx by' : Q) : Line := {|
  p0 := mkPoint ax ay; p1 := mkPoint bx by'; angle := 0; generation := 0;
  parent := None; active := true; split := false; expired := false;
  steps := 0; rnd_tag := 0 |}.

(** * Part 2: theorems *)

Section Geometry.
Local Open Scope Q_scope.
Implicit Types (p q r : Point) (l : Line).

(** ** Compatibility with the equality of rationals *)

#[export] Instance cross_proper :
  Proper ((≡) ==> (≡) ==> (≡) ==> Qeq) cross.
Proof.
  intros p p' [Hpx Hpy] q q' [Hqx Hqy] r r' [Hrx Hry].
  unfold cross. now rewrite Hpx, Hpy, Hqx, Hqy, Hrx, Hry.
Qed.

#[export] Instance orientation_proper :
  Proper ((≡) ==> (≡) ==> (≡) ==> eq) orientation.
Proof.
  intros p p' Hp q q' Hq r r' Hr.
  pose proof (cross_proper _ _ Hp _ _ Hq _ _ Hr) as H.
  unfold orientation. cbv zeta.
  now rewrite (Qltb_Proper 0 0 (Qeq_refl 0) _ _ H), (Qltb_Proper _ _ H 0 0 (Qeq_refl 0)).
Qed.

#[export] Instance onSegment_proper :
  Proper ((≡) ==> (≡) ==> (≡) ==> eq) onSegment.
Proof.
  intros p p' [Hpx Hpy] q q' [Hqx Hqy] r r' [Hrx Hry].
  unfold onSegment. rewrite Hpx, Hpy, Hqx, Hqy, Hrx, Hry. reflexivity.
Qed.

(** ** [orientation] and [onSegment] as propositions *)

Lemma orientation_spec p q r :
  match orientation p q r with
  | CLOCKWISE => 0 < cross p q r
  | ANTICLOCKWISE => cross p q r < 0
  | COLINEAR => cross p q r == 0
  end.
Proof.
  unfold orientation. cbv zeta.
  destruct (Qltb 0 (cross p q r)) eqn:E1; [now qreflect |].
  destruct (Qltb (cross p q r) 0) eqn:E2; qreflect; [assumption | lra].
Qed.

Lemma onSegment_spec p q r :
  onSegment p q r = true <->
  Qmin (x p) (x r) <= x q <= Qmax (x p) (x r) /\
  Qmin (y p) (y r) <= y q <= Qmax (y p) (y r).
Proof.
  unfold onSegment. rewrite !andb_true_iff, !Qleb_le. tauto.
Qed.

(** ** [linesIntersect] *)

(** The chain of early returns is a disjunction. *)
Lemma linesIntersect_orb l1 l2 :
  linesIntersect l1 l2 =
  let o1 := orientation (p0 l1) (p1 l1) (p0 l2) in
  let o2 := orientation (p0 l1) (p1 l1) (p1 l2) in
  let o3 := orientation (p0 l2) (p1 l2) (p0 l1) in
  let o4 := orientation (p0 l2) (p1 l2) (p1 l1) in
  bool_decide (o1 <> o2) && bool_decide (o3 <> o4) ||
  (bool_decide (o1 = COLINEAR) && onSegment (p0 l1) (p0 l2) (p1 l1) ||
   (bool_decide (o2 = COLINEAR) && onSegment (p0 l1) (p1 l2) (p1 l1) ||
    (bool_decide (o3 = COLINEAR) && onSegment (p0 l2) (p0 l1) (p1 l2) ||
     bool_decide (o4 = COLINEAR) && onSegment (p0 l2) (p1 l1) (p1 l2)))).
Proof.
  unfold linesIntersect. cbv zeta.
  repeat match goal with |- context [if ?c then true else _] => destruct c; cbn [orb]; try reflexivity end.
Qed.

(** The cases the specification lists, computed: crossing diagonals
    intersect, parallel horizontal segments do not, and collinear overlapping
    segments do. *)
Example linesIntersect_spec_cases :
  linesIntersect (segment 0 0 10 10) (segment 0 10 10 0) = true /\
  linesIntersect (segment 0 0 10 0) (segment 0 5 10 5) = false /\
  linesIntersect (segment 0 0 10 0) (segment 5 0 15 0) = true.
Proof. repeat split; vm_compute; reflexivity. Qed.

(** C24: [linesIntersect] does not depend on the order of its arguments. *)
Theorem linesIntersect_sym l1 l2 : linesIntersect l1 l2 = linesIntersect l2 l1.
Proof.
  rewrite !linesIntersect_orb. cbv zeta.
  generalize (orientation (p0 l1) (p1 l1) (p0 l2)) (orientation (p0 l1) (p1 l1) (p1 l2))
             (orientation (p0 l2) (p1 l2) (p0 l1)) (orientation (p0 l2) (p1 l2) (p1 l1)).
  intros o1 o2 o3 o4.
  destruct (bool_decide (o1 <> o2)), (bool_decide (o3 <> o4)),
    (bool_decide (o1 = COLINEAR) && _), (bool_decide (o2 = COLINEAR) && _),
    (bool_decide (o3 = COLINEAR) && _), (bool_decide (o4 = COLINEAR) && _); reflexivity.
Qed.

End Geometry.

Section DetectorFacts.
Context {C : Canvas}.
Implicit Types (r : LineRef) (l : Line) (ls : list (LineRef * Line)).

(** The callback run over a list from [foundCollision = false]: it stops on
    the first line that is not excluded and intersects, and [foundCollision]
    ends up equal to the value returned. *)
Lemma some_visit r1 line1 cfg ls :
  some_st (fun rl => visit r1 line1 rl cfg) ls false =
  (let b := existsb (fun rl2 => negb (excluded r1 line1 rl2) && linesIntersect line1 rl2.2) ls
   in (b, b)).
Proof.
  induction ls as [|rl ls IH]; [reflexivity |].
  cbn [some_st existsb]. unfold visit at 1.
  destruct (excluded r1 line1 rl); cbn [negb andb orb]; [exact IH |].
  destruct (linesIntersect line1 rl.2); cbn [orb]; [reflexivity | exact IH].
Qed.

(** Over a traversal that enumerates [ls], the detector computes
    [collides]. *)
Lemma checkForCollisions_enumerates r1 line1 T cfg ls :
  enumerates T cfg ls -> checkForCollisions r1 line1 T = collides r1 line1 ls.
Proof.
  intros HT. unfold checkForCollisions, collides.
  destruct (lineOffscreen line1); [reflexivity |].
  rewrite HT, some_visit. reflexivity.
Qed.

(** [collides] as a proposition. *)
Lemma collides_true r1 line1 ls :
  collides r1 line1 ls = true <->
  lineOffscreen line1 = true \/
  exists r2 l2, (r2, l2) ∈ ls /\ r2 <> r1 /\ parent line1 <> Some r2 /\
                parent l2 <> Some r1 /\ linesIntersect line1 l2 = true.
Proof.
  unfold collides. rewrite orb_true_iff, existsb_exists.
  apply or_iff_compat_l. split.
  - intros ([r2 l2] & Hin & H). apply andb_true_iff in H as [Hex Hint].
    apply negb_true_iff in Hex. unfold excluded in Hex. cbn in Hex.
    apply orb_false_iff in Hex as [Hex H3]. apply orb_false_iff in Hex as [H1 H2].
    apply bool_decide_eq_false in H1, H2, H3.
    exists r2, l2. rewrite list_elem_of_In. auto 10.
  - intros (r2 & l2 & Hin & H1 & H2 & H3 & Hint).
    exists (r2, l2). rewrite <- list_elem_of_In. split; [assumption |].
    apply andb_true_iff. split; [| assumption].
    apply negb_true_iff. unfold excluded. cbn.
    rewrite !bool_decide_eq_false_2; auto.
Qed.

End DetectorFacts.
