(* ===== verification/Geometry.v ===== *)
(** * Geometry: what [linesIntersect] decides

    The segment-intersection test of src/js/generator.js (lines 120-161)
    against its geometric meaning: two segments intersect when some point
    lies on both.  A point lies on the segment from [p] to [r] when it is
    [p + t (r - p)] for some [t] between 0 and 1.

    Theorems: the test answers true exactly when the two segments share a
    point, in exact rational arithmetic, degenerate (one-point) segments
    included. *)

From Stdlib Require Import ZArith QArith Qminmax Qfield Lia Lqa Bool.
From stdpp Require Import base list.
From S2P Require Import Prelude Random Config Forest Line Collision.

Local Open Scope Q_scope.

(** * Part 1: definitions *)

(** The point at parameter [t] on the line from [p] to [r]. *)
Definition lerp (p r : Point) (t : Q) : Point :=
  {| x := x p + t * (x r - x p); y := y p + t * (y r - y p) |}.

(** [q] lies on the closed segment from [p] to [r]. *)
Definition on_segment (p q r : Point) : Prop :=
  exists t, 0 <= t <= 1 /\ q ≡ lerp p r t.

(** The segments of two lines share a point. *)
Definition segments_meet (l1 l2 : Line) : Prop :=
  exists pt, on_segment (p0 l1) pt (p1 l1) /\ on_segment (p0 l2) pt (p1 l2).

(** * Part 2: theorems *)

Section Affine.
Implicit Types (p q r a b c d : Point) (s t : Q).

(** [cross p q] is affine in its third argument. *)
Lemma cross_lerp p q c d t :
  cross p q (lerp c d t) == (1 - t) * cross p q c + t * cross p q d.
Proof. unfold cross, lerp. cbn. ring. Qed.

(** It vanishes on the line through [p] and [q]. *)
Lemma cross_on_line p q s : cross p q (lerp p q s) == 0.
Proof. unfold cross, lerp. cbn. ring. Qed.

(** The two pairs of cross products have opposite differences. *)
Lemma cross_det a b c d :
  cross a b d - cross a b c == - (cross c d b - cross c d a).
Proof. unfold cross. ring. Qed.

End Affine.

Section Signs.
Implicit Types (p q r a b c d : Point) (s t : Q).

Lemma orientation_COLINEAR p q r : orientation p q r = COLINEAR <-> cross p q r == 0.
Proof.
  pose proof (orientation_spec p q r) as H.
  destruct (orientation p q r); split; intros E; try discriminate; try reflexivity;
    try assumption; lra.
Qed.

(** Two points have different orientations with respect to a line exactly
    when their cross products do not have the same strict sign and are not
    both zero. *)
Lemma orientation_ne p q c d :
  orientation p q c <> orientation p q d <->
  cross p q c * cross p q d <= 0 /\ ~ (cross p q c == 0 /\ cross p q d == 0).
Proof.
  pose proof (orientation_spec p q c) as Hc. pose proof (orientation_spec p q d) as Hd.
  destruct (orientation p q c), (orientation p q d); split;
    try (intros _; split; [nra | intros [? ?]; lra]);
    try (intros H; exfalso; apply H; reflexivity);
    try (intros _; discriminate);
    try (intros [H1 H2]; exfalso; first [apply H2; split; lra | nra]).
Qed.

End Signs.

Section Segments.
Implicit Types (p q r a b c d : Point) (s t : Q).

(** A convex combination of two numbers lies between them. *)
Lemma between_lerp (a b t : Q) :
  0 <= t <= 1 -> Qmin a b <= a + t * (b - a) <= Qmax a b.
Proof.
  intros Ht.
  destruct (Q.min_spec a b) as [[H1 E1] | [H1 E1]];
    destruct (Q.max_spec a b) as [[H2 E2] | [H2 E2]]; rewrite E1, E2; nra.
Qed.

(** Conversely, on two different numbers, the parameter of a number between
    them is between 0 and 1. *)
Lemma between_param (a b v t : Q) :
  ~ a == b -> v == a + t * (b - a) -> Qmin a b <= v <= Qmax a b -> 0 <= t <= 1.
Proof.
  intros Hne Hv.
  destruct (Q.min_spec a b) as [[H1 E1] | [H1 E1]];
    destruct (Q.max_spec a b) as [[H2 E2] | [H2 E2]]; rewrite E1, E2; intros Hb;
    try lra; nra.
Qed.

(** A point of a segment is in the bounding box of its ends. *)
Lemma onSegment_lerp p q r t : 0 <= t <= 1 -> q ≡ lerp p r t -> onSegment p q r = true.
Proof.
  intros Ht [Hx Hy]. apply onSegment_spec. cbn in Hx, Hy. rewrite Hx, Hy.
  split; now apply between_lerp.
Qed.

Lemma on_segment_onSegment p q r : on_segment p q r -> onSegment p q r = true.
Proof. intros (t & Ht & Hq). eauto using onSegment_lerp. Qed.

(** The ends of a segment are on it. *)
Lemma on_segment_start p r : on_segment p p r.
Proof. exists 0. split; [lra |]. split; cbn; ring. Qed.

Lemma on_segment_end p r : on_segment p r r.
Proof. exists 1. split; [lra |]. split; cbn; ring. Qed.

End Segments.

Section Collinear.
Implicit Types (p q r a b c d : Point) (s t : Q).

Lemma Qmult_cancel_0 (u v : Q) : ~ u == 0 -> u * v == 0 -> v == 0.
Proof. intros Hu H. destruct (Qmult_integral _ _ H); [contradiction | assumption]. Qed.

(** The cross product, with the second point as the origin. *)
Lemma cross_expand a b c :
  cross a b c == (y b - y a) * (x c - x a) - (x b - x a) * (y c - y a).
Proof. unfold cross. ring. Qed.

(** A point collinear with two different points is on the line through
    them. *)
Lemma collinear_param a b c :
  cross a b c == 0 -> ~ a ≡ b -> exists s, c ≡ lerp a b s.
Proof.
  rewrite cross_expand. intros H Hne.
  destruct (Qeq_dec (x a) (x b)) as [Ex | Nx].
  - destruct (Qeq_dec (y a) (y b)) as [Ey | Ny]; [exfalso; apply Hne; now split |].
    exists ((y c - y a) / (y b - y a)). split; cbn.
    + rewrite <- Ex in *. assert ((y b - y a) * (x c - x a) == 0) as H0 by lra.
      apply Qmult_cancel_0 in H0; lra.
    + field. lra.
  - exists ((x c - x a) / (x b - x a)). split; cbn.
    + field. lra.
    + assert ((x b - x a) * (y c - (y a + (x c - x a) / (x b - x a) * (y b - y a))) == 0) as H0.
      { transitivity ((x b - x a) * (y c - y a) - (y b - y a) * (x c - x a)); [field | ]; lra. }
      apply Qmult_cancel_0 in H0; lra.
Qed.

(** A point collinear with the ends of a segment and in their bounding box
    is on the segment. *)
Lemma collinear_bbox_on_segment a b c :
  cross a b c == 0 -> onSegment a c b = true -> on_segment a c b.
Proof.
  intros H Hb. apply onSegment_spec in Hb as [Hbx Hby].
  destruct (Qeq_dec (x a) (x b)) as [Ex | Nx].
  - destruct (Qeq_dec (y a) (y b)) as [Ey | Ny].
    + exists 0. split; [lra |]. rewrite <- Ex in Hbx. rewrite <- Ey in Hby.
      rewrite Q.min_id, Q.max_id in Hbx, Hby. split; cbn; lra.
    + destruct (collinear_param a b c H) as (s & Hx & Hy); [intros [_ E]; contradiction |].
      exists s. split; [| now split]. eapply between_param; [exact Ny | exact Hy | exact Hby].
  - destruct (collinear_param a b c H) as (s & Hx & Hy); [intros [E _]; contradiction |].
    exists s. split; [| now split]. eapply between_param; [exact Nx | exact Hx | exact Hbx].
Qed.

End Collinear.

Section Crossing.
Implicit Types (p q r a b c d : Point) (s t : Q).

(** Two numbers that do not have the same strict sign and are not both zero
    divide the unit interval. *)
Lemma ratio_unit (u v : Q) :
  u * v <= 0 -> ~ (u == 0 /\ v == 0) -> ~ u - v == 0 /\ 0 <= u / (u - v) <= 1.
Proof.
  intros Huv Hn. assert (~ u - v == 0) as Hw by (intros E; apply Hn; split; nra).
  split; [assumption |].
  assert (u / (u - v) * (u - v) == u) as Ht by (field; assumption).
  set (t := u / (u - v)) in *. clearbody t.
  destruct (Qlt_le_dec 0 (u - v)) as [Hpos | Hneg].
  - assert (0 <= u) by nra. assert (v <= 0) by nra. split; nra.
  - assert (u <= 0) by nra. assert (0 <= v) by nra. split; nra.
Qed.

(** The general case: when the ends of each segment are on different sides
    of the other segment's line (or one of them on it), the point where the
    lines cross is on both segments. *)
Lemma crossing_meet a b c d :
  orientation a b c <> orientation a b d -> orientation c d a <> orientation c d b ->
  exists s t, 0 <= s <= 1 /\ 0 <= t <= 1 /\ lerp a b s ≡ lerp c d t.
Proof.
  rewrite !orientation_ne. intros [H12 N12] [H34 N34].
  destruct (ratio_unit _ _ H12 N12) as [W12 T12].
  destruct (ratio_unit _ _ H34 N34) as [W34 T34].
  exists (cross c d a / (cross c d a - cross c d b)),
         (cross a b c / (cross a b c - cross a b d)).
  split; [assumption |]. split; [assumption |].
  unfold cross in *. split; cbn; field; split; assumption.
Qed.

End Crossing.

Section Correctness.
Implicit Types (p q r a b c d : Point) (s t : Q) (l : Line).

(** [linesIntersect] as a proposition: the general case or one of the four
    special cases. *)
Lemma linesIntersect_true_iff l1 l2 :
  linesIntersect l1 l2 = true <->
  (orientation (p0 l1) (p1 l1) (p0 l2) <> orientation (p0 l1) (p1 l1) (p1 l2) /\
   orientation (p0 l2) (p1 l2) (p0 l1) <> orientation (p0 l2) (p1 l2) (p1 l1)) \/
  (cross (p0 l1) (p1 l1) (p0 l2) == 0 /\ onSegment (p0 l1) (p0 l2) (p1 l1) = true) \/
  (cross (p0 l1) (p1 l1) (p1 l2) == 0 /\ onSegment (p0 l1) (p1 l2) (p1 l1) = true) \/
  (cross (p0 l2) (p1 l2) (p0 l1) == 0 /\ onSegment (p0 l2) (p0 l1) (p1 l2) = true) \/
  (cross (p0 l2) (p1 l2) (p1 l1) == 0 /\ onSegment (p0 l2) (p1 l1) (p1 l2) = true).
Proof.
  rewrite linesIntersect_orb. cbv zeta.
  now rewrite !orb_true_iff, !andb_true_iff, !bool_decide_eq_true, !orientation_COLINEAR.
Qed.

(** Soundness: when the test answers true the segments share a point. *)
Lemma linesIntersect_sound l1 l2 : linesIntersect l1 l2 = true -> segments_meet l1 l2.
Proof.
  rewrite linesIntersect_true_iff.
  intros [[H1 H2] | [[H H'] | [[H H'] | [[H H'] | [H H']]]]].
  - destruct (crossing_meet _ _ _ _ H1 H2) as (s & t & Hs & Ht & E).
    exists (lerp (p0 l1) (p1 l1) s). split; [now exists s | now exists t].
  - exists (p0 l2). split; [now apply collinear_bbox_on_segment | apply on_segment_start].
  - exists (p1 l2). split; [now apply collinear_bbox_on_segment | apply on_segment_end].
  - exists (p0 l1). split; [apply on_segment_start | now apply collinear_bbox_on_segment].
  - exists (p1 l1). split; [apply on_segment_end | now apply collinear_bbox_on_segment].
Qed.

End Correctness.

Section Overlap.
Implicit Types (p q r a b c d : Point) (s t u v : Q).

#[export] Instance lerp_proper : Proper ((≡) ==> (≡) ==> Qeq ==> (≡)) lerp.
Proof.
  intros a a' [Hax Hay] b b' [Hbx Hby] t t' Ht. unfold lerp.
  split; cbn; now rewrite ?Hax, ?Hay, ?Hbx, ?Hby, Ht.
Qed.

Lemma lerp_0 a b : lerp a b 0 ≡ a.
Proof. split; cbn; ring. Qed.

Lemma lerp_1 a b : lerp a b 1 ≡ b.
Proof. split; cbn; ring. Qed.

Lemma lerp_same a b t : a ≡ b -> lerp a b t ≡ a.
Proof. intros [Hx Hy]. split; cbn; rewrite <- ?Hx, <- ?Hy; ring. Qed.

(** A point of a segment whose ends are on a line, as a point of the
    line. *)
Lemma lerp_lerp a b c d u v t :
  c ≡ lerp a b u -> d ≡ lerp a b v -> lerp c d t ≡ lerp a b (u + t * (v - u)).
Proof.
  intros [Hcx Hcy] [Hdx Hdy]. cbn in *.
  split; cbn; rewrite ?Hcx, ?Hcy, ?Hdx, ?Hdy; ring.
Qed.

(** On a line through two different points the parameter of a point is
    unique. *)
Lemma lerp_inj a b u v : ~ a ≡ b -> lerp a b u ≡ lerp a b v -> u == v.
Proof.
  intros Hne [Hx Hy]. cbn in Hx, Hy.
  destruct (Qeq_dec (x a) (x b)) as [Ex | Nx].
  - destruct (Qeq_dec (y a) (y b)) as [Ey | Ny]; [exfalso; apply Hne; now split |].
    assert ((y b - y a) * (u - v) == 0) as H0 by lra.
    apply Qmult_cancel_0 in H0; lra.
  - assert ((x b - x a) * (u - v) == 0) as H0 by lra.
    apply Qmult_cancel_0 in H0; lra.
Qed.

Lemma Point_equiv_dec a b : {a ≡ b} + {~ a ≡ b}.
Proof.
  destruct (Qeq_dec (x a) (x b)) as [Ex | Nx]; [| right; intros [E _]; contradiction].
  destruct (Qeq_dec (y a) (y b)) as [Ey | Ny]; [left; now split | right; intros [_ E]; contradiction].
Qed.

(** Two intervals of a line that share a point: an end of the second is in
    the first, or the start of the first is in the second. *)
Lemma interval_overlap (u v s t : Q) :
  0 <= s <= 1 -> 0 <= t <= 1 -> s == u + t * (v - u) ->
  0 <= u <= 1 \/ 0 <= v <= 1 \/ exists t0, 0 <= t0 <= 1 /\ u + t0 * (v - u) == 0.
Proof.
  intros Hs Ht E.
  assert (s == (1 - t) * u + t * v) as E' by (rewrite E; ring).
  assert (0 <= u <= 1 \/ 0 <= v <= 1 \/ (u < 0 /\ 1 < v) \/ (1 < u /\ v < 0)) as Hcases.
  { destruct (Qlt_le_dec u 0), (Qlt_le_dec 1 u), (Qlt_le_dec v 0), (Qlt_le_dec 1 v);
      try (left; lra); try (right; left; lra); try (right; right; lra);
      exfalso; destruct (Qlt_le_dec t (1 # 2)); nra. }
  destruct Hcases as [H | [H | H]]; [now left | now (right; left) |].
  right. right. assert (~ v - u == 0) as Hw by lra.
  assert (- u / (v - u) * (v - u) == - u) as H0 by (field; assumption).
  exists (- u / (v - u)). set (t0 := - u / (v - u)) in *. clearbody t0.
  split; [| lra]. destruct H as [[? ?] | [? ?]]; split; nra.
Qed.

(** Two segments on one line that share a point: an end of one is in the
    bounding box of the other. *)
Lemma collinear_overlap a b c d s t :
  cross a b c == 0 -> cross a b d == 0 -> 0 <= s <= 1 -> 0 <= t <= 1 ->
  lerp a b s ≡ lerp c d t ->
  onSegment a c b = true \/ onSegment a d b = true \/ onSegment c a d = true.
Proof.
  intros Hc Hd Hs Ht E. destruct (Point_equiv_dec a b) as [Eab | Nab].
  - right. right. apply (onSegment_lerp c a d t Ht).
    now rewrite <- E, (lerp_same a b s Eab).
  - destruct (collinear_param a b c Hc Nab) as [u Hu].
    destruct (collinear_param a b d Hd Nab) as [v Hv].
    pose proof (lerp_lerp a b c d u v) as Hl.
    assert (s == u + t * (v - u)) as Est.
    { apply (lerp_inj a b _ _ Nab). now rewrite E, (Hl t Hu Hv). }
    destruct (interval_overlap u v s t Hs Ht Est) as [Hu01 | [Hv01 | (t0 & Ht0 & E0)]].
    + left. now apply (onSegment_lerp a c b u).
    + right. left. now apply (onSegment_lerp a d b v).
    + right. right. apply (onSegment_lerp c a d t0 Ht0).
      now rewrite (Hl t0 Hu Hv), E0, lerp_0.
Qed.

End Overlap.

Section Completeness.
Implicit Types (p q r a b c d : Point) (s t u v : Q) (l : Line).

(** At a point shared by two segments the cross products of the ends of one
    with respect to the other balance. *)
Lemma meet_cross a b c d s t :
  lerp a b s ≡ lerp c d t -> (1 - t) * cross a b c + t * cross a b d == 0.
Proof. intros E. rewrite <- cross_lerp, <- E. apply cross_on_line. Qed.

Lemma meet_at_start a b c d s t :
  0 <= s <= 1 -> lerp a b s ≡ lerp c d t -> t == 0 -> onSegment a c b = true.
Proof. intros Hs E Et. apply (onSegment_lerp a c b s Hs). now rewrite E, Et, lerp_0. Qed.

Lemma meet_at_end a b c d s t :
  0 <= s <= 1 -> lerp a b s ≡ lerp c d t -> t == 1 -> onSegment a d b = true.
Proof. intros Hs E Et. apply (onSegment_lerp a d b s Hs). now rewrite E, Et, lerp_1. Qed.

(** Two numbers with a convex combination equal to zero do not have the same
    strict sign. *)
Lemma balance_signs (u v t : Q) :
  0 <= t <= 1 -> (1 - t) * u + t * v == 0 -> u * v <= 0.
Proof.
  intros Ht E.
  destruct (Qlt_le_dec 0 u), (Qlt_le_dec 0 v), (Qlt_le_dec u 0), (Qlt_le_dec v 0);
    try nra; exfalso; destruct (Qlt_le_dec t (1 # 2)); nra.
Qed.

(** With one of the two numbers zero and the other not, the combination is
    at the end of the zero. *)
Lemma balance_zero_l (u v t : Q) : u == 0 -> ~ v == 0 -> (1 - t) * u + t * v == 0 -> t == 0.
Proof.
  intros Hu Hv E. assert (v * t == 0) as H0 by (rewrite Hu in E; lra).
  now apply Qmult_cancel_0 in H0.
Qed.

Lemma balance_zero_r (u v t : Q) : ~ u == 0 -> v == 0 -> (1 - t) * u + t * v == 0 -> t == 1.
Proof.
  intros Hu Hv E. assert (u * (1 - t) == 0) as H0 by (rewrite Hv in E; lra).
  apply Qmult_cancel_0 in H0; [lra | assumption].
Qed.

(** Completeness: when the segments share a point the test answers true. *)
Lemma linesIntersect_complete l1 l2 : segments_meet l1 l2 -> linesIntersect l1 l2 = true.
Proof.
  intros (pt & (s & Hs & Es) & (t & Ht & Et)).
  assert (lerp (p0 l1) (p1 l1) s ≡ lerp (p0 l2) (p1 l2) t) as E by now rewrite <- Es, <- Et.
  assert (lerp (p0 l2) (p1 l2) t ≡ lerp (p0 l1) (p1 l1) s) as E' by now symmetry.
  pose proof (meet_cross _ _ _ _ _ _ E) as F1. pose proof (meet_cross _ _ _ _ _ _ E') as F2.
  pose proof (cross_det (p0 l1) (p1 l1) (p0 l2) (p1 l2)) as Hdet.
  apply linesIntersect_true_iff.
  destruct (Qeq_dec (cross (p0 l1) (p1 l1) (p0 l2)) 0) as [Z1 | N1],
           (Qeq_dec (cross (p0 l1) (p1 l1) (p1 l2)) 0) as [Z2 | N2].
  - destruct (collinear_overlap _ _ _ _ s t Z1 Z2 Hs Ht E) as [H | [H | H]]; [tauto | tauto |].
    right. right. right. left. split; [| assumption].
    assert (cross (p0 l2) (p1 l2) (p1 l1) == cross (p0 l2) (p1 l2) (p0 l1)) as E34 by lra.
    rewrite E34 in F2. lra.
  - pose proof (balance_zero_l _ _ _ Z1 N2 F1) as T0.
    right. left. split; [assumption |]. exact (meet_at_start _ _ _ _ s t Hs E T0).
  - pose proof (balance_zero_r _ _ _ N1 Z2 F1) as T1.
    right. right. left. split; [assumption |]. exact (meet_at_end _ _ _ _ s t Hs E T1).
  - assert (orientation (p0 l1) (p1 l1) (p0 l2) <> orientation (p0 l1) (p1 l1) (p1 l2)) as O12.
    { apply orientation_ne. split; [exact (balance_signs _ _ t Ht F1) | tauto]. }
    destruct (Qeq_dec (cross (p0 l2) (p1 l2) (p0 l1)) 0) as [Z3 | N3],
             (Qeq_dec (cross (p0 l2) (p1 l2) (p1 l1)) 0) as [Z4 | N4].
    + exfalso. apply N1.
      assert (cross (p0 l1) (p1 l1) (p1 l2) == cross (p0 l1) (p1 l1) (p0 l2)) as E12 by lra.
      rewrite E12 in F1. lra.
    + pose proof (balance_zero_l _ _ _ Z3 N4 F2) as S0.
      right. right. right. left. split; [assumption |].
      exact (meet_at_start _ _ _ _ t s Ht E' S0).
    + pose proof (balance_zero_r _ _ _ N3 Z4 F2) as S1.
      right. right. right. right. split; [assumption |].
      exact (meet_at_end _ _ _ _ t s Ht E' S1).
    + left. split; [assumption |].
      apply orientation_ne. split; [exact (balance_signs _ _ s Hs F2) | tauto].
Qed.

End Completeness.

Section Claims.
Implicit Types (l : Line).

(** C3: [linesIntersect] decides whether two segments share a point: it
    answers true exactly when some point lies on both closed segments, in
    exact arithmetic, for every position of the four ends (crossing,
    touching, collinear overlap, one-point segments). *)
Theorem linesIntersect_correct l1 l2 :
  linesIntersect l1 l2 = true <-> segments_meet l1 l2.
Proof. split; [apply linesIntersect_sound | apply linesIntersect_complete]. Qed.

(** C23: a line that starts on the tip of another one intersects it, whatever
    their directions: a child always intersects its parent, which is why the
    detector has to skip parents and children. *)
Theorem child_touches_parent (c lp : Line) :
  p0 c ≡ p1 lp -> linesIntersect c lp = true.
Proof.
  intros E. apply linesIntersect_complete. exists (p0 c).
  split; [apply on_segment_start |].
  exists 1. split; [lra |]. now rewrite lerp_1.
Qed.

(** [linesIntersect] does not distinguish equal rationals: segments whose
    ends have equal coordinates get the same answer. *)
Lemma linesIntersect_proper l1 l2 l1' l2' :
  p0 l1 ≡ p0 l1' -> p1 l1 ≡ p1 l1' -> p0 l2 ≡ p0 l2' -> p1 l2 ≡ p1 l2' ->
  linesIntersect l1 l2 = linesIntersect l1' l2'.
Proof.
  intros E1 E2 E3 E4. rewrite !linesIntersect_orb. cbv zeta.
  rewrite (orientation_proper _ _ E1 _ _ E2 _ _ E3), (orientation_proper _ _ E1 _ _ E2 _ _ E4),
    (orientation_proper _ _ E3 _ _ E4 _ _ E1), (orientation_proper _ _ E3 _ _ E4 _ _ E2),
    (onSegment_proper _ _ E1 _ _ E3 _ _ E2), (onSegment_proper _ _ E1 _ _ E4 _ _ E2),
    (onSegment_proper _ _ E3 _ _ E1 _ _ E4), (onSegment_proper _ _ E3 _ _ E2 _ _ E4).
  reflexivity.
Qed.

End Claims.

Lemma child_touches_parent_witness : linesIntersect (exampleBranch 1) exampleRoot = true.
Proof. apply (child_touches_parent (exampleBranch 1) exampleRoot). split; reflexivity. Defined.

Example linesIntersect_proper_example :
  linesIntersect (segment (2 # 2) 0 3 3) (segment 0 2 (6 # 2) 0) =
  linesIntersect (segment 1 0 3 3) (segment 0 2 3 0).
Proof.
  apply (linesIntersect_proper (segment (2 # 2) 0 3 3) (segment 0 2 (6 # 2) 0)
           (segment 1 0 3 3) (segment 0 2 3 0)); split; reflexivity.
Qed.
