(* ===== verification/Model.v ===== *)
(** * Model: seeds and the growth model

    Models the rest of [buildModel] of src/js/generator.js: [buildSeed]
    (lines 40-73) with the seed's [grow], and the model object (lines 75-92)
    with [generate], [grow], [forEachLineUntilTrue] and [isActive].

    A tick ([model_grow]) runs [seed_grow] on every seed in order;
    [seed_grow] takes the snapshot of the indices of the seed's active lines
    and runs [growLine], the body of the loop, on each.  [growLine] is the
    per-line state machine: grow, then expire, or collide and retract, or
    split.  The model is parametric in the random source, the Math
    environment, the canvas and the collision detector, as [buildModel] is.

    Theorems: the closed forms of the steps, the postcondition of
    [buildSeed] and [generate], and the collision detector on the model's
    traversal. *)

From Stdlib Require Import ZArith QArith Lia Lqa Bool.
From stdpp Require Import base list.
From S2P Require Import Prelude Random Config Forest Line Collision Geometry.

(** * Part 1: definitions *)

(** Run a computation [n] times and collect the results:
    [Array(n).fill().map(f)] for an [f] that ignores its arguments. *)
Fixpoint repeatM {S A : Type} (n : nat) (c : State S A) : State S (list A) :=
  match n with
  | O => ret []
  | S n' => fun s =>
      let (a, s') := c s in
      let (l, s'') := repeatM n' c s' in
      (a :: l, s'')
  end.

(** Line 49: the snapshot [this.lines.filter(l => l.active)], as the
    indices of the lines it holds. *)
Definition activeIndices (ls : list Line) : list nat :=
  filter (fun i => active <$> ls !! i = Some true) (seq 0 (length ls)).

(** A seed as [buildSeed] returns it: one line, the root, active, one step
    long, of generation 0, without a parent, pointing along the seed's
    angle, its tip one step from its origin. *)
Definition fresh_seed {M : MathEnv} (s : Seed) : Prop :=
  exists root, lines s = [root] /\ active root = true /\ steps root = 1%nat /\
               generation root = 0%nat /\ parent root = None /\
               angle root = seed_angle s /\
               p1 root = tip_forward (set_p1 (p0 root) root).

Section ModelOps.
Context {R : RandomSource} {M : MathEnv} {C : Canvas} {D : CollisionDetector}.
Context (config : Config).
Local Open Scope st_scope.

(** The initial state of the closure: [activeLineCount = 0], [seeds]
    undefined, the random source in state [s]. *)
Definition initModel (s : rng) : Model := mkModel s 0 None.

(** Assignment to the forest. *)
Definition set_forest (ss : list Seed) (m : Model) : Model := set_seeds (Some ss) m.

(** Lines 82-88: [(seeds || []).some(seed => seed.lines.some(line =>
    fn(line, config)))].  The code returns nothing; the callback's state is
    what the caller observes. *)
Definition forEachLineUntilTrue (m : Model) : Traversal := fun S fn s =>
  (tt, snd (some_st (fun seed : list (LineRef * Line) =>
                       some_st (fun line => fn line config) seed)
                    (imap seedLines (forest m)) s)).

(** Lines 40-47: the seed's angle, the root's position (x before y) and the
    root line. *)
Definition buildSeed : State Model Seed :=
  a <- draw 0 (Math_PI * 2) ;;
  px <- draw 0 canvas_width ;;
  py <- draw 0 canvas_height ;;
  root <- buildLine config {| x := px; y := py |} a None ;;
  ret {| seed_angle := a; lines := [root] |}.

(** Line 64: [line.angle + Math.PI/2 * (rnd() < 0.5 ? 1 : -1)]. *)
Definition newAngle (line : Line) (u : Q) : Q :=
  (angle line + Math_PI / 2 * (if Qltb u (1 # 2) then 1 else -1))%Q.

(** Lines 62-69: the split.  The flag is cleared, the coin is drawn, the
    child is built at the parent's tip and pushed on the seed's lines. *)
Definition splitLine (r : LineRef) (line : Line) : State Model unit :=
  modify (fun m => set_forest (updateLine r (set_split false) (forest m)) m) ;;;
  u <- draw 1 0 ;;
  child <- buildLine config {| x := x (p1 line); y := y (p1 line) |}
             (newAngle line u) (Some (r, set_split false line)) ;;
  modify (fun m => set_forest (pushLine r.1 child (forest m)) m).

(** The child a split in state [m] builds: it starts at the parent's tip. *)
Definition splitChild (r : LineRef) (line : Line) (m : Model) : Line :=
  fst (buildLine config {| x := x (p1 line); y := y (p1 line) |}
         (newAngle line (fst (rnd 1 0 (rng_state m))))
         (Some (r, set_split false line))
         (set_rng (after_draws 1 (rng_state m)) m)).

(** Lines 52-53 and 58-59: [line.active = false; activeLineCount--]. *)
Definition deactivate (r : LineRef) (m : Model) : Model :=
  set_count (activeLineCount m - 1)
            (set_forest (updateLine r (set_active false) (forest m)) m).

(** Lines 50-69: the body of the loop of [seed.grow()], for the line of
    identity [r]. *)
Definition growLine (r : LineRef) (m : Model) : Model :=
  match lookupLine r (forest m) with
  | None => m
  | Some line0 =>
      let (line, s') := line_grow config line0 (rng_state m) in
      let m := set_rng s' (set_forest (updateLine r (fun _ => line) (forest m)) m) in
      if expired line then deactivate r m
      else if detect r line (forEachLineUntilTrue m) then
        deactivate r (set_forest (updateLine r clip (forest m)) m)
      else if split line then snd (splitLine r line m)
      else m
  end.

(** Lines 48-71: [seed.grow()] for the seed of index [si]. *)
Definition seed_grow (si : nat) (m : Model) : Model :=
  match forest m !! si with
  | None => m
  | Some seed => forEach (fun li => growLine (si, li)) (activeIndices (lines seed)) m
  end.

(** Lines 76-78: [generate()].  [Array(n)] throws a [RangeError] unless [n]
    is an integer between 0 and 2^32 - 1. *)
Definition generate (m : Model) : Result Model :=
  if ((seedCount config <? 0) || (4294967295 <? seedCount config))%Z then inl RangeError
  else
    let (ss, m') := repeatM (Z.to_nat (seedCount config)) buildSeed m in
    inr (set_forest ss m').

(** Lines 79-81: [grow()].  Before [generate], [seeds] is [undefined] and
    [seeds.forEach] throws a [TypeError]. *)
Definition model_grow (m : Model) : Result Model :=
  match seeds m with
  | None => inl TypeError
  | Some ss => inr (forEach seed_grow (seq 0 (length ss)) m)
  end.

(** Lines 89-91. *)
Definition isActive (m : Model) : bool := (0 <? activeLineCount m)%Z.

End ModelOps.

(** A forest of one seed that holds [exampleRoot] and a branch from its
    tip. *)
Definition branchModel : Model (R := ScriptedSource) :=
  mkModel (R := ScriptedSource) [] 2
    (Some [{| seed_angle := 1; lines := [exampleRoot; exampleBranch 1] |}]).

(** * Part 2: theorems *)

(** ** The traversal *)

Lemma some_st_join {A St : Type} (f : A -> State St bool) (ls : list (list A)) (s : St) :
  some_st (some_st f) ls s = some_st f (mjoin ls) s.
Proof.
  revert s; induction ls as [|l ls IH]; intros s; [reflexivity |].
  cbn [some_st mjoin list_join]. rewrite some_st_app.
  destruct (some_st f l s) as [[|] s']; [reflexivity | apply IH].
Qed.

Section ModelFacts.
Context {R : RandomSource} {L : RandomSourceLaws R} {M : MathEnv} {C : Canvas}.
Context {D : CollisionDetector} (config : Config).
Implicit Types (m : Model) (r : LineRef) (l line : Line).

(** The traversal visits [allLines] in order. *)
Lemma forEachLineUntilTrue_enumerates m :
  enumerates (forEachLineUntilTrue config m) config (allLines (forest m)).
Proof.
  intros St fn s. unfold forEachLineUntilTrue, allLines.
  now rewrite <- some_st_join.
Qed.

(** ** The snapshot *)

Lemma elem_of_activeIndices (ls : list Line) (li : nat) :
  li ∈ activeIndices ls <-> exists l, ls !! li = Some l /\ active l = true.
Proof.
  unfold activeIndices. rewrite list_elem_of_filter, elem_of_seq. split.
  - intros [H _]. destruct (ls !! li) as [l|]; [| discriminate].
    exists l. split; [reflexivity | now inversion H].
  - intros (l & Hl & Ha). rewrite Hl. cbn. rewrite Ha. split; [reflexivity |].
    apply lookup_lt_Some in Hl. lia.
Qed.

Lemma NoDup_activeIndices (ls : list Line) : NoDup (activeIndices ls).
Proof. apply NoDup_filter, NoDup_seq. Qed.

Lemma activeIndices_nil (ls : list Line) :
  countActiveLines ls = 0%nat -> activeIndices ls = [].
Proof.
  intros H. apply elem_of_nil_inv. intros li Hli.
  apply elem_of_activeIndices in Hli as (l & Hl & Ha).
  rewrite (proj1 (countActiveLines_0_iff ls) H li l Hl) in Ha. discriminate.
Qed.

(** ** The steps in closed form *)

Lemma splitLine_eq r line m :
  snd (splitLine config r line m) =
  mkModel (after_draws 4 (rng_state m)) (activeLineCount m + 1)
    (Some (pushLine r.1 (splitChild config r line m)
             (updateLine r (set_split false) (forest m)))).
Proof.
  unfold splitLine, splitChild. unfold bind at 1. unfold modify at 1.
  rewrite bind_draw. unfold bind, modify.
  rewrite !buildLine_eq. cbn -[after_draws line_grow pushLine updateLine].
  rewrite <- !after_draws_add. reflexivity.
Qed.

Lemma growLine_eq r m l0 :
  lookupLine r (forest m) = Some l0 ->
  growLine config r m =
  (let line := fst (line_grow config l0 (rng_state m)) in
   let m1 := set_rng (after_draws 2 (rng_state m))
               (set_forest (updateLine r (fun _ => line) (forest m)) m) in
   if expired line then deactivate r m1
   else if detect r line (forEachLineUntilTrue config m1)
        then deactivate r (set_forest (updateLine r clip (forest m1)) m1)
   else if split line then snd (splitLine config r line m1)
   else m1).
Proof.
  intros H. unfold growLine. rewrite H.
  rewrite (surjective_pairing (line_grow config l0 (rng_state m))), line_grow_state.
  reflexivity.
Qed.

(** ** [buildSeed] and [generate] *)

Lemma buildSeed_eq m :
  buildSeed config m =
  (let a := fst (rnd 0 (Math_PI * 2) (rng_state m)) in
   let px := fst (rnd 0 canvas_width (after_draws 1 (rng_state m))) in
   let py := fst (rnd 0 canvas_height (after_draws 2 (rng_state m))) in
   {| seed_angle := a;
      lines := [fst (buildLine config {| x := px; y := py |} a None
                       (set_rng (after_draws 3 (rng_state m)) m))] |},
   mkModel (after_draws 6 (rng_state m)) (activeLineCount m + 1) (seeds m)).
Proof.
  unfold buildSeed. rewrite !bind_draw. unfold bind, ret.
  cbn -[after_draws buildLine]. rewrite <- !after_draws_add. cbn [Nat.add].
  rewrite !buildLine_eq. cbn -[after_draws line_grow].
  rewrite <- !after_draws_add. reflexivity.
Qed.

Lemma buildSeed_fresh m : fresh_seed (fst (buildSeed config m)).
Proof.
  rewrite buildSeed_eq. cbn -[after_draws buildLine].
  match goal with |- context [buildLine config ?p ?a ?par ?m0] =>
    pose proof (buildLine_post config p a par m0) as H;
    destruct (buildLine config p a par m0) as [root m'] end.
  destruct H as (_ & Ha & Hact & Hs & Hg & Hp & _ & _ & _ & Htip).
  exists root. cbn. auto 10.
Qed.

(** [n] seeds built in a row: [n] fresh seeds, [n] more active lines, six
    draws each, [seeds] not touched. *)
Lemma repeatM_buildSeed (n : nat) m :
  let (ss, m') := repeatM n (buildSeed config) m in
  length ss = n /\ Forall fresh_seed ss /\
  activeLineCount m' = (activeLineCount m + Z.of_nat n)%Z /\
  seeds m' = seeds m /\ rng_state m' = after_draws (6 * n) (rng_state m).
Proof.
  revert m. induction n as [|n IH]; intros m.
  - cbn. rewrite Z.add_0_r. auto.
  - cbn [repeatM]. pose proof (buildSeed_fresh m) as Hf.
    rewrite buildSeed_eq in Hf |- *. cbv zeta in Hf |- *. cbn [fst] in Hf.
    match goal with |- context [repeatM n _ ?m1] =>
      specialize (IH m1); destruct (repeatM n (buildSeed config) m1) as [ss m'] end.
    destruct IH as (Hlen & Hall & Hc & Hs & Hr). cbn [rng_state activeLineCount seeds] in *.
    split; [cbn; congruence |]. split; [now constructor |].
    split; [lia |]. split; [assumption |].
    rewrite Hr, <- after_draws_add. f_equal. lia.
Qed.

(** The lines of a forest of fresh seeds are their roots. *)
Lemma fresh_seed_lookup (ss : list Seed) r l :
  Forall fresh_seed ss -> lookupLine r ss = Some l ->
  r.2 = 0%nat /\ active l = true /\ steps l = 1%nat /\ generation l = 0%nat /\
  parent l = None /\ p1 l = tip_forward (set_p1 (p0 l) l).
Proof.
  intros Hall Hl. unfold lookupLine in Hl.
  destruct (ss !! r.1) as [s|] eqn:Hs; [| discriminate].
  destruct (proj1 (Forall_lookup _ _) Hall _ _ Hs) as (root & Hr & Hrest).
  rewrite Hr in Hl. destruct (r.2) as [|n]; [| destruct n; discriminate].
  inversion Hl; subst l. tauto.
Qed.

Lemma countActive_fresh (ss : list Seed) :
  Forall fresh_seed ss -> countActive ss = length ss.
Proof.
  induction 1 as [|s ss (root & Hl & Ha & _) _ IH]; [reflexivity |].
  rewrite countActive_cons, Hl, countActiveLines_cons, Ha, IH. reflexivity.
Qed.

(** What a successful [generate] leaves: the seed count was a valid array
    length, the forest is that many fresh seeds, the counter grew by that
    many, and six draws per seed were consumed. *)
Lemma generate_inr m m' :
  generate config m = inr m' ->
  (0 <= seedCount config <= 4294967295)%Z /\
  exists ss, seeds m' = Some ss /\ Forall fresh_seed ss /\
             Z.of_nat (length ss) = seedCount config /\
             activeLineCount m' = (activeLineCount m + seedCount config)%Z /\
             rng_state m' = after_draws (6 * Z.to_nat (seedCount config)) (rng_state m).
Proof.
  unfold generate.
  destruct (Z.ltb_spec (seedCount config) 0); [discriminate |].
  destruct (Z.ltb_spec 4294967295 (seedCount config)); [discriminate |]. cbn [orb].
  pose proof (repeatM_buildSeed (Z.to_nat (seedCount config)) m) as H1.
  destruct (repeatM _ _ m) as [ss m1]. destruct H1 as (Hlen & Hall & Hc & _ & Hr).
  intros E. inversion E; subst m'. clear E. split; [lia |].
  exists ss. cbn. rewrite Hlen, Hc, Hr. repeat split; auto; lia.
Qed.

Lemma generate_valid m :
  (0 <= seedCount config <= 4294967295)%Z -> exists m', generate config m = inr m'.
Proof.
  intros [H1 H2]. unfold generate.
  destruct (Z.ltb_spec (seedCount config) 0); [lia |].
  destruct (Z.ltb_spec 4294967295 (seedCount config)); [lia |]. cbn [orb].
  destruct (repeatM _ _ m) as [ss m1]. eauto.
Qed.

Lemma growLine_None r m : lookupLine r (forest m) = None -> growLine config r m = m.
Proof. intros H. unfold growLine. now rewrite H. Qed.

(** ** The detector on the model's traversal *)

(** On the model's traversal the detector computes [collides] over all the
    lines of the forest. *)
Lemma checkForCollisions_forest m r1 line1 :
  checkForCollisions r1 line1 (forEachLineUntilTrue config m) =
  collides r1 line1 (allLines (forest m)).
Proof. apply (checkForCollisions_enumerates _ _ _ config), forEachLineUntilTrue_enumerates. Qed.

(** C5: on the model's traversal, [checkForCollisions] answers true exactly
    when the tip of the line is off the canvas or the segment of the line
    shares a point with the segment of some line of the forest that is
    neither the line itself, nor its parent, nor one of its children. *)
Theorem checkForCollisions_spec m r1 line1 :
  checkForCollisions r1 line1 (forEachLineUntilTrue config m) = true <->
  lineOffscreen line1 = true \/
  exists r2 l2, lookupLine r2 (forest m) = Some l2 /\ r2 <> r1 /\
                parent line1 <> Some r2 /\ parent l2 <> Some r1 /\
                segments_meet line1 l2.
Proof.
  rewrite checkForCollisions_forest, collides_true. apply or_iff_compat_l.
  split; intros (r2 & l2 & H & H1 & H2 & H3 & H4); exists r2, l2;
    (split; [now apply elem_of_allLines |]); (split; [assumption |]);
    (split; [assumption |]); (split; [assumption |]).
  - now apply linesIntersect_sound.
  - now apply linesIntersect_complete.
Qed.

(** C26: a line whose tip is on the canvas does not collide when the forest
    holds only the line itself, its parent and its children, whatever their
    geometry: a child that starts on its parent's tip is not stopped by it. *)
Theorem relatives_never_collide m r1 line1 :
  lineOffscreen line1 = false ->
  (forall r2 l2, lookupLine r2 (forest m) = Some l2 ->
                 r2 = r1 \/ parent line1 = Some r2 \/ parent l2 = Some r1) ->
  checkForCollisions r1 line1 (forEachLineUntilTrue config m) = false.
Proof.
  intros Hon Hrel. rewrite checkForCollisions_forest.
  apply not_true_is_false. intros Hc.
  apply collides_true in Hc as [Hoff | (r2 & l2 & Hl & H1 & H2 & H3 & _)].
  - congruence.
  - apply elem_of_allLines in Hl.
    destruct (Hrel r2 l2 Hl) as [? | [? | ?]]; contradiction.
Qed.

End ModelFacts.

Lemma relatives_never_collide_witness :
  checkForCollisions (C := RectCanvas 10 10) (0, 1)%nat (exampleBranch 1)
    (forEachLineUntilTrue exampleConfig branchModel) = false.
Proof.
  apply (@relatives_never_collide ScriptedSource (RectCanvas 10 10) exampleConfig
           branchModel (0, 1)%nat (exampleBranch 1)).
  - vm_compute. reflexivity.
  - intros [[|si] [|[|li]]] l2 H; vm_compute in H.
    + right. left. reflexivity.
    + left. reflexivity.
    + destruct li; discriminate.
    + destruct si; discriminate.
    + destruct si; discriminate.
    + destruct si; discriminate.
Defined.
