(* ===== verification/Invariants.v ===== *)
(** * Invariants: what a tick does and what every tick preserves

    The properties of the growth model of src/js/generator.js (lines 4-95).

    One tick: a line that is active when the tick starts takes exactly one
    step ([grown]); a line that is inactive is not changed; a line that is
    new at the end of the tick is a fresh child of a line that was active.
    The relation [advanced] states the three for a part of a tick and
    composes; [phase] adds the counter, [seeds] and the random source.

    Every state reached by [generate] followed by any number of [grow]s
    ([reachable]): [activeLineCount] is the number of active lines; the
    parent links form a tree in each seed ([links_ok], [rooted]); the tip of
    a line is as many steps from its origin as the line counts when the line
    is active or expired, and one fewer when it was stopped by a collision
    ([tips_ok]).

    The proofs share one lemma, [growLine_effect]: the body of the loop
    replaces the line it is run on by a grown line and appends at most one
    fresh child to its seed. *)

From Stdlib Require Import ZArith QArith Lia Lqa Bool.
From stdpp Require Import base list.
From S2P Require Import Prelude Random Config Forest Line Collision Model.

(** * Part 1: definitions *)

Section StepDefs.
Context {M : MathEnv}.

(** [l'] is [l] one call of the loop body later: the fields fixed at
    creation are the same, one more step is counted, and one of three things
    happened.  The line went on: it is not expired, its [active] flag is what
    it was and its tip moved one step forward.  Or it expired: it is inactive
    and its tip moved one step forward and stays there.  Or it collided: it
    is inactive without being expired and its tip moved one step forward and
    one step back. *)
Definition grown (l l' : Line) : Prop :=
  p0 l' = p0 l /\ angle l' = angle l /\ generation l' = generation l /\
  parent l' = parent l /\ rnd_tag l' = rnd_tag l /\ steps l' = S (steps l) /\
  (active l' = active l /\ expired l' = false /\ p1 l' = tip_forward l \/
   active l' = false /\ expired l' = true /\ p1 l' = tip_forward l \/
   active l' = false /\ expired l' = false /\
     p1 l' = tip_back (set_p1 (tip_forward l) l)).

(** A line as [buildLine] leaves it: active, one step long, its tip one step
    from its origin. *)
Definition born (c : Line) : Prop :=
  active c = true /\ steps c = 1%nat /\ p1 c = tip_forward (set_p1 (p0 c) c).

(** A child as [buildLine] leaves it, for the parent [l'] of identity [r]:
    it starts at the parent's tip, one generation below. *)
Definition fresh_child (r : LineRef) (l' c : Line) : Prop :=
  born c /\ parent c = Some r /\ generation c = S (generation l') /\ p0 c = p1 l'.

(** The forest after the loop body ran on the line [r]: that line replaced
    by [l'], and the child [ch], if any, pushed on the same seed. *)
Definition applyStep (r : LineRef) (l' : Line) (ch : option Line) (ss : list Seed)
    : list Seed :=
  let ss1 := updateLine r (fun _ => l') ss in
  match ch with
  | Some c => pushLine r.1 c ss1
  | None => ss1
  end.

(** How a line may change over any number of ticks. *)
Definition line_evolves (l l' : Line) : Prop :=
  p0 l' = p0 l /\ angle l' = angle l /\ generation l' = generation l /\
  parent l' = parent l /\ rnd_tag l' = rnd_tag l /\ (steps l <= steps l')%nat /\
  (active l = false -> l' = l).

(** The forest [ss'] extends [ss]: same seeds, every line of [ss] still
    there under the same identity, evolved. *)
Definition forest_extends (ss ss' : list Seed) : Prop :=
  length ss' = length ss /\
  forall r l, lookupLine r ss = Some l ->
              exists l', lookupLine r ss' = Some l' /\ line_evolves l l'.

(** One tick seen from the forest: exactly the lines in [P] took one step,
    every other line of [ss] is the same in [ss'], and every line that is new
    in [ss'] is a fresh child of a line in [P], in the same seed. *)
Definition advanced (P : LineRef -> Prop) (ss ss' : list Seed) : Prop :=
  length ss' = length ss /\
  (forall r l, lookupLine r ss = Some l ->
     (P r -> exists l', lookupLine r ss' = Some l' /\ grown l l') /\
     (~ P r -> lookupLine r ss' = Some l)) /\
  (forall r c, lookupLine r ss = None -> lookupLine r ss' = Some c ->
     exists pr lp, P pr /\ pr.1 = r.1 /\ lookupLine pr ss' = Some lp /\
                   active lp = true /\ fresh_child pr lp c).

(** The point [n] steps from the origin of [l] along its angle. *)
Definition tip_after (l : Line) (n : nat) : Point :=
  {| x := (x (p0 l) + inject_Z (Z.of_nat n) * (Math_sin (angle l) * growthRate))%Q;
     y := (y (p0 l) + inject_Z (Z.of_nat n) * (Math_cos (angle l) * growthRate))%Q |}.

(** Where the tip of a line is.  On a line that is active or expired: as
    many steps from the origin as the line counts.  On a line that is
    inactive without being expired, that is a line stopped by a collision:
    one step fewer (and it counts at least two steps). *)
Definition tip_ok (l : Line) : Prop :=
  (1 <= steps l)%nat /\
  ((active l = true \/ expired l = true) /\ p1 l ≡ tip_after l (steps l) \/
   active l = false /\ expired l = false /\ (2 <= steps l)%nat /\
     p1 l ≡ tip_after l (steps l - 1)).

Definition tips_ok (ss : list Seed) : Prop :=
  forall r l, lookupLine r ss = Some l -> tip_ok l.

End StepDefs.

(** The links of the line [l] of identity [r]: a line without a parent is
    the first of its seed and has generation 0; otherwise its parent is an
    earlier line of the same seed, one generation above. *)
Definition link_ok (ss : list Seed) (r : LineRef) (l : Line) : Prop :=
  match parent l with
  | None => r.2 = 0%nat /\ generation l = 0%nat
  | Some pr => pr.1 = r.1 /\ (pr.2 < r.2)%nat /\
               exists lp, lookupLine pr ss = Some lp /\ generation l = S (generation lp)
  end.

Definition links_ok (ss : list Seed) : Prop :=
  forall r l, lookupLine r ss = Some l -> link_ok ss r l.

(** Every seed has a first line. *)
Definition rooted (ss : list Seed) : Prop :=
  forall si s, ss !! si = Some s -> is_Some (lookupLine (si, 0%nat) ss).

Section InvariantDefs.
Context {R : RandomSource} {L : RandomSourceLaws R} {M : MathEnv} {C : Canvas}.
Context {D : CollisionDetector} (config : Config).

(** The counter agrees with the forest. *)
Definition count_ok (m : Model) : Prop :=
  activeLineCount m = Z.of_nat (countActive (forest m)).

(** A phase of a tick, from the model [m] to the model [m']: the forest
    advanced on [P], the counter stayed right if it was, [seeds] stayed
    defined, and the random source moved by some number of draws. *)
Definition phase (P : LineRef -> Prop) (m m' : Model) : Prop :=
  advanced P (forest m) (forest m') /\
  (count_ok m -> count_ok m') /\
  (is_Some (seeds m) -> is_Some (seeds m')) /\
  exists k, rng_state m' = after_draws k (rng_state m).

(** The lines of [ss] that are active. *)
Definition activeIn (ss : list Seed) (r : LineRef) : Prop :=
  exists l, lookupLine r ss = Some l /\ active l = true.

(** Any number of ticks. *)
Inductive ticks : Model -> Model -> Prop :=
| ticks_refl m : ticks m m
| ticks_step m m1 m2 : model_grow config m = inr m1 -> ticks m1 m2 -> ticks m m2.

(** Exactly [k] ticks. *)
Inductive nticks : nat -> Model -> Model -> Prop :=
| nticks_O m : nticks 0 m m
| nticks_S k m m1 m2 :
    model_grow config m = inr m1 -> nticks k m1 m2 -> nticks (S k) m m2.

(** The states of a model that is generated once and then grown. *)
Inductive reachable (s0 : rng) : Model -> Prop :=
| reach_generate m :
    generate config (initModel s0) = inr m -> reachable s0 m
| reach_grow m m' :
    reachable s0 m -> model_grow config m = inr m' -> reachable s0 m'.

End InvariantDefs.

(** ** The example runs

    Two seeds on a 10 x 10 canvas with the axis-aligned Math environment and
    a scripted random source: the first root starts at (1, 5) and grows
    along x, the second starts at (5, 1) and grows along y.  With
    [exampleScript] no line splits; the second root runs into the first at
    (5, 5) in the third tick and the first leaves the canvas in the ninth.
    With [splitScript] the first root splits in the first tick. *)

Definition generateScript : list Q :=
  [1 # 4; 1 # 10; 1 # 2; 0; 9 # 10; 9 # 10;
   0; 1 # 2; 1 # 10; 0; 9 # 10; 9 # 10]%Q.

Definition exampleScript : list Q := generateScript ++ repeat (9 # 10)%Q 60.

Definition splitScript : list Q :=
  generateScript ++ [1 # 4; 9 # 10; 1 # 4; 0; 9 # 10; 9 # 10]%Q ++ repeat (9 # 10)%Q 20.

Definition exampleCanvas : Canvas := RectCanvas 10 10.

(** A configuration whose seed count is not an array length. *)
Definition badConfig : Config := {|
  seedCount := -1; pBifurcation := 0; maxRectWidth := 0; rectBaseHue := 0;
  rectSaturation := 0; rectHueVariation := 0; rectAlpha := 0; rectLightness := 0;
  expiryThreshold := 0; lineDarkness := 0; pencilHorizontal := false;
  useGradients := false |}.

(** The model of a result, or [d] for an exception. *)
Definition modelOf {R : RandomSource} (d : Model) (r : Result Model) : Model :=
  match r with
  | inr m => m
  | inl _ => d
  end.

Definition exampleGenerate (m : Model (R := ScriptedSource)) : Result Model :=
  generate (R := ScriptedSource) (M := AxisMath) (C := exampleCanvas) exampleConfig m.

Definition exampleGrow (m : Model (R := ScriptedSource)) : Result Model :=
  model_grow (R := ScriptedSource) (M := AxisMath)
    (D := CanvasDetector (C := exampleCanvas)) exampleConfig m.

(** The example after [generate] and [n] ticks. *)
Definition exampleRun (script : list Q) (n : nat) : Model (R := ScriptedSource) :=
  Nat.iter n (fun m => modelOf m (exampleGrow m))
    (modelOf (initModel script) (exampleGenerate (initModel script))).

(** The line of identity [r] after [n] ticks ([exampleRoot] if there is
    none). *)
Definition exampleLine (script : list Q) (n : nat) (r : LineRef) : Line :=
  default exampleRoot (lookupLine r (forest (exampleRun script n))).

(** * Part 2: theorems *)

Section Evolution.

#[export] Instance line_evolves_preorder : PreOrder line_evolves.
Proof.
  split.
  - intros l. unfold line_evolves. auto 10.
  - intros l1 l2 l3 (A1 & A2 & A3 & A4 & A5 & A6 & A7) (B1 & B2 & B3 & B4 & B5 & B6 & B7).
    unfold line_evolves. repeat split; try congruence; [lia |].
    intros Hf. specialize (A7 Hf). subst l2. auto.
Qed.

#[export] Instance forest_extends_preorder : PreOrder forest_extends.
Proof.
  split.
  - intros ss. split; [reflexivity |]. intros r l H. exists l. split; [assumption | reflexivity].
  - intros s1 s2 s3 [Hl1 H1] [Hl2 H2]. split; [congruence |].
    intros r l H. destruct (H1 r l H) as (l2 & Hl & E1).
    destruct (H2 r l2 Hl) as (l3 & Hl' & E2). exists l3. split; [assumption |].
    etransitivity; eassumption.
Qed.

End Evolution.

Section ApplyStep.
Implicit Types (r : LineRef) (l c : Line) (ss : list Seed) (ch : option Line).

Lemma length_applyStep r l' ch ss : length (applyStep r l' ch ss) = length ss.
Proof.
  unfold applyStep. destruct ch; now rewrite ?length_pushLine, length_updateLine.
Qed.

Lemma lookupLine_applyStep_eq r l0 l' ch ss :
  lookupLine r ss = Some l0 -> lookupLine r (applyStep r l' ch ss) = Some l'.
Proof.
  intros H. assert (lookupLine r (updateLine r (fun _ => l') ss) = Some l') as H'
    by now rewrite lookupLine_updateLine_eq, H.
  unfold applyStep. destruct ch; [now apply lookupLine_pushLine_old | assumption].
Qed.

Lemma lookupLine_applyStep_ne r r2 l l' ch ss :
  r <> r2 -> lookupLine r2 ss = Some l -> lookupLine r2 (applyStep r l' ch ss) = Some l.
Proof.
  intros Hne H. assert (lookupLine r2 (updateLine r (fun _ => l') ss) = Some l) as H'
    by now rewrite lookupLine_updateLine_ne.
  unfold applyStep. destruct ch; [now apply lookupLine_pushLine_old | assumption].
Qed.

Lemma lookupLine_applyStep_new r r2 l0 l' ch ss c :
  lookupLine r ss = Some l0 -> lookupLine r2 ss = None ->
  lookupLine r2 (applyStep r l' ch ss) = Some c ->
  ch = Some c /\ r2.1 = r.1.
Proof.
  intros Hr H2 H. assert (r <> r2) as Hne by congruence.
  unfold applyStep in H. destruct ch as [c'|].
  - apply lookupLine_pushLine_inv in H as [H | (_ & E & ->)]; [| auto].
    rewrite lookupLine_updateLine_ne in H by assumption. congruence.
  - rewrite lookupLine_updateLine_ne in H by assumption. congruence.
Qed.

(** A line of the forest after the loop body is the stepped line, a line
    that was there and is untouched, or the child. *)
Lemma lookupLine_applyStep_inv r r2 l0 l' ch ss l2 :
  lookupLine r ss = Some l0 -> lookupLine r2 (applyStep r l' ch ss) = Some l2 ->
  r2 = r /\ l2 = l' \/
  r2 <> r /\ lookupLine r2 ss = Some l2 \/
  r2 <> r /\ lookupLine r2 ss = None /\ ch = Some l2.
Proof.
  intros Hr H. destruct (decide (r2 = r)) as [-> | Hne].
  - left. rewrite (lookupLine_applyStep_eq r l0 l' ch ss Hr) in H. inversion H; auto.
  - right. destruct (lookupLine r2 ss) as [l|] eqn:H2.
    + left. rewrite (lookupLine_applyStep_ne r r2 l l' ch ss) in H by auto.
      inversion H; auto.
    + right. destruct (lookupLine_applyStep_new r r2 l0 l' ch ss l2 Hr H2 H). auto.
Qed.

Lemma countActive_applyStep r l0 l' ch ss :
  lookupLine r ss = Some l0 ->
  (countActive (applyStep r l' ch ss) + Nat.b2n (active l0) =
   countActive ss + Nat.b2n (active l')
   + match ch with Some c => Nat.b2n (active c) | None => 0 end)%nat.
Proof.
  intros H. pose proof (countActive_updateLine r (fun _ => l') ss l0 H) as H1.
  unfold applyStep. destruct ch as [c|]; [| lia].
  rewrite countActive_pushLine_lt; [lia |].
  rewrite length_updateLine. eapply lookupLine_lt, H.
Qed.

End ApplyStep.

Section Advanced.
Context {M : MathEnv}.
Implicit Types (P Q : LineRef -> Prop) (r : LineRef) (ss : list Seed).

Lemma advanced_nothing ss : advanced (fun _ => False) ss ss.
Proof.
  split; [reflexivity |]. split.
  - intros r l H. split; [tauto | auto].
  - intros r c H H'. congruence.
Qed.

Lemma advanced_iff P Q ss ss' :
  (forall r, P r <-> Q r) -> advanced P ss ss' -> advanced Q ss ss'.
Proof.
  intros HPQ (Hlen & Hold & Hnew). split; [assumption |]. split.
  - intros r l H. destruct (Hold r l H) as [H1 H2]. rewrite <- HPQ. auto.
  - intros r c H H'. destruct (Hnew r c H H') as (pr & lp & HP & Hrest).
    exists pr, lp. rewrite <- HPQ. auto.
Qed.

(** One run of the loop body. *)
Lemma advanced_step r l0 l' ch ss :
  lookupLine r ss = Some l0 -> grown l0 l' ->
  (forall c, ch = Some c -> active l' = true /\ fresh_child r l' c) ->
  advanced (eq r) ss (applyStep r l' ch ss).
Proof.
  intros Hr Hg Hch. split; [apply length_applyStep |]. split.
  - intros r2 l H. split.
    + intros <-. exists l'. split; [eapply lookupLine_applyStep_eq, Hr | congruence].
    + intros Hne. now apply lookupLine_applyStep_ne.
  - intros r2 c H H'. destruct (lookupLine_applyStep_new _ _ _ _ _ _ _ Hr H H') as [-> E].
    destruct (Hch c eq_refl) as (Ha & Hfc).
    exists r, l'. rewrite (lookupLine_applyStep_eq _ _ _ _ _ Hr). auto 10.
Qed.

(** Two successive phases of a tick that step disjoint sets of lines, the
    second made of lines that were there before the first. *)
Lemma advanced_compose P Q ss ss' ss'' :
  (forall r, P r -> ~ Q r) ->
  (forall r, Q r -> is_Some (lookupLine r ss)) ->
  advanced P ss ss' -> advanced Q ss' ss'' ->
  advanced (fun r => P r \/ Q r) ss ss''.
Proof.
  intros Hdisj HQ (Hlen1 & Hold1 & Hnew1) (Hlen2 & Hold2 & Hnew2).
  split; [congruence |]. split.
  - intros r l H. destruct (Hold1 r l H) as [H1 H1']. split.
    + intros [HP | HQr].
      * destruct (H1 HP) as (l' & Hl' & Hg). exists l'. split; [| assumption].
        now apply (Hold2 r l' Hl'), Hdisj.
      * assert (~ P r) as HnP by (intros HP; exact (Hdisj r HP HQr)).
        now apply (Hold2 r l (H1' HnP)).
    + intros Hn. apply (Hold2 r l); [apply H1' |]; tauto.
  - intros r c H H''. destruct (lookupLine r ss') as [c'|] eqn:H'.
    + assert (~ Q r) as HnQ by (intros HQr; destruct (HQ r HQr); congruence).
      pose proof (proj2 (Hold2 r c' H') HnQ) as E. rewrite H'' in E. inversion E; subst c'.
      destruct (Hnew1 r c H H') as (pr & lp & HP & E1 & Hlp & Hrest).
      exists pr, lp. split; [now left |]. split; [assumption |].
      split; [| assumption]. now apply (Hold2 pr lp Hlp), Hdisj.
    + destruct (Hnew2 r c H' H'') as (pr & lp & HQr & Hrest).
      exists pr, lp. split; [now right | assumption].
Qed.

(** A phase leaves alone the seeds in which it steps no line: their lines
    are the same and none is added. *)
Lemma advanced_untouched P r ss ss' :
  advanced P ss ss' -> (forall pr, P pr -> pr.1 <> r.1) ->
  lookupLine r ss' = lookupLine r ss.
Proof.
  intros (_ & Hold & Hnew) HP. destruct (lookupLine r ss) as [l|] eqn:H.
  - apply (Hold r l H). intros HPr. now apply (HP r HPr).
  - destruct (lookupLine r ss') as [c|] eqn:H'; [| reflexivity].
    destruct (Hnew r c H H') as (pr & lp & HPr & E & _). now destruct (HP pr HPr).
Qed.

End Advanced.

Section Effects.
Context {R : RandomSource} {L : RandomSourceLaws R} {M : MathEnv} {C : Canvas}.
Context {D : CollisionDetector} (config : Config).
Implicit Types (m : Model) (r : LineRef) (l : Line) (ss : list Seed).

(** What [line.grow()] does to the fields [grown] speaks of. *)
Lemma line_grow_moved l s :
  let line := fst (line_grow config l s) in
  p0 line = p0 l /\ angle line = angle l /\ generation line = generation l /\
  parent line = parent l /\ rnd_tag line = rnd_tag l /\ steps line = S (steps l) /\
  active line = active l /\ p1 line = tip_forward l.
Proof.
  pose proof (line_grow_frame config l s) as (H1 & H2 & H3 & H4 & H5 & H6).
  pose proof (line_grow_steps config l s). pose proof (line_grow_p1 config l s).
  cbv zeta. auto 10.
Qed.

(** The line went on, with or without a split. *)
Lemma grown_stay b l s :
  let line := fst (line_grow config l s) in
  expired line = false -> grown l line /\ grown l (set_split b line).
Proof.
  destruct (line_grow_moved l s) as (H1 & H2 & H3 & H4 & H5 & H6 & H7 & H8).
  cbv zeta. intros He. unfold grown. cbn. auto 20.
Qed.

(** The expired branch: the line is deactivated where it is. *)
Lemma grown_expire l s :
  let line := fst (line_grow config l s) in
  expired line = true -> grown l (set_active false line).
Proof.
  destruct (line_grow_moved l s) as (H1 & H2 & H3 & H4 & H5 & H6 & H7 & H8).
  cbv zeta. intros He. unfold grown. cbn. auto 20.
Qed.

(** The collision branch: the line is retracted and deactivated. *)
Lemma grown_collide l s :
  let line := fst (line_grow config l s) in
  expired line = false -> grown l (set_active false (clip line)).
Proof.
  destruct (line_grow_moved l s) as (H1 & H2 & H3 & H4 & H5 & H6 & H7 & H8).
  cbv zeta. intros He. unfold grown. cbn.
  repeat (split; [assumption |]). right. right.
  split; [reflexivity |]. split; [assumption |].
  unfold tip_back. cbn. now rewrite H8, H2.
Qed.

Lemma point_eta (p : Point) : {| x := x p; y := y p |} = p.
Proof. now destruct p. Qed.

(** The child of a split is fresh. *)
Lemma splitChild_fresh r line m :
  fresh_child r (set_split false line) (splitChild config r line m).
Proof.
  unfold splitChild.
  match goal with |- context [buildLine config ?p ?a ?par ?m0] =>
    pose proof (buildLine_post config p a par m0) as H;
    destruct (buildLine config p a par m0) as [c m'] end.
  destruct H as (Hp & _ & Ha & Hs & Hg & Hpar & _ & _ & _ & Htip).
  unfold fresh_child, born. cbn [fst]. split; [auto |].
  rewrite Hp, Hg, Hpar, point_eta. cbn. repeat split; auto. lia.
Qed.

(** The loop body on any line, in normal form: the line is replaced by a
    grown line and at most one fresh child is appended.  [stopped] tells
    whether the line expired or collided; when it did not, the detector
    answered false on the line as it was after its step (it has the ends and
    the parent of the line that is left), over the forest in which that line
    had replaced the old one. *)
Lemma growLine_shape r m l0 :
  lookupLine r (forest m) = Some l0 ->
  exists l' ch (stopped : bool),
    seeds (growLine config r m) = Some (applyStep r l' ch (forest m)) /\
    grown l0 l' /\
    active l' = active l0 && negb stopped /\
    activeLineCount (growLine config r m) =
      (activeLineCount m - (if stopped then 1 else 0)
       + match ch with Some _ => 1 | None => 0 end)%Z /\
    (stopped = false -> exists line m1,
       forest m1 = updateLine r (fun _ => line) (forest m) /\
       p0 line = p0 l' /\ p1 line = p1 l' /\ parent line = parent l' /\
       detect r line (forEachLineUntilTrue config m1) = false) /\
    (forall c, ch = Some c ->
       stopped = false /\ fresh_child r l' c /\
       Qltb (fst (rnd 1 0 (rng_state m))) (pBifurcation config) = true) /\
    exists k, rng_state (growLine config r m) = after_draws k (rng_state m).
Proof.
  intros Hl. rewrite (growLine_eq config r m l0 Hl). cbv zeta.
  pose proof (line_grow_split config l0 (rng_state m)) as Hsplit.
  pose proof (grown_expire l0 (rng_state m)) as Hge.
  pose proof (grown_collide l0 (rng_state m)) as Hgc.
  pose proof (grown_stay false l0 (rng_state m)) as Hgs.
  pose proof (line_grow_frame config l0 (rng_state m)) as (_ & _ & _ & _ & Hact & _).
  cbv zeta in Hact, Hge, Hgc, Hgs.
  set (line := fst (line_grow config l0 (rng_state m))) in *.
  destruct (expired line).
  { exists (set_active false line), None, true. unfold deactivate, applyStep. cbn.
    rewrite updateLine_compose, andb_false_r.
    split; [reflexivity |]. split; [auto |].
    split; [reflexivity |]. split; [lia |]. split; [discriminate |].
    split; [discriminate |]. now exists 2%nat. }
  destruct (Hgs eq_refl) as [Hg1 Hg2].
  destruct (detect _ _ _) eqn:Hd.
  { exists (set_active false (clip line)), None, true. unfold deactivate, applyStep. cbn.
    rewrite !updateLine_compose, andb_false_r.
    split; [reflexivity |]. split; [auto |].
    split; [reflexivity |]. split; [lia |]. split; [discriminate |].
    split; [discriminate |]. now exists 2%nat. }
  destruct (split line) eqn:Hsp.
  { rewrite splitLine_eq. eexists (set_split false line), (Some _), false. unfold applyStep. cbn.
    rewrite updateLine_compose, andb_true_r.
    split; [reflexivity |]. split; [assumption |].
    split; [assumption |]. split; [lia |]. split; [intros _; now refine (ex_intro _ line (ex_intro _ _ (conj _ (conj _ (conj _ (conj _ Hd)))))) |]. split.
    - intros c Hc. inversion Hc; subst. split; [reflexivity |].
      split; [apply splitChild_fresh | congruence].
    - now exists 6%nat. }
  exists line, None, false. unfold applyStep. cbn. rewrite andb_true_r.
  split; [reflexivity |]. split; [assumption |]. split; [assumption |].
  split; [lia |]. split; [intros _; now refine (ex_intro _ line (ex_intro _ _ (conj _ (conj _ (conj _ (conj _ Hd)))))) |]. split; [discriminate |]. now exists 2%nat.
Qed.

(** [expired] is never cleared: on a line that is already expired (a child
    can leave [buildLine] so) the loop body takes the step, asks nothing of
    the detector and stops the line where it is. *)
Lemma growLine_expired_line r m l0 :
  lookupLine r (forest m) = Some l0 -> expired l0 = true ->
  exists l', lookupLine r (forest (growLine config r m)) = Some l' /\
             active l' = false /\ expired l' = true /\ p1 l' = tip_forward l0 /\
             rng_state (growLine config r m) = after_draws 2 (rng_state m).
Proof.
  intros Hl He. rewrite (growLine_eq config r m l0 Hl). cbv zeta.
  pose proof (line_grow_expired_mono config l0 (rng_state m) He) as He'.
  pose proof (line_grow_p1 config l0 (rng_state m)) as Hp.
  set (line := fst (line_grow config l0 (rng_state m))) in *. rewrite He'.
  exists (set_active false line). unfold deactivate. cbn.
  rewrite updateLine_compose, lookupLine_updateLine_eq, Hl. auto.
Qed.

(** The effect of the loop body on an active line: the line is replaced by
    a grown line, at most one fresh child is appended, and the counter
    follows. *)
Lemma growLine_effect r m l0 :
  lookupLine r (forest m) = Some l0 -> active l0 = true ->
  exists l' ch,
    seeds (growLine config r m) = Some (applyStep r l' ch (forest m)) /\
    grown l0 l' /\
    activeLineCount (growLine config r m) =
      (activeLineCount m - (if active l' then 0 else 1)
       + match ch with Some _ => 1 | None => 0 end)%Z /\
    (forall c, ch = Some c -> active l' = true /\ fresh_child r l' c) /\
    exists k, rng_state (growLine config r m) = after_draws k (rng_state m).
Proof.
  intros Hl Ha.
  destruct (growLine_shape r m l0 Hl) as (l' & ch & st & Hs & Hg & Hal & Hc & _ & Hch & Hk).
  rewrite Ha in Hal. cbn in Hal. exists l', ch.
  split; [assumption |]. split; [assumption |].
  split; [rewrite Hal, Hc; now destruct st |]. split; [| assumption].
  intros c E. destruct (Hch c E) as (-> & Hf & _). auto.
Qed.

End Effects.

Section Phases.
Context {R : RandomSource} {L : RandomSourceLaws R} {M : MathEnv} {C : Canvas}.
Context {D : CollisionDetector} (config : Config).
Implicit Types (m : Model) (r : LineRef) (l : Line) (P Q : LineRef -> Prop).

Lemma phase_nothing m : phase (fun _ => False) m m.
Proof.
  split; [apply advanced_nothing |]. split; [auto |]. split; [auto |]. now exists 0%nat.
Qed.

Lemma phase_iff P Q m m' : (forall r, P r <-> Q r) -> phase P m m' -> phase Q m m'.
Proof. intros H (HA & Hrest). split; [eapply advanced_iff; eauto | assumption]. Qed.

Lemma phase_compose P Q m m' m'' :
  (forall r, P r -> ~ Q r) ->
  (forall r, Q r -> is_Some (lookupLine r (forest m))) ->
  phase P m m' -> phase Q m' m'' -> phase (fun r => P r \/ Q r) m m''.
Proof.
  intros Hd HQ (A1 & C1 & S1 & k1 & R1) (A2 & C2 & S2 & k2 & R2).
  split; [eapply advanced_compose; eauto |]. split; [auto |]. split; [auto |].
  exists (k1 + k2)%nat. now rewrite after_draws_add, <- R1.
Qed.

(** The loop body on an active line is a phase that steps that line. *)
Lemma growLine_phase r m l0 :
  lookupLine r (forest m) = Some l0 -> active l0 = true ->
  phase (eq r) m (growLine config r m).
Proof.
  intros Hl Ha.
  destruct (growLine_effect config r m l0 Hl Ha) as (l' & ch & Hs & Hg & Hc & Hch & Hk).
  assert (forest (growLine config r m) = applyStep r l' ch (forest m)) as Hf
    by (unfold forest at 1; now rewrite Hs).
  split; [rewrite Hf; eapply advanced_step; eauto |].
  split; [| split; [intros _; rewrite Hs; eauto | exact Hk]].
  unfold count_ok. rewrite Hf, Hc. intros ->.
  pose proof (countActive_applyStep r l0 l' ch (forest m) Hl) as Hn.
  rewrite Ha in Hn. destruct ch as [c|].
  - destruct (Hch c eq_refl) as (Hal & (Hac & _) & _). rewrite Hal, Hac in *. cbn in *. lia.
  - destruct (active l'); cbn in *; lia.
Qed.

(** The loop of [seed.grow()] over a list of distinct indices of active
    lines steps exactly those lines. *)
Lemma seed_loop_phase (si : nat) (idxs : list nat) m :
  NoDup idxs ->
  (forall li, li ∈ idxs -> activeIn (forest m) (si, li)) ->
  phase (fun r => r.1 = si /\ r.2 ∈ idxs) m
        (forEach (fun li => growLine config (si, li)) idxs m).
Proof.
  revert m. induction idxs as [|i idxs IH]; intros m Hnd Hact; cbn [forEach].
  - eapply phase_iff, phase_nothing. intros r. rewrite elem_of_nil. tauto.
  - apply NoDup_cons in Hnd as [Hni Hnd].
    destruct (Hact i) as (l0 & Hl0 & Ha0); [left |].
    pose proof (growLine_phase (si, i) m l0 Hl0 Ha0) as H1.
    assert (forall li, li ∈ idxs -> activeIn (forest (growLine config (si, i) m)) (si, li)) as Hact'.
    { intros li Hli. destruct (Hact li) as (l & Hl & Ha); [now right |].
      exists l. split; [| assumption].
      apply (proj1 (proj2 (proj1 H1)) (si, li) l Hl). intros E. inversion E. congruence. }
    eapply phase_iff; [| eapply phase_compose; [| | exact H1 | exact (IH _ Hnd Hact')]].
    + intros [s l]. cbn. rewrite elem_of_cons. split.
      * intros [E | [-> H]]; [inversion E; auto | auto].
      * intros [-> [-> | H]]; auto.
    + intros r <-. cbn. tauto.
    + intros [s l] [E H]. cbn in *. subst s.
      destruct (Hact l) as (l1 & Hl1 & _); [now right | eauto].
Qed.

Lemma activeIn_seed m si seed r :
  forest m !! si = Some seed -> r.1 = si ->
  activeIn (forest m) r <-> r.2 ∈ activeIndices (lines seed).
Proof.
  intros Hs E. unfold activeIn, lookupLine. rewrite E, Hs.
  symmetry. apply elem_of_activeIndices.
Qed.

(** [seed.grow()] steps exactly the lines of the seed that are active when
    it starts. *)
Lemma seed_grow_phase si m :
  phase (fun r => r.1 = si /\ activeIn (forest m) r) m (seed_grow config si m).
Proof.
  unfold seed_grow. destruct (forest m !! si) as [seed|] eqn:Hs.
  - eapply phase_iff; [| apply seed_loop_phase; [apply NoDup_activeIndices |]].
    + intros r. split; intros [E H]; (split; [assumption |]);
        now apply (activeIn_seed m si seed r Hs E).
    + intros li Hli. now apply (activeIn_seed m si seed (si, li) Hs eq_refl).
  - eapply phase_iff, phase_nothing. intros r. split; [tauto |].
    intros [E (l & Hl & _)]. unfold lookupLine in Hl. rewrite E, Hs in Hl. discriminate.
Qed.

(** The loop of [model.grow()] over the seeds [a, a+1, ..., a+k-1], after
    the seeds below [a] were grown. *)
Lemma tick_loop_phase (k a : nat) (m0 m : Model) :
  phase (fun r => (r.1 < a)%nat /\ activeIn (forest m0) r) m0 m ->
  phase (fun r => (r.1 < a + k)%nat /\ activeIn (forest m0) r) m0
        (forEach (seed_grow config) (seq a k) m).
Proof.
  revert a m. induction k as [|k IH]; intros a m H; cbn [seq forEach].
  - now rewrite Nat.add_0_r.
  - replace (a + S k)%nat with (S a + k)%nat by lia. apply IH.
    assert (forall r, r.1 = a -> lookupLine r (forest m) = lookupLine r (forest m0)) as Hsame.
    { intros r E. apply (advanced_untouched _ r _ _ (proj1 H)). intros pr [Hlt _]. lia. }
    eapply phase_iff; [| eapply phase_compose; [| | exact H | apply (seed_grow_phase a m)]].
    + intros r. unfold activeIn. split.
      * intros [[Hlt Ha] | [E Ha]]; [split; [lia | assumption] |].
        rewrite (Hsame r E) in Ha. split; [lia | assumption].
      * intros [Hlt Ha]. destruct (decide (r.1 = a)) as [E | NE].
        -- right. rewrite (Hsame r E). auto.
        -- left. split; [lia | assumption].
    + intros r [Hlt _] [E _]. lia.
    + intros r [E (l & Hl & _)]. rewrite (Hsame r E) in Hl. eauto.
Qed.

(** One tick: the lines that are active when [model.grow()] starts, and only
    they, take one step. *)
Lemma model_grow_phase m m' :
  model_grow config m = inr m' -> phase (activeIn (forest m)) m m'.
Proof.
  unfold model_grow. destruct (seeds m) as [ss|] eqn:Hs; [| discriminate].
  intros E. inversion E; subst m'. clear E.
  eapply phase_iff; [| apply (tick_loop_phase (length ss) 0 m m)].
  - intros r. cbn. split; [tauto |]. intros Ha. split; [| assumption].
    destruct Ha as (l & Hl & _). apply lookupLine_lt in Hl.
    unfold forest in Hl. now rewrite Hs in Hl.
  - eapply phase_iff, phase_nothing. intros r. split; [tauto | lia].
Qed.

End Phases.

(** ** Tips and links *)

Section WellFormed.
Context {M : MathEnv}.
Implicit Types (r : LineRef) (l c : Line) (ss : list Seed).
Local Open Scope Q_scope.

Lemma inject_succ (n : nat) : inject_Z (Z.of_nat (S n)) == inject_Z (Z.of_nat n) + 1.
Proof. now rewrite Nat2Z.inj_succ, <- Z.add_1_r, inject_Z_plus. Qed.

(** A line as [buildLine] leaves it has its tip one step from its origin. *)
Lemma tip_ok_born c : born c -> tip_ok c.
Proof.
  intros (Ha & Hs & Hp). split; [lia |]. left. split; [now left |]. rewrite Hs, Hp.
  unfold tip_forward, tip_after. split; cbn; ring.
Qed.

(** A step of an active line keeps its tip where its step count says. *)
Lemma tip_ok_grown l l' : active l = true -> tip_ok l -> grown l l' -> tip_ok l'.
Proof.
  intros Ha [Hn [[_ [Hx Hy]] | (Hf & _)]] (H0 & Hang & _ & _ & _ & Hs & Hp); [| congruence].
  split; [lia |]. rewrite Hs. unfold tip_after in *. rewrite H0, Hang. cbn in Hx, Hy.
  destruct Hp as [(Hact & _ & ->) | [(_ & Hex & ->) | (Hf & Hex & ->)]].
  - left. split; [left; congruence |].
    unfold tip_forward. split; cbn; rewrite inject_succ, ?Hx, ?Hy; ring.
  - left. split; [now right |].
    unfold tip_forward. split; cbn; rewrite inject_succ, ?Hx, ?Hy; ring.
  - right. split; [assumption |]. split; [assumption |]. split; [lia |].
    replace (S (steps l) - 1)%nat with (steps l) by lia.
    unfold tip_back, tip_forward. split; cbn; rewrite ?Hx, ?Hy; ring.
Qed.

(** A tick keeps the tips right. *)
Lemma advanced_tips ss ss' :
  advanced (activeIn ss) ss ss' -> tips_ok ss -> tips_ok ss'.
Proof.
  intros (_ & Hold & Hnew) Hok r l' Hl'. destruct (lookupLine r ss) as [l|] eqn:Hl.
  - destruct (Hold r l Hl) as [H1 H2]. destruct (active l) eqn:Ha.
    + destruct H1 as (l2 & Hl2 & Hg); [now exists l |].
      rewrite Hl' in Hl2. inversion Hl2; subst l2. eapply tip_ok_grown; eauto.
    + rewrite H2 in Hl' by (intros (l2 & ? & ?); congruence).
      inversion Hl'; subst l'. eauto.
  - destruct (Hnew r l' Hl Hl') as (pr & lp & _ & _ & _ & _ & Hb & _).
    now apply tip_ok_born.
Qed.

(** A tick keeps the links right. *)
Lemma advanced_links ss ss' :
  advanced (activeIn ss) ss ss' -> forest_extends ss ss' -> links_ok ss -> links_ok ss'.
Proof.
  intros (_ & _ & Hnew) [_ Hext] Hok r l' Hl'. unfold link_ok.
  destruct (lookupLine r ss) as [l|] eqn:Hl.
  - destruct (Hext r l Hl) as (l2 & Hl2 & _ & _ & Hgen & Hpar & _).
    rewrite Hl' in Hl2. inversion Hl2; subst l2. rewrite Hpar, Hgen.
    specialize (Hok r l Hl). unfold link_ok in Hok.
    destruct (parent l) as [pr|]; [| assumption].
    destruct Hok as (E & Hlt & lp & Hlp & Hg). split; [assumption |]. split; [assumption |].
    destruct (Hext pr lp Hlp) as (lp' & Hlp' & _ & _ & Hgen' & _).
    exists lp'. split; [assumption | congruence].
  - destruct (Hnew r l' Hl Hl') as (pr & lp & (l0 & Hl0 & _) & E & Hlp & _ & _ & Hpar & Hg & _).
    rewrite Hpar. split; [assumption |]. split; [| eauto].
    destruct pr as [psi pli], r as [si li]. cbn in *. subst psi.
    apply (lookupLine_Some_None_lt si pli li ss l0); assumption.
Qed.

(** An extension of a forest keeps the seeds' first lines. *)
Lemma extends_rooted ss ss' : forest_extends ss ss' -> rooted ss -> rooted ss'.
Proof.
  intros [Hlen Hext] Hr si s' Hs'.
  destruct (lookup_lt_is_Some_2 ss si) as [s Hs];
    [rewrite <- Hlen; eapply lookup_lt_Some, Hs' |].
  destruct (Hr si s Hs) as [root Hroot].
  destruct (Hext _ _ Hroot) as (root' & H' & _). eauto.
Qed.

(** The generation of a line is at most its index in its seed. *)
Lemma generation_le_index ss :
  links_ok ss -> forall n r l, (r.2 <= n)%nat -> lookupLine r ss = Some l ->
  (generation l <= r.2)%nat.
Proof.
  intros Hok. induction n as [|n IH]; intros r l Hn Hl; specialize (Hok r l Hl) as Hk;
    unfold link_ok in Hk; destruct (parent l) as [pr|].
  - lia.
  - lia.
  - destruct Hk as (_ & Hlt & lp & Hlp & ->).
    assert (generation lp <= pr.2)%nat by (apply IH; [lia | assumption]). lia.
  - lia.
Qed.

End WellFormed.

(** ** The properties of a tick *)

Section Ticks.
Context {R : RandomSource} {L : RandomSourceLaws R} {M : MathEnv} {C : Canvas}.
Context {D : CollisionDetector} (config : Config).
Implicit Types (m : Model) (r : LineRef) (l : Line).

(** C2: one tick moves every line that was active when it started by exactly
    one step: the line is still there under the same identity, with the same
    origin, angle, generation, parent and tag and one more step counted, and
    one of three things happened to it.  It went on: it is active and not
    expired and its tip is one step further along its angle.  Or it expired:
    it is inactive and expired and its tip is one step further (it is not
    retracted).  Or it collided: it is inactive and not expired and its tip
    went one step further and one step back. *)
Theorem tick_steps_active_lines m m' r l :
  model_grow config m = inr m' ->
  lookupLine r (forest m) = Some l -> active l = true ->
  exists l', lookupLine r (forest m') = Some l' /\ grown l l'.
Proof.
  intros Hg Hl Ha. destruct (model_grow_phase config m m' Hg) as ((_ & Hold & _) & _).
  apply (Hold r l Hl). now exists l.
Qed.

(** C6: a line that is inactive when a tick starts is not changed by it: a
    stopped line stays stopped, at the same place, for ever. *)
Theorem tick_freezes_inactive_lines m m' r l :
  model_grow config m = inr m' ->
  lookupLine r (forest m) = Some l -> active l = false ->
  lookupLine r (forest m') = Some l.
Proof.
  intros Hg Hl Ha. destruct (model_grow_phase config m m' Hg) as ((_ & Hold & _) & _).
  apply (Hold r l Hl). intros (l2 & Hl2 & Ha2). congruence.
Qed.

(** C7: a line that appears during a tick is not grown again in that tick: at
    the end of the tick it is as [buildLine] left it (active, exactly one
    step, its tip one step from its origin), and its parent is a line of the
    same seed that was active when the tick started and still is, one
    generation above it, whose tip at the end of the tick is the origin of
    the new line. *)
Theorem tick_new_lines_are_fresh m m' r c :
  model_grow config m = inr m' ->
  lookupLine r (forest m) = None -> lookupLine r (forest m') = Some c ->
  born c /\
  exists pr lp, pr.1 = r.1 /\ activeIn (forest m) pr /\
                lookupLine pr (forest m') = Some lp /\ active lp = true /\
                parent c = Some pr /\ generation c = S (generation lp) /\
                p0 c = p1 lp.
Proof.
  intros Hg Hn Hc. destruct (model_grow_phase config m m' Hg) as ((_ & _ & Hnew) & _).
  destruct (Hnew r c Hn Hc) as (pr & lp & H1 & H2 & H3 & H4 & H5 & H6 & H7 & H8).
  split; [assumption |]. exists pr, lp. auto 10.
Qed.

(** C19: a tick keeps the counter right: if [activeLineCount] is the number
    of active lines before [model.grow()], it is after. *)
Theorem tick_preserves_count m m' :
  model_grow config m = inr m' -> count_ok m -> count_ok m'.
Proof. intros Hg. now destruct (model_grow_phase config m m' Hg) as (_ & H & _). Qed.

Lemma grown_evolves l l' : active l = true -> grown l l' -> line_evolves l l'.
Proof.
  intros Ha (H1 & H2 & H3 & H4 & H5 & H6 & _). unfold line_evolves.
  repeat split; try assumption; [lia | congruence].
Qed.

Lemma model_grow_extends m m' :
  model_grow config m = inr m' -> forest_extends (forest m) (forest m').
Proof.
  intros Hg. destruct (model_grow_phase config m m' Hg) as ((Hlen & Hold & _) & _).
  split; [assumption |]. intros r l Hl. destruct (Hold r l Hl) as [H1 H2].
  destruct (active l) eqn:Ha.
  - destruct H1 as (l' & Hl' & Hgr); [now exists l |].
    exists l'. split; [assumption | now apply grown_evolves].
  - exists l. split; [| reflexivity]. apply H2. intros (l2 & Hl2 & Ha2). congruence.
Qed.

(** C20: over any number of ticks the forest only grows: the number of seeds
    is fixed, every line stays under its identity with the origin, angle,
    generation, parent and tag it was created with, its step count never
    decreases, and once it is inactive it is never changed again (so it is
    never reactivated). *)
Theorem ticks_extend_forest m m' :
  ticks config m m' -> forest_extends (forest m) (forest m').
Proof.
  induction 1 as [m | m m1 m2 Hg _ IH]; [reflexivity |].
  etransitivity; [eapply model_grow_extends, Hg | exact IH].
Qed.

(** [seed.grow()] on a seed without active lines does nothing. *)
Lemma seed_grow_idle si m :
  countActive (forest m) = 0%nat -> seed_grow config si m = m.
Proof.
  intros H0. unfold seed_grow. destruct (forest m !! si) as [seed|] eqn:Hs; [| reflexivity].
  now rewrite (activeIndices_nil _ (countActive_0_seed _ _ _ H0 Hs)).
Qed.

(** C38: when [isActive()] is false in a state where the counter is right, a
    tick changes nothing at all: no line moves, no draw is consumed, the
    counter stays at zero.  The simulation has terminated for good. *)
Theorem inactive_model_is_quiescent m :
  count_ok m -> is_Some (seeds m) -> isActive m = false ->
  model_grow config m = inr m.
Proof.
  intros Hc [ss Hs] Hi. unfold model_grow. rewrite Hs. f_equal.
  assert (countActive (forest m) = 0%nat) as H0.
  { unfold isActive in Hi. apply Z.ltb_ge in Hi. unfold count_ok in Hc. lia. }
  apply (forEach_invariant (fun m' => m' = m)); [| reflexivity].
  intros si m' _ ->. now apply seed_grow_idle.
Qed.

(** C39: in a state where the counter is right, [isActive()] is true exactly
    when some line of the forest is active. *)
Theorem isActive_iff_active_line m :
  count_ok m -> (isActive m = true <-> exists r, activeIn (forest m) r).
Proof.
  intros Hc. unfold isActive, count_ok in *. rewrite Z.ltb_lt, Hc. split.
  - intros Hpos. destruct (countActive_pos (forest m)) as (r & l & H); [lia |].
    now exists r, l.
  - intros (r & l & Hl & Ha). enough (countActive (forest m) <> 0%nat) by lia.
    intros H0. rewrite (proj1 (countActive_0_iff _) H0 r l Hl) in Ha. discriminate.
Qed.

(** ** [generate], the errors and the reachable states *)

(** C35: with a seed count that is a valid array length, [generate()] on a
    new model succeeds: the forest has [seedCount] seeds, each with one
    active root of one step, generation 0 and no parent; [activeLineCount]
    is [seedCount] and is the number of active lines; six draws per seed
    were consumed. *)
Theorem generate_post (s : rng) :
  (0 <= seedCount config <= 4294967295)%Z ->
  exists m, generate config (initModel s) = inr m /\
    Z.of_nat (length (forest m)) = seedCount config /\
    Forall fresh_seed (forest m) /\
    activeLineCount m = seedCount config /\ count_ok m /\
    rng_state m = after_draws (6 * Z.to_nat (seedCount config)) s.
Proof.
  intros Hv. destruct (generate_valid config (initModel s) Hv) as [m Hg].
  exists m. split; [assumption |].
  destruct (generate_inr config _ _ Hg) as (_ & ss & Hs & Hall & Hlen & Hc & Hr).
  unfold count_ok. rewrite (forest_Some _ _ Hs), (countActive_fresh ss Hall).
  cbn in Hc. repeat split; auto; lia.
Qed.

(** C36: [generate()] adds the new seeds to [activeLineCount] without
    resetting it: after it the counter is its old value plus the number of
    active lines of the new forest, so the counter is right only if it was
    zero before. *)
Theorem generate_keeps_old_count m m' :
  generate config m = inr m' ->
  activeLineCount m' = (activeLineCount m + Z.of_nat (countActive (forest m')))%Z.
Proof.
  intros Hg. destruct (generate_inr config _ _ Hg) as (_ & ss & Hs & Hall & Hlen & Hc & _).
  rewrite (forest_Some _ _ Hs), (countActive_fresh ss Hall). lia.
Qed.

(** A seed count that is not a valid array length (negative, or above
    2^32 - 1) makes [generate()] throw a [RangeError], whatever the state. *)
Lemma generate_invalid_seedCount m :
  (seedCount config < 0 \/ 4294967295 < seedCount config)%Z ->
  generate config m = inl RangeError.
Proof.
  intros H. unfold generate.
  destruct (Z.ltb_spec (seedCount config) 0); [reflexivity |].
  destruct (Z.ltb_spec 4294967295 (seedCount config)); [reflexivity | lia].
Qed.

(** [grow()] throws a [TypeError] exactly when [seeds] is undefined,
    that is before [generate()]; otherwise it returns. *)
Lemma model_grow_error_iff m :
  (model_grow config m = inl TypeError <-> seeds m = None) /\
  (is_Some (seeds m) <-> exists m', model_grow config m = inr m').
Proof.
  unfold model_grow. destruct (seeds m) as [ss|]; split; split;
    try discriminate; try reflexivity; eauto.
  - intros [m' H]. discriminate.
  - intros [x H]. discriminate.
Qed.

(** C37: the exceptions of the growth model.  [generate()] throws a
    [RangeError] exactly when the seed count is not a valid array length
    (negative, or above 2^32 - 1), whatever the state, and succeeds
    otherwise; [grow()] throws a [TypeError] exactly when [seeds] is
    undefined, that is before [generate()], and succeeds otherwise. *)
Theorem model_error_paths m :
  (generate config m = inl RangeError <->
   (seedCount config < 0 \/ 4294967295 < seedCount config)%Z) /\
  ((exists m', generate config m = inr m') <-> (0 <= seedCount config <= 4294967295)%Z) /\
  (model_grow config m = inl TypeError <-> seeds m = None) /\
  ((exists m', model_grow config m = inr m') <-> is_Some (seeds m)).
Proof.
  split; [| split; [| split]].
  - split; [| apply generate_invalid_seedCount].
    intros E. destruct (Z.lt_ge_cases (seedCount config) 0) as [? | H0]; [lia |].
    destruct (Z.lt_ge_cases 4294967295 (seedCount config)) as [? | H1]; [lia |].
    destruct (generate_valid config m) as [m' E']; [lia | congruence].
  - split; [| apply generate_valid].
    intros [m' E]. now destruct (generate_inr config _ _ E).
  - apply model_grow_error_iff.
  - symmetry. apply model_grow_error_iff.
Qed.

(** The counter, [seeds] and the number of seeds in the reachable states. *)
Lemma reachable_count (s0 : rng) m :
  reachable config s0 m ->
  count_ok m /\ is_Some (seeds m) /\ Z.of_nat (length (forest m)) = seedCount config.
Proof.
  induction 1 as [m Hg | m m' _ (Hc & Hs & Hlen) Hg].
  - destruct (generate_inr config _ _ Hg) as (_ & ss & Hs & Hall & Hlen & Hc & _).
    unfold count_ok. rewrite (forest_Some _ _ Hs), (countActive_fresh ss Hall).
    cbn in Hc. split; [lia | eauto].
  - destruct (model_grow_phase config m m' Hg) as ((Hl & _) & Hc' & Hs' & _).
    split; [auto |]. split; [auto | congruence].
Qed.

(** C1: in every state reached by one [generate()] followed by any number of
    [grow()]s, [activeLineCount] is the number of active lines (so it is
    never negative), [seeds] is defined and the number of seeds is
    [seedCount]. *)
Theorem reachable_invariant (s0 : rng) m :
  reachable config s0 m ->
  count_ok m /\ (0 <= activeLineCount m)%Z /\ is_Some (seeds m) /\
  Z.of_nat (length (forest m)) = seedCount config.
Proof.
  intros Hr. destruct (reachable_count s0 m Hr) as (Hc & Hs & Hlen).
  split; [assumption |]. split; [| auto]. unfold count_ok in Hc. lia.
Qed.

(** ** Tips, links and step counts in the reachable states *)

(** What [generate] leaves is well formed. *)
Lemma generate_wf m m' :
  generate config m = inr m' ->
  tips_ok (forest m') /\ links_ok (forest m') /\ rooted (forest m').
Proof.
  intros Hg. destruct (generate_inr config _ _ Hg) as (_ & ss & Hs & Hall & _).
  rewrite (forest_Some _ _ Hs). split; [| split].
  - intros r l Hl. apply tip_ok_born.
    destruct (fresh_seed_lookup ss r l Hall Hl) as (_ & ? & ? & _ & _ & ?).
    repeat split; assumption.
  - intros r l Hl. destruct (fresh_seed_lookup ss r l Hall Hl) as (H0 & _ & _ & Hgen & Hpar & _).
    unfold link_ok. rewrite Hpar. auto.
  - intros si sd Hsi. destruct (proj1 (Forall_lookup _ _) Hall si sd Hsi) as (root & Hr & _).
    exists root. unfold lookupLine. cbn. now rewrite Hsi, Hr.
Qed.

(** A tick keeps the forest well formed. *)
Lemma model_grow_wf m m' :
  model_grow config m = inr m' ->
  tips_ok (forest m) /\ links_ok (forest m) /\ rooted (forest m) ->
  tips_ok (forest m') /\ links_ok (forest m') /\ rooted (forest m').
Proof.
  intros Hg (H1 & H2 & H3). pose proof (model_grow_extends m m' Hg) as Hext.
  destruct (model_grow_phase config m m' Hg) as (Hadv & _).
  split; [eapply advanced_tips; eauto |].
  split; [eapply advanced_links; eauto | eapply extends_rooted; eauto].
Qed.

Lemma reachable_wf (s0 : rng) m :
  reachable config s0 m ->
  tips_ok (forest m) /\ links_ok (forest m) /\ rooted (forest m).
Proof. induction 1; [eapply generate_wf | eapply model_grow_wf]; eauto. Qed.

(** C10: in every reachable state the tip of a line is where its step count
    and its flags say (up to the equality of rationals): a line of [n] steps
    that is active or expired has its tip [n] steps from its origin along its
    angle (expiry does not retract); a line that is inactive without being
    expired, that is a line stopped by a collision, has at least two steps
    and its tip [n - 1] steps from its origin (a collision retracts exactly
    one step).  Every line counts at least one step. *)
Theorem reachable_tips (s0 : rng) m r l :
  reachable config s0 m -> lookupLine r (forest m) = Some l ->
  tip_ok l /\ (active l = true -> p1 l ≡ tip_after l (steps l)).
Proof.
  intros Hr Hl. destruct (reachable_wf s0 m Hr) as (Ht & _).
  pose proof (Ht r l Hl) as Hok. split; [assumption |].
  intros Ha. destruct Hok as [_ [[_ H] | (Hf & _)]]; [assumption | congruence].
Qed.

(** C9: in every reachable state the parent links form a tree in each seed:
    the line's seed has a first line; a line has no parent exactly when it is
    the first of its seed, and then its generation is 0; otherwise its parent
    is an earlier line of the same seed, one generation above it; the
    generation of a line is at most its index. *)
Theorem reachable_links (s0 : rng) m r l :
  reachable config s0 m -> lookupLine r (forest m) = Some l ->
  link_ok (forest m) r l /\ (parent l = None <-> r.2 = 0%nat) /\
  (generation l <= r.2)%nat /\ is_Some (lookupLine (r.1, 0%nat) (forest m)).
Proof.
  intros Hr Hl. destruct (reachable_wf s0 m Hr) as (_ & Hk & Hroot).
  pose proof (Hk r l Hl) as Hok. split; [assumption |]. split; [| split].
  - unfold link_ok in Hok. destruct (parent l) as [pr|].
    + destruct Hok as (_ & Hlt & _). split; [discriminate | lia].
    + split; [intros _; apply Hok | reflexivity].
  - now apply (generation_le_index _ Hk r.2).
  - destruct (lookupLine_is_Some_seed r (forest m) l Hl) as (sd & Hsd & _).
    exact (Hroot _ _ Hsd).
Qed.

(** Over [k] ticks a line stays under its identity, and if it is active at
    the end it was active all along and took [k] steps. *)
Lemma nticks_line k m m' r l :
  nticks config k m m' -> lookupLine r (forest m) = Some l ->
  exists l', lookupLine r (forest m') = Some l' /\
             (active l' = true -> active l = true /\ steps l' = (steps l + k)%nat).
Proof.
  intros Hn. revert l. induction Hn as [m | k m m1 m2 Hg _ IH]; intros l Hl.
  - exists l. split; [assumption |]. intros Ha. split; [assumption | lia].
  - destruct (model_grow_phase config m m1 Hg) as ((_ & Hold & _) & _).
    destruct (Hold r l Hl) as [H1 H2]. destruct (active l) eqn:Ha.
    + destruct H1 as (l1 & Hl1 & Hgr); [now exists l |].
      destruct (IH l1 Hl1) as (l' & Hl' & Hs). exists l'. split; [assumption |].
      intros Ha'. destruct (Hs Ha') as [_ ->].
      destruct Hgr as (_ & _ & _ & _ & _ & -> & _). split; [reflexivity | lia].
    + destruct (IH l) as (l' & Hl' & Hs).
      { apply H2. intros (l2 & ? & ?). congruence. }
      exists l'. split; [assumption |]. intros Ha'. destruct (Hs Ha'). congruence.
Qed.

Lemma nticks_length k m m' :
  nticks config k m m' -> length (forest m') = length (forest m).
Proof.
  induction 1 as [m | k m m1 m2 Hg _ IH]; [reflexivity |].
  destruct (model_grow_phase config m m1 Hg) as ((Hlen & _) & _). congruence.
Qed.

Lemma nticks_reachable (s0 : rng) k m m' :
  reachable config s0 m -> nticks config k m m' -> reachable config s0 m'.
Proof. intros Hr Hn. induction Hn; [assumption |]. eauto using reach_grow. Qed.

(** C21: a line that is active after [k] ticks was active in each of them and
    took exactly [k] steps in them: its step count grew by [k]. *)
Theorem steps_count_ticks k m m' r l l' :
  nticks config k m m' ->
  lookupLine r (forest m) = Some l -> lookupLine r (forest m') = Some l' ->
  active l' = true -> active l = true /\ steps l' = (steps l + k)%nat.
Proof.
  intros Hn Hl Hl' Ha. destruct (nticks_line k m m' r l Hn Hl) as (l2 & Hl2 & Hs).
  rewrite Hl' in Hl2. inversion Hl2; subst l2. auto.
Qed.

(** C22: a root that is still active [k] ticks after [generate()] counts
    [k + 1] steps, the step of its construction included, and its tip is
    [k + 1] steps from its origin. *)
Theorem active_root_steps (s0 : rng) k m m' si l :
  generate config (initModel s0) = inr m -> nticks config k m m' ->
  lookupLine (si, 0%nat) (forest m') = Some l -> active l = true ->
  steps l = S k /\ p1 l ≡ tip_after l (S k).
Proof.
  intros Hg Hn Hl Ha.
  pose proof (reach_generate config s0 m Hg) as Hr0.
  pose proof (nticks_reachable s0 k m m' Hr0 Hn) as Hr.
  destruct (reachable_wf s0 m Hr0) as (_ & _ & Hroot).
  destruct (lookup_lt_is_Some_2 (forest m) si) as [sd Hsd].
  { rewrite <- (nticks_length k m m' Hn). now apply lookupLine_lt in Hl. }
  destruct (Hroot si sd Hsd) as [l0 Hl0].
  destruct (nticks_line k m m' (si, 0%nat) l0 Hn Hl0) as (l2 & Hl2 & Hs).
  rewrite Hl in Hl2. inversion Hl2; subst l2. destruct (Hs Ha) as [_ Hst].
  destruct (generate_inr config _ _ Hg) as (_ & ss & Hss & Hall & _).
  rewrite (forest_Some _ _ Hss) in Hl0.
  destruct (fresh_seed_lookup ss _ l0 Hall Hl0) as (_ & _ & H1 & _).
  assert (steps l = S k) as E by lia. split; [assumption |]. rewrite <- E.
  destruct (reachable_wf s0 m' Hr) as (Ht & _).
  destruct (Ht _ l Hl) as [_ [[_ H] | (Hf & _)]]; [assumption | congruence].
Qed.

End Ticks.

(** ** Witnesses on the example runs *)

Lemma tick_steps_active_lines_witness :
  exists l', lookupLine (0, 0)%nat (forest (exampleRun exampleScript 1)) = Some l' /\
             grown (M := AxisMath) (exampleLine exampleScript 0 (0, 0)%nat) l'.
Proof.
  apply (@tick_steps_active_lines ScriptedSource ScriptedLaws AxisMath
           (@CanvasDetector exampleCanvas) exampleConfig
           (exampleRun exampleScript 0) (exampleRun exampleScript 1) (0, 0)%nat);
    vm_compute; reflexivity.
Defined.

Lemma tick_freezes_inactive_lines_witness :
  lookupLine (1, 0)%nat (forest (exampleRun exampleScript 4)) =
  Some (exampleLine exampleScript 3 (1, 0)%nat).
Proof.
  apply (@tick_freezes_inactive_lines ScriptedSource ScriptedLaws AxisMath
           (@CanvasDetector exampleCanvas) exampleConfig
           (exampleRun exampleScript 3) (exampleRun exampleScript 4) (1, 0)%nat);
    vm_compute; reflexivity.
Defined.

Lemma tick_new_lines_are_fresh_witness :
  born (M := AxisMath) (exampleLine splitScript 1 (0, 1)%nat).
Proof.
  destruct (@tick_new_lines_are_fresh ScriptedSource ScriptedLaws AxisMath
           (@CanvasDetector exampleCanvas) exampleConfig
              (exampleRun splitScript 0) (exampleRun splitScript 1) (0, 1)%nat
              (exampleLine splitScript 1 (0, 1)%nat)) as (H1 & _);
    [vm_compute; reflexivity | vm_compute; reflexivity | vm_compute; reflexivity |].
  exact H1.
Defined.

Lemma tick_preserves_count_witness : count_ok (exampleRun splitScript 1).
Proof.
  apply (@tick_preserves_count ScriptedSource ScriptedLaws AxisMath
           (@CanvasDetector exampleCanvas) exampleConfig
           (exampleRun splitScript 0) (exampleRun splitScript 1));
    vm_compute; reflexivity.
Defined.

Lemma ticks_extend_forest_witness :
  forest_extends (forest (exampleRun exampleScript 0)) (forest (exampleRun exampleScript 2)).
Proof.
  apply (@ticks_extend_forest ScriptedSource ScriptedLaws AxisMath
           (@CanvasDetector exampleCanvas) exampleConfig).
  apply ticks_step with (exampleRun exampleScript 1); [vm_compute; reflexivity |].
  apply ticks_step with (exampleRun exampleScript 2); [vm_compute; reflexivity |].
  apply ticks_refl.
Defined.

Lemma inactive_model_is_quiescent_witness :
  exampleGrow (exampleRun exampleScript 9) = inr (exampleRun exampleScript 9).
Proof.
  apply (@inactive_model_is_quiescent ScriptedSource AxisMath
           (@CanvasDetector exampleCanvas) exampleConfig (exampleRun exampleScript 9)).
  - vm_compute; reflexivity.
  - vm_compute. eexists. reflexivity.
  - vm_compute; reflexivity.
Defined.

Lemma isActive_iff_active_line_witness :
  isActive (exampleRun exampleScript 0) = true <->
  exists r, activeIn (forest (exampleRun exampleScript 0)) r.
Proof.
  apply (@isActive_iff_active_line ScriptedSource (exampleRun exampleScript 0)).
  vm_compute; reflexivity.
Defined.

Lemma generate_post_witness :
  exists m, exampleGenerate (initModel exampleScript) = inr m /\
            Z.of_nat (length (forest m)) = 2%Z /\
            Forall (fresh_seed (M := AxisMath)) (forest m) /\
            activeLineCount m = 2%Z /\ count_ok m /\
            rng_state m = after_draws (R := ScriptedSource) 12 exampleScript.
Proof.
  apply (@generate_post ScriptedSource ScriptedLaws AxisMath exampleCanvas exampleConfig
           exampleScript).
  vm_compute. split; discriminate.
Defined.

Lemma generate_keeps_old_count_witness :
  activeLineCount (modelOf (exampleRun exampleScript 0)
                     (exampleGenerate (exampleRun exampleScript 0))) = (2 + Z.of_nat 2)%Z.
Proof.
  apply (@generate_keeps_old_count ScriptedSource ScriptedLaws AxisMath exampleCanvas
           exampleConfig (exampleRun exampleScript 0)).
  vm_compute; reflexivity.
Defined.

(** A child of generation 2 whose first [grow] draws 1/10 against an expiry
    probability of 2/10 leaves [buildLine] active and expired. *)
Example buildLine_born_expired :
  let c := fst (buildLine (R := ScriptedSource) (M := AxisMath) exampleConfig
                  (mkPoint 3 2) 1 (Some ((0, 1)%nat, exampleBranch 1))
                  (mkModel (R := ScriptedSource) [1 # 2; 9 # 10; 1 # 10]%Q 2 None)) in
  active c = true /\ expired c = true /\ generation c = 2%nat.
Proof. vm_compute. auto. Qed.

Example generate_invalid_seedCount_example :
  generate (R := ScriptedSource) (M := AxisMath) (C := exampleCanvas) badConfig
    (initModel (R := ScriptedSource) exampleScript) = inl RangeError.
Proof.
  apply (@generate_invalid_seedCount ScriptedSource AxisMath exampleCanvas badConfig
           (initModel (R := ScriptedSource) exampleScript)).
  left. reflexivity.
Qed.

Lemma reachable_invariant_witness :
  count_ok (exampleRun splitScript 1) /\ (0 <= activeLineCount (exampleRun splitScript 1))%Z /\
  is_Some (seeds (exampleRun splitScript 1)) /\
  Z.of_nat (length (forest (exampleRun splitScript 1))) = 2%Z.
Proof.
  apply (@reachable_invariant ScriptedSource ScriptedLaws AxisMath exampleCanvas
           (@CanvasDetector exampleCanvas) exampleConfig splitScript).
  apply reach_grow with (exampleRun splitScript 0); [| vm_compute; reflexivity].
  apply reach_generate. vm_compute; reflexivity.
Defined.

Lemma reachable_tips_witness :
  tip_ok (M := AxisMath) (exampleLine exampleScript 3 (1, 0)%nat) /\
  (active (exampleLine exampleScript 3 (1, 0)%nat) = true ->
   p1 (exampleLine exampleScript 3 (1, 0)%nat) ≡
   tip_after (M := AxisMath) (exampleLine exampleScript 3 (1, 0)%nat)
     (steps (exampleLine exampleScript 3 (1, 0)%nat))).
Proof.
  apply (@reachable_tips ScriptedSource ScriptedLaws AxisMath exampleCanvas
           (@CanvasDetector exampleCanvas) exampleConfig exampleScript
           (exampleRun exampleScript 3) (1, 0)%nat); [| vm_compute; reflexivity].
  apply reach_grow with (exampleRun exampleScript 2); [| vm_compute; reflexivity].
  apply reach_grow with (exampleRun exampleScript 1); [| vm_compute; reflexivity].
  apply reach_grow with (exampleRun exampleScript 0); [| vm_compute; reflexivity].
  apply reach_generate. vm_compute; reflexivity.
Defined.

Lemma reachable_links_witness :
  link_ok (forest (exampleRun splitScript 1)) (0, 1)%nat (exampleLine splitScript 1 (0, 1)%nat) /\
  (parent (exampleLine splitScript 1 (0, 1)%nat) = None <-> 1%nat = 0%nat) /\
  (generation (exampleLine splitScript 1 (0, 1)%nat) <= 1)%nat /\
  is_Some (lookupLine (0, 0)%nat (forest (exampleRun splitScript 1))).
Proof.
  apply (@reachable_links ScriptedSource ScriptedLaws AxisMath exampleCanvas
           (@CanvasDetector exampleCanvas) exampleConfig splitScript
           (exampleRun splitScript 1) (0, 1)%nat); [| vm_compute; reflexivity].
  apply reach_grow with (exampleRun splitScript 0); [| vm_compute; reflexivity].
  apply reach_generate. vm_compute; reflexivity.
Defined.

Lemma steps_count_ticks_witness :
  active (exampleLine exampleScript 0 (0, 0)%nat) = true /\
  steps (exampleLine exampleScript 2 (0, 0)%nat) =
  (steps (exampleLine exampleScript 0 (0, 0)%nat) + 2)%nat.
Proof.
  apply (@steps_count_ticks ScriptedSource ScriptedLaws AxisMath
           (@CanvasDetector exampleCanvas) exampleConfig 2
           (exampleRun exampleScript 0) (exampleRun exampleScript 2) (0, 0)%nat);
    [| vm_compute; reflexivity | vm_compute; reflexivity | vm_compute; reflexivity].
  apply nticks_S with (exampleRun exampleScript 1); [vm_compute; reflexivity |].
  apply nticks_S with (exampleRun exampleScript 2); [vm_compute; reflexivity |].
  apply nticks_O.
Defined.

Lemma active_root_steps_witness :
  steps (exampleLine exampleScript 2 (0, 0)%nat) = 3%nat /\
  p1 (exampleLine exampleScript 2 (0, 0)%nat) ≡
  tip_after (M := AxisMath) (exampleLine exampleScript 2 (0, 0)%nat) 3.
Proof.
  apply (@active_root_steps ScriptedSource ScriptedLaws AxisMath exampleCanvas
           (@CanvasDetector exampleCanvas) exampleConfig exampleScript 2
           (exampleRun exampleScript 0) (exampleRun exampleScript 2) 0%nat);
    [vm_compute; reflexivity | | vm_compute; reflexivity | vm_compute; reflexivity].
  apply nticks_S with (exampleRun exampleScript 1); [vm_compute; reflexivity |].
  apply nticks_S with (exampleRun exampleScript 2); [vm_compute; reflexivity |].
  apply nticks_O.
Defined.
