(* ===== verification/Lifetime.v ===== *)
(** * Lifetime: no line grows longer than the canvas

    A consequence of the invariants of the growth model of
    src/js/generator.js for the detector of [buildCollisionDetector]: a line
    stays active only while its tip is on the canvas, it starts on the canvas
    and it moves by unit steps along a fixed direction, so its number of
    steps is bounded by the diagonal of the canvas and it stops within that
    many ticks.  When no line ever splits ([pBifurcation] at most zero) the
    forest is made of the roots only, and the whole simulation terminates
    within that many ticks.

    The bound needs what the code takes for granted of its environment: the
    visible region lies within the rectangle of the canvas ([CanvasLaws]),
    and sine and cosine are those of one angle ([MathLaws]). *)

From Stdlib Require Import ZArith QArith Qround Lia Lqa Bool.
From stdpp Require Import base list.
From S2P Require Import Prelude Random Config Forest Line Collision Model Invariants.

Local Open Scope Q_scope.

(** * Part 1: definitions *)

(** What the bound assumes of [Math]: [sin^2 + cos^2 = 1]. *)
Class MathLaws (M : MathEnv) : Prop := {
  sin2_cos2 : forall a : Q, Math_sin a * Math_sin a + Math_cos a * Math_cos a == 1;
}.

(** What the bound assumes of the canvas: it is not empty and what is
    visible lies within its rectangle. *)
Class CanvasLaws (C : Canvas) : Prop := {
  canvas_width_pos : 0 < canvas_width;
  canvas_height_pos : 0 < canvas_height;
  isVisible_box : forall px py : Q,
    isVisible px py = true -> 0 <= px <= canvas_width /\ 0 <= py <= canvas_height;
}.

Section BoxDefs.
Context {C : Canvas}.

(** A point within the rectangle of the canvas. *)
Definition in_box (p : Point) : Prop :=
  0 <= x p <= canvas_width /\ 0 <= y p <= canvas_height.

(** A line that starts on the canvas and, if it is active after a tick of
    its own, has its tip on the canvas. *)
Definition boxed (l : Line) : Prop :=
  in_box (p0 l) /\ (active l = true -> (2 <= steps l)%nat -> in_box (p1 l)).

Definition forest_boxed (ss : list Seed) : Prop :=
  forall r l, lookupLine r ss = Some l -> boxed l.

End BoxDefs.

(** The forest [ss] has no line that [ss0] has not. *)
Definition within (ss0 ss : list Seed) : Prop :=
  forall r, is_Some (lookupLine r ss) -> is_Some (lookupLine r ss0).

(** The canvas of the small example: 2 x 2, so that a line stops within two
    ticks. *)
Definition tinyCanvas : Canvas := RectCanvas 2 2.

(** A configuration without bifurcation: two seeds, [pBifurcation] zero. *)
Definition noSplitConfig : Config := {|
  seedCount := 2; pBifurcation := 0; maxRectWidth := 10; rectBaseHue := 0;
  rectSaturation := 50; rectHueVariation := 10; rectAlpha := 1 # 2;
  rectLightness := 50; expiryThreshold := 1 # 10; lineDarkness := 1 # 2;
  pencilHorizontal := false; useGradients := false;
|}.

Definition tinyRun (n : nat) : Model (R := ScriptedSource) :=
  Nat.iter n
    (fun m => modelOf m (model_grow (R := ScriptedSource) (M := AxisMath)
                           (D := CanvasDetector (C := tinyCanvas)) noSplitConfig m))
    (modelOf (initModel exampleScript)
       (generate (R := ScriptedSource) (M := AxisMath) (C := tinyCanvas) noSplitConfig
          (initModel exampleScript))).

(** * Part 2: theorems *)

#[export] Instance AxisMathLaws : MathLaws AxisMath.
Proof.
  split. intros a. cbn. unfold quarter.
  assert (0 <= Qfloor a mod 4 < 4)%Z as H by (apply Z.mod_pos_bound; lia).
  destruct (Qfloor a mod 4)%Z as [|p|p]; [reflexivity | | lia].
  destruct p as [[|[]|]|[|[]|]|]; try reflexivity; lia.
Qed.

Lemma RectCanvasLaws (w h : Q) : 0 < w -> 0 < h -> CanvasLaws (RectCanvas w h).
Proof.
  intros Hw Hh. split; [exact Hw | exact Hh |]. intros px py. cbn.
  rewrite !andb_true_iff, !Qleb_le. tauto.
Qed.

#[export] Instance exampleCanvasLaws : CanvasLaws exampleCanvas.
Proof. apply RectCanvasLaws; reflexivity. Qed.

#[export] Instance tinyCanvasLaws : CanvasLaws tinyCanvas.
Proof. apply RectCanvasLaws; reflexivity. Qed.

Section Boxed.
Context {R : RandomSource} {L : RandomSourceLaws R} {M : MathEnv} {C : Canvas}.
Context {CL : CanvasLaws C} (config : Config).
Implicit Types (m : Model) (r : LineRef) (l : Line) (ss : list Seed).

(** When the detector of the canvas answers false the tip is on the
    canvas. *)
Lemma detect_false_in_box r l (T : Traversal) :
  detect (CollisionDetector := CanvasDetector) r l T = false -> in_box (p1 l).
Proof.
  cbn. unfold checkForCollisions, lineOffscreen.
  destruct (isVisible (x (p1 l)) (y (p1 l))) eqn:Hv; [| discriminate].
  intros _. now apply isVisible_box.
Qed.

(** The loop body keeps the forest boxed, on any line. *)
Lemma growLine_boxed r m :
  forest_boxed (forest m) ->
  forest_boxed (forest (growLine (D := CanvasDetector) config r m)).
Proof.
  intros Hb. destruct (lookupLine r (forest m)) as [l0|] eqn:Hl;
    [| now rewrite growLine_None].
  destruct (growLine_shape (D := CanvasDetector) config r m l0 Hl)
    as (l' & ch & st & Hs & Hg & Hal & _ & Hdet & Hch & _).
  rewrite (forest_Some _ _ Hs).
  assert (st = false -> in_box (p1 l')) as Hvis.
  { intros E. destruct (Hdet E) as (line & m1 & _ & _ & <- & _ & Hd). eapply detect_false_in_box, Hd. }
  intros r2 l2 H2. destruct (decide (r = r2)) as [<- | Hne].
  - rewrite (lookupLine_applyStep_eq r l0 l' ch _ Hl) in H2. inversion H2; subst l2.
    destruct Hg as (Hp0 & _). destruct (Hb r l0 Hl) as [Hb0 _]. split; [now rewrite Hp0 |].
    intros Ha _. apply Hvis. rewrite Ha in Hal. symmetry in Hal.
    apply andb_true_iff in Hal as [_ Hst]. now apply negb_true_iff in Hst.
  - destruct (lookupLine r2 (forest m)) as [l|] eqn:H2old.
    + rewrite (lookupLine_applyStep_ne r r2 l l' ch _ Hne H2old) in H2.
      inversion H2; subst l2. eauto.
    + destruct (lookupLine_applyStep_new r r2 l0 l' ch _ l2 Hl H2old H2) as [-> _].
      destruct (Hch l2 eq_refl) as (Hst & ((_ & Hsteps & _) & _ & _ & Hp0) & _).
      split; [rewrite Hp0; auto |]. intros _ H2s. lia.
Qed.

Lemma seed_grow_boxed si m :
  forest_boxed (forest m) -> forest_boxed (forest (seed_grow (D := CanvasDetector) config si m)).
Proof.
  unfold seed_grow. destruct (forest m !! si) as [seed|]; [| auto].
  apply (forEach_invariant (fun m' => forest_boxed (forest m'))).
  intros li m' _. apply growLine_boxed.
Qed.

(** A tick keeps the forest boxed. *)
Lemma model_grow_boxed m m' :
  model_grow (D := CanvasDetector) config m = inr m' ->
  forest_boxed (forest m) -> forest_boxed (forest m').
Proof.
  unfold model_grow. destruct (seeds m) as [ss|]; [| discriminate].
  intros E. inversion E; subst m'.
  apply (forEach_invariant (fun m' => forest_boxed (forest m'))).
  intros si m' _. apply seed_grow_boxed.
Qed.

(** The root of a new seed starts on the canvas. *)
Lemma buildSeed_boxed m :
  rng_ok (rng_state m) -> Forall boxed (lines (fst (buildSeed config m))).
Proof.
  intros Hs. rewrite buildSeed_eq. cbn -[after_draws buildLine].
  match goal with |- context [buildLine config ?p ?a ?par ?m0] =>
    pose proof (buildLine_post config p a par m0) as H;
    destruct (buildLine config p a par m0) as [root m'] end.
  destruct H as (Hp & _ & _ & Hst & _). cbn [fst].
  apply Forall_singleton. split.
  - rewrite Hp. split; cbn -[after_draws].
    + assert (0 <= fst (rnd 0 canvas_width (after_draws 1 (rng_state m))) < canvas_width) as H;
        [| lra].
      pose proof canvas_width_pos.
      apply rnd_in_range; [now apply after_draws_ok | lra | assumption].
    + assert (0 <= fst (rnd 0 canvas_height (after_draws 2 (rng_state m))) < canvas_height) as H;
        [| lra].
      pose proof canvas_height_pos.
      apply rnd_in_range; [now apply after_draws_ok | lra | assumption].
  - intros _ H2. lia.
Qed.

Lemma repeatM_boxed (n : nat) m :
  rng_ok (rng_state m) ->
  Forall (fun s => Forall boxed (lines s)) (fst (repeatM n (buildSeed config) m)).
Proof.
  revert m. induction n as [|n IH]; intros m Hs; [constructor |].
  cbn [repeatM]. pose proof (buildSeed_boxed m Hs) as Hb.
  rewrite buildSeed_eq in Hb |- *. cbv zeta in Hb |- *. cbn [fst] in Hb.
  match goal with |- context [repeatM n _ ?m1] =>
    specialize (IH m1); destruct (repeatM n (buildSeed config) m1) as [ss m'] end.
  cbn [fst] in *. constructor; [exact Hb |]. apply IH. cbn [rng_state].
  now apply after_draws_ok.
Qed.

(** [generate] leaves a boxed forest. *)
Lemma generate_boxed m m' :
  rng_ok (rng_state m) -> generate config m = inr m' -> forest_boxed (forest m').
Proof.
  intros Hs. unfold generate. destruct (_ || _)%bool; [discriminate |].
  pose proof (repeatM_boxed (Z.to_nat (seedCount config)) m Hs) as Hall.
  destruct (repeatM _ _ m) as [ss m1]. cbn [fst] in Hall.
  intros E. inversion E; subst m'. cbn. intros r l Hl.
  apply lookupLine_is_Some_seed in Hl as (sd & Hsd & Hli).
  pose proof (proj1 (Forall_lookup _ _) Hall _ _ Hsd) as Hlines.
  exact (proj1 (Forall_lookup _ _) Hlines _ _ Hli).
Qed.

Lemma reachable_boxed (s0 : rng) m :
  rng_ok s0 -> reachable (D := CanvasDetector) config s0 m -> forest_boxed (forest m).
Proof.
  intros Hs. induction 1 as [m Hg | m m' _ IH Hg].
  - eapply generate_boxed; [| exact Hg]. exact Hs.
  - eapply model_grow_boxed; eauto.
Qed.

End Boxed.

Section Bounds.
Context {R : RandomSource} {L : RandomSourceLaws R} {M : MathEnv} {ML : MathLaws M}.
Context {C : Canvas} {CL : CanvasLaws C} (config : Config).
Implicit Types (m : Model) (r : LineRef) (l : Line) (ss : list Seed).

(** A number between [-w] and [w] has a square of at most [w^2]. *)
Lemma square_le (a w : Q) : - w <= a <= w -> a * a <= w * w.
Proof. intros H. nra. Qed.

(** An active line whose origin and tip are on the canvas and whose tip is
    where its step count says counts at most as many steps as the diagonal
    of the canvas is long. *)
Lemma boxed_steps_bound l :
  tip_ok l -> boxed l -> active l = true -> (2 <= steps l)%nat ->
  inject_Z (Z.of_nat (steps l)) * inject_Z (Z.of_nat (steps l)) <=
  canvas_width * canvas_width + canvas_height * canvas_height.
Proof.
  intros [_ [[_ [Hx Hy]] | (Hf & _)]] [[Hx0 Hy0] Hb] Ha H2; [| congruence].
  destruct (Hb Ha H2) as [Hx1 Hy1]. cbn in Hx, Hy. unfold growthRate in *.
  pose proof (sin2_cos2 (angle l)) as Hsc.
  set (n := inject_Z (Z.of_nat (steps l))) in *.
  set (s := Math_sin (angle l)) in *. set (c := Math_cos (angle l)) in *.
  assert (x (p1 l) == x (p0 l) + n * s) as Hx' by (rewrite Hx; ring).
  assert (y (p1 l) == y (p0 l) + n * c) as Hy' by (rewrite Hy; ring).
  assert (n * n == (n * s) * (n * s) + (n * c) * (n * c)) as E.
  { transitivity (n * n * (s * s + c * c)); [rewrite Hsc; ring | ring]. }
  rewrite E.
  pose proof (square_le (n * s) canvas_width) as H1.
  pose proof (square_le (n * c) canvas_height) as H3.
  assert (- canvas_width <= n * s <= canvas_width) as B1 by lra.
  assert (- canvas_height <= n * c <= canvas_height) as B2 by lra.
  specialize (H1 B1). specialize (H3 B2). lra.
Qed.

(** C13: no active line is longer than the diagonal of the canvas: in every
    state reached from a good state of the generator, with the detector of
    the canvas, an active line that has been through a tick counts [n] steps
    with [n^2 <= width^2 + height^2]. *)
Theorem active_line_steps_bounded (s0 : rng) m r l :
  rng_ok s0 -> reachable (D := CanvasDetector) config s0 m ->
  lookupLine r (forest m) = Some l -> active l = true -> (2 <= steps l)%nat ->
  inject_Z (Z.of_nat (steps l)) * inject_Z (Z.of_nat (steps l)) <=
  canvas_width * canvas_width + canvas_height * canvas_height.
Proof.
  intros Hs Hr Hl Ha H2. apply boxed_steps_bound; try assumption.
  - destruct (reachable_wf config s0 m Hr) as (Ht & _). eauto.
  - eapply reachable_boxed; eauto.
Qed.

(** Every line stops within as many ticks as the diagonal of the canvas is
    long. *)
Lemma line_stops (s0 : rng) (k : nat) m m' r l :
  rng_ok s0 -> reachable (D := CanvasDetector) config s0 m ->
  nticks (D := CanvasDetector) config k m m' -> (1 <= k)%nat ->
  canvas_width * canvas_width + canvas_height * canvas_height <
    inject_Z (Z.of_nat (k + 1)) * inject_Z (Z.of_nat (k + 1)) ->
  lookupLine r (forest m) = Some l ->
  exists l', lookupLine r (forest m') = Some l' /\ active l' = false.
Proof.
  intros Hs Hr Hn Hk Hd Hl.
  destruct (nticks_line config k m m' r l Hn Hl) as (l' & Hl' & Hst).
  exists l'. split; [assumption |]. destruct (active l') eqn:Ha; [exfalso | reflexivity].
  destruct (Hst eq_refl) as [_ E].
  assert (1 <= steps l)%nat as H1.
  { destruct (reachable_wf config s0 m Hr) as (Ht & _). now destruct (Ht r l Hl). }
  pose proof (nticks_reachable config s0 k m m' Hr Hn) as Hr'.
  assert (inject_Z (Z.of_nat (steps l')) * inject_Z (Z.of_nat (steps l')) <=
          canvas_width * canvas_width + canvas_height * canvas_height) as Hb.
  { apply boxed_steps_bound; try assumption; [| eapply reachable_boxed; eauto | lia].
    destruct (reachable_wf config s0 m' Hr') as (Ht & _). eauto. }
  assert (inject_Z (Z.of_nat (k + 1)) <= inject_Z (Z.of_nat (steps l'))) as Hle
    by (rewrite <- Zle_Qle; lia).
  assert (0 <= inject_Z (Z.of_nat (k + 1))) as H0
    by (change 0 with (inject_Z 0); rewrite <- Zle_Qle; lia).
  nra.
Qed.

(** C11: every line stops within as many ticks as the diagonal of the canvas
    is long: [k >= 1] ticks after a reachable state, with
    [(k + 1)^2 > width^2 + height^2], every line of that state is still in
    the forest and is inactive. *)
Theorem line_lifetime_bounded (s0 : rng) (k : nat) m m' r l :
  rng_ok s0 -> reachable (D := CanvasDetector) config s0 m ->
  nticks (D := CanvasDetector) config k m m' -> (1 <= k)%nat ->
  canvas_width * canvas_width + canvas_height * canvas_height <
    inject_Z (Z.of_nat (k + 1)) * inject_Z (Z.of_nat (k + 1)) ->
  lookupLine r (forest m) = Some l ->
  exists l', lookupLine r (forest m') = Some l' /\ active l' = false.
Proof. apply line_stops. Qed.

End Bounds.

Section NoSplits.
Context {R : RandomSource} {L : RandomSourceLaws R} {M : MathEnv} {ML : MathLaws M}.
Context {C : Canvas} {CL : CanvasLaws C} (config : Config).
Context (no_split : pBifurcation config <= 0).
Implicit Types (m : Model) (r : LineRef) (l : Line) (ss : list Seed).

(** With [pBifurcation] at most zero the loop body adds no line. *)
Lemma growLine_no_new r m ss0 :
  rng_ok (rng_state m) /\ within ss0 (forest m) ->
  rng_ok (rng_state (growLine (D := CanvasDetector) config r m)) /\
  within ss0 (forest (growLine (D := CanvasDetector) config r m)).
Proof.
  intros [Hok Hw]. destruct (lookupLine r (forest m)) as [l0|] eqn:Hl;
    [| now rewrite growLine_None].
  destruct (growLine_shape (D := CanvasDetector) config r m l0 Hl)
    as (l' & ch & st & Hs & _ & _ & _ & _ & Hch & k & Hk).
  split; [rewrite Hk; now apply after_draws_ok |].
  rewrite (forest_Some _ _ Hs). intros r2 [l2 H2]. apply Hw.
  destruct (lookupLine r2 (forest m)) as [l|] eqn:H2old; [eauto | exfalso].
  destruct (lookupLine_applyStep_new r r2 l0 l' ch _ l2 Hl H2old H2) as [-> _].
  destruct (Hch l2 eq_refl) as (_ & _ & Hq). apply Qltb_lt in Hq.
  pose proof (rnd_unit _ Hok). lra.
Qed.

Lemma model_grow_no_new m m' ss0 :
  model_grow (D := CanvasDetector) config m = inr m' ->
  rng_ok (rng_state m) /\ within ss0 (forest m) ->
  rng_ok (rng_state m') /\ within ss0 (forest m').
Proof.
  unfold model_grow. destruct (seeds m) as [ss|]; [| discriminate].
  intros E. inversion E; subst m'.
  apply (forEach_invariant (fun m' => rng_ok (rng_state m') /\ within ss0 (forest m'))).
  intros si m1 _ H1. unfold seed_grow. destruct (forest m1 !! si); [| assumption].
  revert H1. apply (forEach_invariant (fun m' => rng_ok (rng_state m') /\ within ss0 (forest m'))).
  intros li m2 _. apply growLine_no_new.
Qed.

Lemma nticks_no_new k m m' :
  nticks (D := CanvasDetector) config k m m' -> rng_ok (rng_state m) ->
  rng_ok (rng_state m') /\ within (forest m) (forest m').
Proof.
  induction 1 as [m | k m m1 m2 Hg _ IH]; intros Hok.
  - split; [assumption |]. intros r H. exact H.
  - destruct (model_grow_no_new m m1 (forest m) Hg) as [Hok1 Hw1];
      [split; [assumption |]; intros r H; exact H |].
    destruct (IH Hok1) as [Hok2 Hw2]. split; [assumption |].
    intros r H. apply Hw1, Hw2, H.
Qed.

(** C12: without bifurcation the simulation terminates: with [pBifurcation]
    at most zero, [k >= 1] ticks after [generate()] with
    [(k + 1)^2 > width^2 + height^2], [isActive()] is false. *)
Theorem growth_terminates_without_splits (s0 : rng) (k : nat) m m' :
  rng_ok s0 -> generate config (initModel s0) = inr m ->
  nticks (D := CanvasDetector) config k m m' -> (1 <= k)%nat ->
  canvas_width * canvas_width + canvas_height * canvas_height <
    inject_Z (Z.of_nat (k + 1)) * inject_Z (Z.of_nat (k + 1)) ->
  isActive m' = false.
Proof.
  intros Hs Hg Hn Hk Hd.
  pose proof (reach_generate (D := CanvasDetector) config s0 m Hg) as Hr.
  pose proof (nticks_reachable config s0 k m m' Hr Hn) as Hr'.
  destruct (reachable_count config s0 m' Hr') as (Hc & _).
  assert (rng_ok (rng_state m)) as Hok.
  { destruct (generate_inr config _ _ Hg) as (_ & ss & _ & _ & _ & _ & ->).
    now apply after_draws_ok. }
  destruct (nticks_no_new k m m' Hn Hok) as [_ Hw].
  assert (countActive (forest m') = 0%nat) as H0.
  { apply countActive_0_iff. intros r l' Hl'.
    destruct (Hw r) as [l Hl]; [eauto |].
    destruct (line_stops config s0 k m m' r l Hs Hr Hn Hk Hd Hl) as (l2 & Hl2 & Ha).
    congruence. }
  unfold isActive. unfold count_ok in Hc. rewrite Hc, H0. reflexivity.
Qed.

End NoSplits.

Lemma active_line_steps_bounded_witness :
  inject_Z (Z.of_nat (steps (exampleLine exampleScript 2 (0, 0)%nat))) *
  inject_Z (Z.of_nat (steps (exampleLine exampleScript 2 (0, 0)%nat))) <=
  canvas_width (Canvas := exampleCanvas) * canvas_width (Canvas := exampleCanvas) +
  canvas_height (Canvas := exampleCanvas) * canvas_height (Canvas := exampleCanvas).
Proof.
  apply (@active_line_steps_bounded ScriptedSource ScriptedLaws AxisMath AxisMathLaws
           exampleCanvas exampleCanvasLaws exampleConfig exampleScript
           (exampleRun exampleScript 2) (0, 0)%nat);
    [vm_compute; repeat constructor; discriminate | | vm_compute; reflexivity
    | vm_compute; reflexivity | vm_compute; lia].
  apply reach_grow with (exampleRun exampleScript 1); [| vm_compute; reflexivity].
  apply reach_grow with (exampleRun exampleScript 0); [| vm_compute; reflexivity].
  apply reach_generate. vm_compute; reflexivity.
Defined.

Lemma line_lifetime_bounded_witness :
  exists l', lookupLine (0, 0)%nat (forest (tinyRun 2)) = Some l' /\ active l' = false.
Proof.
  apply (@line_lifetime_bounded ScriptedSource ScriptedLaws AxisMath AxisMathLaws
           tinyCanvas tinyCanvasLaws noSplitConfig exampleScript 2 (tinyRun 0) (tinyRun 2)
           (0, 0)%nat (default exampleRoot (lookupLine (0, 0)%nat (forest (tinyRun 0)))));
    [vm_compute; repeat constructor; discriminate | | | lia | reflexivity
    | vm_compute; reflexivity].
  - apply reach_generate. vm_compute; reflexivity.
  - apply nticks_S with (tinyRun 1); [vm_compute; reflexivity |].
    apply nticks_S with (tinyRun 2); [vm_compute; reflexivity |].
    apply nticks_O.
Defined.

Lemma growth_terminates_without_splits_witness :
  isActive (tinyRun 2) = false.
Proof.
  apply (@growth_terminates_without_splits ScriptedSource ScriptedLaws AxisMath AxisMathLaws
           tinyCanvas tinyCanvasLaws noSplitConfig ltac:(discriminate) exampleScript 2
           (tinyRun 0) (tinyRun 2));
    [vm_compute; repeat constructor; discriminate | vm_compute; reflexivity | | lia
    | reflexivity].
  apply nticks_S with (tinyRun 1); [vm_compute; reflexivity |].
  apply nticks_S with (tinyRun 2); [vm_compute; reflexivity |].
  apply nticks_O.
Defined.
