(* ===== verification/Safety.v ===== *)
(** * Safety: growth keeps clear of the lines that have stopped

    What the collision detector of src/js/generator.js (lines 113-179) buys
    the growth model (lines 48-71): a line that is still active at the end of
    a tick has its tip on the canvas, and its segment shares no point with
    the segment of any line that had already stopped when the tick began, its
    parent and its children excepted.

    The proof runs an invariant through the two loops of a tick.  It speaks
    of the lines that have taken their step of the tick (their step count is
    no longer what it was when the tick began): each of them that is active
    passed the detector, over a forest in which the stopped lines were what
    they are now.  The test of the detector is turned into a statement about
    points by the correctness of [linesIntersect]. *)

From Stdlib Require Import ZArith QArith Lia Bool.
From stdpp Require Import base list.
From S2P Require Import Prelude Random Config Forest Line Collision Geometry Model Invariants.

(** * Part 1: definitions *)

(** The lines [l], of identity [r], and [l2], of identity [r2], are two
    lines neither of which is the parent of the other: the pairs on which the
    detector runs [linesIntersect] (line 171). *)
Definition unrelated (r : LineRef) (l : Line) (r2 : LineRef) (l2 : Line) : Prop :=
  r2 <> r /\ parent l <> Some r2 /\ parent l2 <> Some r.

(** Since the tick began with the forest [F0], no line of the forest [F]
    has gone or lost a step. *)
Definition steps_kept (F0 F : list Seed) : Prop :=
  forall r l, lookupLine r F0 = Some l ->
    exists l', lookupLine r F = Some l' /\ (steps l <= steps l')%nat.

Section ClearDefs.
Context {C : Canvas}.

(** The line [l] of identity [r] passes the detector over the forest [F]:
    its tip is on the canvas and it intersects no line of [F] that is not
    related to it. *)
Definition clear_of (F : list Seed) (r : LineRef) (l : Line) : Prop :=
  lineOffscreen l = false /\
  forall r2 l2, lookupLine r2 F = Some l2 -> unrelated r l r2 l2 ->
                linesIntersect l l2 = false.

(** Every line of [F] that has taken a step since [F0] and is active has
    its tip on the canvas and intersects no unrelated line that was inactive
    in [F0] and is the same in [F]. *)
Definition stepped_clear (F0 F : list Seed) : Prop :=
  forall r l l', lookupLine r F0 = Some l -> lookupLine r F = Some l' ->
    active l' = true -> steps l' <> steps l ->
    lineOffscreen l' = false /\
    forall r2 l2, lookupLine r2 F0 = Some l2 -> lookupLine r2 F = Some l2 ->
      active l2 = false -> unrelated r l' r2 l2 -> linesIntersect l' l2 = false.

End ClearDefs.

(** * Part 2: theorems *)

Section Clear.
Context {R : RandomSource} {L : RandomSourceLaws R} {M : MathEnv} {C : Canvas}.
Context (config : Config).
Implicit Types (m : Model) (r : LineRef) (l : Line) (F : list Seed).

(** [linesIntersect] and [clear_of] read the ends and the parent of a line
    only. *)
Lemma linesIntersect_ends l l' l2 :
  p0 l = p0 l' -> p1 l = p1 l' -> linesIntersect l l2 = linesIntersect l' l2.
Proof. unfold linesIntersect. now intros -> ->. Qed.

Lemma clear_of_ends F r l l' :
  p0 l = p0 l' -> p1 l = p1 l' -> parent l = parent l' ->
  clear_of F r l -> clear_of F r l'.
Proof.
  intros E0 E1 Ep [Hv Hcl]. split.
  - unfold lineOffscreen in *. now rewrite <- E1.
  - intros r2 l2 H2 (H1 & Hp & H3). rewrite <- (linesIntersect_ends l l' l2 E0 E1).
    apply (Hcl r2 l2 H2). unfold unrelated. rewrite Ep. auto.
Qed.

(** When the detector of the canvas answers false over the model's
    traversal, the line is clear of the model's forest. *)
Lemma detect_false_clear r l m :
  detect (CollisionDetector := CanvasDetector) r l (forEachLineUntilTrue config m) = false ->
  clear_of (forest m) r l.
Proof.
  cbn [detect CanvasDetector]. rewrite checkForCollisions_forest. intros Hc. split.
  - apply not_true_is_false. intros Hoff.
    rewrite (proj2 (collides_true r l _)) in Hc by now left. discriminate.
  - intros r2 l2 H2 (H1 & Hp & H3). apply not_true_is_false. intros Hi.
    rewrite (proj2 (collides_true r l _)) in Hc; [discriminate |].
    right. exists r2, l2. rewrite elem_of_allLines. auto 10.
Qed.

(** The loop body, on any line, loses no line and no step. *)
Lemma growLine_steps_kept F0 r m :
  steps_kept F0 (forest m) ->
  steps_kept F0 (forest (growLine (D := CanvasDetector) config r m)).
Proof.
  intros Hc. destruct (lookupLine r (forest m)) as [l0|] eqn:Hl;
    [| now rewrite growLine_None].
  destruct (growLine_shape (D := CanvasDetector) config r m l0 Hl)
    as (l' & ch & st & Hs & Hg & _).
  rewrite (forest_Some _ _ Hs). intros r1 l H0.
  destruct (Hc r1 l H0) as (l1 & H1 & Hle). destruct (decide (r1 = r)) as [-> | Hne].
  - exists l'. split; [eapply lookupLine_applyStep_eq, Hl |].
    rewrite Hl in H1. inversion H1; subst l1.
    destruct Hg as (_ & _ & _ & _ & _ & -> & _). lia.
  - exists l1. split; [apply lookupLine_applyStep_ne; auto | exact Hle].
Qed.

(** The line the loop body leaves active passed the detector over a forest
    that holds every other line of the forest the body started from. *)
Lemma growLine_stepped_line r m l0 l' (st : bool) :
  lookupLine r (forest m) = Some l0 ->
  (st = false -> exists line m1,
     forest m1 = updateLine r (fun _ => line) (forest m) /\
     p0 line = p0 l' /\ p1 line = p1 l' /\ parent line = parent l' /\
     detect (CollisionDetector := CanvasDetector) r line
       (forEachLineUntilTrue config m1) = false) ->
  active l' = active l0 && negb st -> active l' = true ->
  lineOffscreen l' = false /\
  forall r2 l2, lookupLine r2 (forest m) = Some l2 -> unrelated r l' r2 l2 ->
                linesIntersect l' l2 = false.
Proof.
  intros Hl Hdet Hal Ha. rewrite Ha in Hal.
  destruct st; [rewrite andb_false_r in Hal; discriminate |].
  destruct (Hdet eq_refl) as (line & m1 & Hf & E0 & E1 & Ep & Hd).
  apply detect_false_clear, (clear_of_ends _ _ line l' E0 E1 Ep) in Hd.
  destruct Hd as [Hv Hcl]. split; [exact Hv |].
  intros r2 l2 H2 Hu. apply (Hcl r2 l2); [| exact Hu].
  rewrite Hf, lookupLine_updateLine_ne; [exact H2 |]. destruct Hu as (Hne & _). congruence.
Qed.

(** The loop body, on any line, keeps the stepped lines clear. *)
Lemma growLine_stepped_clear F0 r m :
  steps_kept F0 (forest m) -> stepped_clear F0 (forest m) ->
  stepped_clear F0 (forest (growLine (D := CanvasDetector) config r m)).
Proof.
  intros Hc Hb. destruct (lookupLine r (forest m)) as [l0|] eqn:Hl;
    [| now rewrite growLine_None].
  destruct (growLine_shape (D := CanvasDetector) config r m l0 Hl)
    as (l' & ch & st & Hs & Hg & Hal & _ & Hdet & Hch & _).
  assert (forall c, ch = Some c -> active c = true) as Hborn
    by (intros c E; now destruct (Hch c E) as (_ & ((? & _) & _) & _)).
  assert (lookupLine r F0 <> Some l') as Hfresh.
  { intros H0. destruct (Hc r l' H0) as (x & Hx & Hle). rewrite Hl in Hx.
    inversion Hx; subst x. destruct Hg as (_ & _ & _ & _ & _ & Hst & _). lia. }
  rewrite (forest_Some _ _ Hs). intros r1 l l1 H0 H1 Ha Hst.
  destruct (lookupLine_applyStep_inv _ _ _ _ _ _ _ Hl H1)
    as [[-> ->] | [[Hne Hold] | (_ & Hnone & _)]].
  - destruct (growLine_stepped_line r m l0 l' st Hl Hdet Hal Ha) as [Hv Hcl].
    split; [exact Hv |]. intros r2 l2 _ H2 Hi Hu. apply (Hcl r2 l2); [| exact Hu].
    destruct (lookupLine_applyStep_inv _ _ _ _ _ _ _ Hl H2)
      as [[E _] | [[_ H] | (_ & _ & E)]]; [now destruct Hu | exact H |].
    rewrite (Hborn l2 E) in Hi. discriminate.
  - destruct (Hb r1 l l1 H0 Hold Ha Hst) as [Hv Hcl]. split; [exact Hv |].
    intros r2 l2 H20 H2 Hi Hu. apply (Hcl r2 l2 H20); [| exact Hi | exact Hu].
    destruct (lookupLine_applyStep_inv _ _ _ _ _ _ _ Hl H2)
      as [[-> ->] | [[_ H] | (_ & _ & E)]]; [contradiction | exact H |].
    rewrite (Hborn l2 E) in Hi. discriminate.
  - destruct (Hc r1 l H0) as (x & Hx & _). congruence.
Qed.

(** A tick, from its first forest to its last. *)
Lemma model_grow_stepped_clear m m' :
  model_grow (D := CanvasDetector) config m = inr m' ->
  stepped_clear (forest m) (forest m').
Proof.
  unfold model_grow. destruct (seeds m) as [ss|]; [| discriminate].
  intros E. inversion E; subst m'. clear E.
  set (Inv := fun m1 : Model =>
    steps_kept (forest m) (forest m1) /\ stepped_clear (forest m) (forest m1)).
  assert (forall r m1, Inv m1 -> Inv (growLine (D := CanvasDetector) config r m1)) as Hstep
    by (intros r m1 [H1 H2]; split;
        [now apply growLine_steps_kept | now apply growLine_stepped_clear]).
  apply (forEach_invariant Inv).
  - intros si m1 _ H1. unfold seed_grow. destruct (forest m1 !! si); [| exact H1].
    revert H1. apply (forEach_invariant Inv). intros li m2 _. apply Hstep.
  - split; [intros r l H; exists l; auto |].
    intros r l l' H H' _ Hne. rewrite H in H'. inversion H'; subst l'. now destruct Hne.
Qed.

(** C25: growth keeps clear of the lines that have stopped.  With the
    detector of the canvas, a line that is active when a tick starts and
    still active when it ends has its tip on the canvas, and its segment
    shares no point with the segment of any line that was inactive when the
    tick started, unless that line is its parent or one of its children. *)
Theorem tick_avoids_settled_lines m m' r l l' r2 l2 :
  model_grow (D := CanvasDetector) config m = inr m' ->
  lookupLine r (forest m) = Some l -> active l = true ->
  lookupLine r (forest m') = Some l' -> active l' = true ->
  lookupLine r2 (forest m) = Some l2 -> active l2 = false ->
  parent l <> Some r2 -> parent l2 <> Some r ->
  isVisible (x (p1 l')) (y (p1 l')) = true /\ ~ segments_meet l' l2.
Proof.
  intros Hg Hl Ha Hl' Ha' Hl2 Ha2 Hp Hp2.
  destruct (model_grow_phase config m m' Hg) as ((_ & Hold & _) & _).
  destruct (proj1 (Hold r l Hl)) as (lx & Hlx & Hgr); [now exists l |].
  rewrite Hl' in Hlx. inversion Hlx; subst lx.
  destruct Hgr as (_ & _ & _ & Hpar & _ & Hst & _).
  assert (lookupLine r2 (forest m') = Some l2) as Hl2'
    by (apply (Hold r2 l2 Hl2); intros (? & ? & ?); congruence).
  destruct (model_grow_stepped_clear m m' Hg r l l' Hl Hl' Ha') as [Hv Hcl]; [lia |].
  split; [unfold lineOffscreen in Hv; now apply negb_false_iff in Hv |].
  intros Hm. apply linesIntersect_complete in Hm.
  rewrite (Hcl r2 l2 Hl2 Hl2' Ha2) in Hm; [discriminate |].
  split; [intros ->; congruence |]. split; [congruence | assumption].
Qed.

End Clear.

Lemma tick_avoids_settled_lines_witness :
  isVisible (Canvas := exampleCanvas)
    (x (p1 (exampleLine exampleScript 4 (0, 0)%nat)))
    (y (p1 (exampleLine exampleScript 4 (0, 0)%nat))) = true /\
  ~ segments_meet (exampleLine exampleScript 4 (0, 0)%nat)
                  (exampleLine exampleScript 3 (1, 0)%nat).
Proof.
  apply (@tick_avoids_settled_lines ScriptedSource ScriptedLaws AxisMath exampleCanvas
           exampleConfig (exampleRun exampleScript 3) (exampleRun exampleScript 4)
           (0, 0)%nat (exampleLine exampleScript 3 (0, 0)%nat)
           (exampleLine exampleScript 4 (0, 0)%nat) (1, 0)%nat
           (exampleLine exampleScript 3 (1, 0)%nat));
    vm_compute; solve [reflexivity | discriminate].
Defined.
