(* ===== verification/Render.v ===== *)
(** * Render: the animation loop and the exported object

    Models [createNewRender] (src/js/generator.js, lines 200-269) and the
    object the module exports (lines 271-295).

    A render owns a model, its configuration, the flag [stopRequested] and
    the handler it was created with.  Its loop [doUpdate] runs one [update]
    (one tick of the model and, while the model is active, a redraw), then
    either consumes a stop request, or calls the handler when the model is
    complete, or asks the browser for another frame.  The exported object
    keeps the current render and the handler for the next one.

    The browser and the canvas are not in the sources.  Calls on
    [view.canvas] and on the handler are recorded in a trace of events;
    [requestAnimationFrame] appends the render to a queue of pending frames,
    and the call [Frame] runs the first of them.  Colour strings are kept as
    the numbers interpolated in them.  A handler is an opaque identifier: what
    it does when called is not modelled.

    Theorems: [startNew] never throws for a lawful random source; the
    invariants of the growth model hold for every render in every state of
    the system; what [update] draws; [pause] takes effect after one more
    update; a stop request made while no frame is pending makes the next
    [resume] ineffective; [resume] on a running render doubles its frames;
    the default seed is the current time modulo 2^20. *)

From Stdlib Require Import ZArith QArith Qround Qminmax Lia Lqa Bool.
From stdpp Require Import base list.
From S2P Require Import Prelude JSNumber Random Config Forest Line Collision Model Invariants.

(** * Part 1: definitions *)

(** The colours handed to the canvas: the numbers interpolated in the
    strings [hsla(h,s%,l%,a)] and [rgb(v,v,v)]. *)
Inductive Colour : Type :=
| Hsla (h s l a : Q)
| Rgb (v : Z).

(** The object [{h, s, l}] handed to [drawWithPencil]. *)
Record HSL : Type := mkHSL { hsl_h : Q; hsl_s : Q; hsl_l : Q }.

(** What the program does to its environment: the calls on [view.canvas]
    and the calls of the [onFinished] handler. *)
Inductive Event : Type :=
| Clear
| DrawRect (line : Line) (width : Q) (colour : Colour) (gradients : bool)
| DrawLine (line : Line) (colour : Colour)
| DrawWithPencil (line : Line) (width : Q) (hsl : HSL)
| Finished (handler : nat).

(** The calls the environment makes: the five methods of the exported
    object, and the browser running the first pending animation frame. *)
Inductive Call {R : RandomSource} : Type :=
| StartNew (seed : rng)
| Resume
| Pause
| ApplyPencil
| OnFinishedCurrent (handler : nat)
| Frame.

(** The part of [view.canvas.drawWithPencil] the program depends on: the
    draws it makes from the generator it is handed. *)
Class View {R : RandomSource} : Type := {
  drawWithPencil_rnd : Line -> Q -> HSL -> State rng unit;
}.

(** The integer part of a rational, rounding towards zero. *)
Definition Qtrunc (q : Q) : Z := if Qle_bool 0 q then Qfloor q else Qceiling q.

(** The operator [%] on numbers: the remainder has the sign of the
    dividend. *)
Definition js_rem (a b : Q) : Q := (a - b * inject_Z (Qtrunc (a / b)))%Q.

(** Line 277: the default seed, [Date.now() & 0xfffff]. *)
Definition defaultSeed (now : Z) : Z := Z.land (JS.toInt32 now) 0xfffff.

Section RenderOps.
Context {R : RandomSource} {M : MathEnv} {C : Canvas} {V : View}.
Local Open Scope Q_scope.

(** Lines 207 and 255: the hue of a line. *)
Definition hue (cfg : Config) (l : Line) : Q :=
  js_rem (rectBaseHue cfg + (rnd_tag l - (1 # 2)) * rectHueVariation cfg) 360.

(** Line 207: the call of [drawRect] for a line. *)
Definition rectEvent (rl : LineRef * Line) (cfg : Config) : Event :=
  DrawRect rl.2 (Qmin (maxRectWidth cfg) (inject_Z (Z.of_nat (steps rl.2))))
    (Hsla (hue cfg rl.2) (rectSaturation cfg) (rectLightness cfg) (rectAlpha cfg))
    (useGradients cfg).

(** Lines 210-212 and 262-264: the call of [drawLine] for a line. *)
Definition strokeEvent (rl : LineRef * Line) (cfg : Config) : Event :=
  DrawLine rl.2 (Rgb (Math_round (lineDarkness cfg * 100))).

(** A callback of the traversal that makes one call on the canvas and
    returns nothing ([undefined], which is falsy). *)
Definition emit (e : LineRef * Line -> Config -> Event) (rl : LineRef * Line) (cfg : Config)
    : State (list Event) bool :=
  fun tr => (false, tr ++ [e rl cfg]).

(** Lines 206-208 and 209-213: the two callbacks of a redraw. *)
Definition drawRectOf : LineRef * Line -> Config -> State (list Event) bool := emit rectEvent.

Definition drawLineOf : LineRef * Line -> Config -> State (list Event) bool := emit strokeEvent.

(** Lines 253-259: the pencil stroke of a line.  The test draws from the
    generator only when [pencilHorizontal] is set; the stroke draws its width
    and then lets the canvas draw what it wants. *)
Definition pencilOf (rl : LineRef * Line) (cfg : Config) : State (rng * list Event) bool :=
  fun st =>
    let (go, s1) :=
      if negb (pencilHorizontal cfg) then (true, st.1)
      else let (u, s1) := rnd 1 0 st.1 in
           (Qltb (Math_sin (angle rl.2) * Math_sin (angle rl.2)) u, s1) in
    if go then
      let (w, s2) := rnd 10 100 s1 in
      let hsl := {| hsl_h := hue cfg rl.2; hsl_s := rectSaturation cfg;
                    hsl_l := rectLightness cfg |} in
      (false, (snd (drawWithPencil_rnd rl.2 w hsl s2), st.2 ++ [DrawWithPencil rl.2 w hsl]))
    else (false, (s1, st.2)).

(** Lines 201-217, [update()]: one tick, then a redraw while the model is
    active.  The result is [isComplete]. *)
Definition update (cfg : Config) (m : Model) (tr : list Event)
    : Result (bool * Model * list Event) :=
  match model_grow cfg m with
  | inl e => inl e
  | inr m1 =>
      if isActive m1 then
        let tr := tr ++ [Clear] in
        let tr := snd (forEachLineUntilTrue cfg m1 _ drawRectOf tr) in
        let tr := snd (forEachLineUntilTrue cfg m1 _ drawLineOf tr) in
        inr (false, m1, tr)
      else inr (true, m1, tr)
  end.

(** Line 219 and the arguments of [createNewRender]: the variables of a
    render.  [render_state] is [None] until [init] has set [config] and
    [model]. *)
Record Render : Type := mkRender {
  render_seed : rng;
  onFinished : nat;
  stopRequested : bool;
  render_state : option (Config * Model);
}.

(** Line 200: a render as [createNewRender] returns it ([stopRequested] is
    undefined, which is falsy). *)
Definition createNewRender (seed : rng) (handler : nat) : Render :=
  {| render_seed := seed; onFinished := handler; stopRequested := false;
     render_state := None |}.

(** The closure of the exported object (line 271), the renders created so
    far (a render is identified by its index), the frames the browser has
    pending and the trace. *)
Record System : Type := mkSystem {
  renders : list Render;
  render : option nat;
  onFinishedCurrentHandler : nat;
  frames : list nat;
  trace : list Event;
}.

Definition set_renders (rs : list Render) (sys : System) : System :=
  mkSystem rs (render sys) (onFinishedCurrentHandler sys) (frames sys) (trace sys).

Definition set_frames (fs : list nat) (sys : System) : System :=
  mkSystem (renders sys) (render sys) (onFinishedCurrentHandler sys) fs (trace sys).

Definition set_trace (tr : list Event) (sys : System) : System :=
  mkSystem (renders sys) (render sys) (onFinishedCurrentHandler sys) (frames sys) tr.

Definition set_stop (b : bool) (r : Render) : Render :=
  mkRender (render_seed r) (onFinished r) b (render_state r).

Definition set_state (st : Config * Model) (r : Render) : Render :=
  mkRender (render_seed r) (onFinished r) (stopRequested r) (Some st).

(** The state before any call: no render, the handler [() => {}] (handler
    0), nothing pending, nothing drawn. *)
Definition initSystem : System := mkSystem [] None 0 [] [].

(** Lines 222-230, [init()].  When [generate] throws, the modelled run ends
    with the exception: the assignments and the [clear] that precede it in
    the source are not recorded. *)
Definition init (r : Render) (tr : list Event) : Result (Render * list Event) :=
  let (cfg, s1) := buildRandomConfig (render_seed r) in
  match generate cfg (initModel s1) with
  | inl e => inl e
  | inr m => inr (set_state (cfg, m) (set_stop false r), tr ++ [Clear])
  end.

(** Lines 232-244, [doUpdate()] of the render [i]. *)
Definition doUpdate (i : nat) (sys : System) : Result System :=
  match renders sys !! i with
  | Some r =>
      match render_state r with
      | Some (cfg, m) =>
          match update cfg m (trace sys) with
          | inl e => inl e
          | inr (isComplete, m1, tr) =>
              let r1 := set_state (cfg, m1) r in
              if stopRequested r then
                inr (set_trace tr (set_renders (<[i := set_stop false r1]> (renders sys)) sys))
              else
                let sys1 := set_renders (<[i := r1]> (renders sys)) sys in
                if isComplete then inr (set_trace (tr ++ [Finished (onFinished r)]) sys1)
                else inr (set_frames (frames sys ++ [i]) (set_trace tr sys1))
          end
      | None => inl TypeError
      end
  | None => inl TypeError
  end.

(** Lines 247-249, [stop()] of the render [i]. *)
Definition stop (i : nat) (sys : System) : System :=
  set_renders (alter (set_stop true) i (renders sys)) sys.

(** Lines 250-266, [applyPencil()] of a render. *)
Definition render_applyPencil (cfg : Config) (m : Model) (tr : list Event)
    : Model * list Event :=
  let st := snd (forEachLineUntilTrue cfg m _ pencilOf (rng_state m, tr ++ [Clear])) in
  (set_rng st.1 m, snd (forEachLineUntilTrue cfg m _ drawLineOf st.2)).

(** Lines 277-285, [startNew(seed)]. *)
Definition startNew (seed : rng) (sys : System) : Result System :=
  let sys1 := match render sys with Some i => stop i sys | None => sys end in
  let i := length (renders sys1) in
  match init (createNewRender seed (onFinishedCurrentHandler sys1)) (trace sys1) with
  | inl e => inl e
  | inr (r, tr) =>
      doUpdate i (mkSystem (renders sys1 ++ [r]) (Some i) (onFinishedCurrentHandler sys1)
                    (frames sys1) tr)
  end.

(** Lines 286-288, [resume()]. *)
Definition resume (sys : System) : Result System :=
  match render sys with
  | Some i => doUpdate i sys
  | None => inl TypeError
  end.

(** Lines 289-291, [pause()]. *)
Definition pause (sys : System) : Result System :=
  match render sys with
  | Some i => inr (stop i sys)
  | None => inl TypeError
  end.

(** Lines 292-294, [applyPencil()]. *)
Definition applyPencil (sys : System) : Result System :=
  match render sys with
  | Some i =>
      match renders sys !! i with
      | Some r =>
          match render_state r with
          | Some (cfg, m) =>
              let (m1, tr) := render_applyPencil cfg m (trace sys) in
              inr (set_trace tr (set_renders (<[i := set_state (cfg, m1) r]> (renders sys)) sys))
          | None => inl TypeError
          end
      | None => inl TypeError
      end
  | None => inl TypeError
  end.

(** Lines 274-276, [onFinishedCurrent(handler)]. *)
Definition onFinishedCurrent (h : nat) (sys : System) : System :=
  mkSystem (renders sys) (render sys) h (frames sys) (trace sys).

(** The browser runs the first pending frame, if any. *)
Definition frame (sys : System) : Result System :=
  match frames sys with
  | i :: fs => doUpdate i (set_frames fs sys)
  | [] => inr sys
  end.

(** One call of the environment. *)
Definition call (c : Call) (sys : System) : Result System :=
  match c with
  | StartNew seed => startNew seed sys
  | Resume => resume sys
  | Pause => pause sys
  | ApplyPencil => applyPencil sys
  | OnFinishedCurrent h => inr (onFinishedCurrent h sys)
  | Frame => frame sys
  end.

(** A sequence of calls, stopping at the first exception. *)
Fixpoint calls (cs : list Call) (sys : System) : Result System :=
  match cs with
  | [] => inr sys
  | c :: cs' =>
      match call c sys with
      | inl e => inl e
      | inr sys' => calls cs' sys'
      end
  end.

(** The states the system can be in. *)
Inductive running : System -> Prop :=
| running_init : running initSystem
| running_call c sys sys' : running sys -> call c sys = inr sys' -> running sys'.

End RenderOps.

(** What every render's model satisfies once it is initialised: the
    invariants of the growth model. *)
Definition model_ok {R : RandomSource} {M : MathEnv} (cfg : Config) (m : Model) : Prop :=
  count_ok m /\ is_Some (seeds m) /\ tips_ok (forest m) /\ links_ok (forest m) /\
  rooted (forest m) /\ Z.of_nat (length (forest m)) = seedCount cfg.

Definition render_ok {R : RandomSource} {M : MathEnv} (r : Render) : Prop :=
  match render_state r with
  | Some (cfg, m) => model_ok cfg m
  | None => False
  end.

(** The invariant of the system: every render is initialised and its model
    is well formed; the current render and the pending frames are renders
    that exist. *)
Definition system_ok {R : RandomSource} {M : MathEnv} (sys : System) : Prop :=
  Forall render_ok (renders sys) /\
  (forall i, render sys = Some i -> (i < length (renders sys))%nat) /\
  Forall (fun i => (i < length (renders sys))%nat) (frames sys).

(** The events of a redraw of the forest [ss] under the configuration
    [cfg]: a rectangle per line, then a stroke per line. *)
Definition redraw (cfg : Config) (ss : list Seed) : list Event :=
  [Clear] ++ ((fun rl => rectEvent rl cfg) <$> allLines ss)
          ++ ((fun rl => strokeEvent rl cfg) <$> allLines ss).

(** When a call is expected not to throw: a new render needs a good state
    of the generator; the methods that use the current render need one. *)
Definition callable {R : RandomSource} {L : RandomSourceLaws R} (c : Call) (sys : System) : Prop :=
  match c with
  | StartNew seed => rng_ok seed
  | Resume | Pause | ApplyPencil => is_Some (render sys)
  | OnFinishedCurrent _ | Frame => True
  end.

(** A view whose pencil draws nothing from the generator, for the
    examples. *)
Definition quietView {R : RandomSource} : View := {|
  drawWithPencil_rnd := fun _ _ _ => ret tt;
|}.

(** The example system: the scripted source, the axis-aligned Math
    environment, the 10 x 10 canvas. *)
Definition exampleCall (c : Call (R := ScriptedSource)) (sys : System) : Result System :=
  call (R := ScriptedSource) (M := AxisMath) (C := exampleCanvas) (V := quietView) c sys.

Definition exampleCallsFrom (cs : list (Call (R := ScriptedSource))) (sys : System)
    : Result System :=
  calls (R := ScriptedSource) (M := AxisMath) (C := exampleCanvas) (V := quietView) cs sys.

Definition exampleCalls (cs : list (Call (R := ScriptedSource))) : Result System :=
  exampleCallsFrom cs initSystem.

(** A script for a whole render: the twelve draws of [buildRandomConfig]
    (one seed, no split, no expiry), then the draws of the model. *)
Definition renderScript : list Q :=
  ([1 # 2; 0; 0; 0; 0; 0; 0; 0; 0; 0; 0; 0] ++
   [1 # 4; 1 # 10; 1 # 2; 0; 9 # 10; 9 # 10] ++ repeat (9 # 10) 40)%Q.

(** The system of a result ([initSystem] for an exception). *)
Definition sysOf {R : RandomSource} (r : Result System) : System :=
  match r with
  | inr sys => sys
  | inl _ => initSystem
  end.

(** The example system right after [startNew]: one render, current, with
    one frame pending; that render, its configuration and model, and the
    model one tick later. *)
Definition startedSystem : System := sysOf (exampleCalls [StartNew renderScript]).

Definition startedRender : Render :=
  default (createNewRender (R := ScriptedSource) [] 0) (renders startedSystem !! 0%nat).

Definition startedConfig : Config :=
  default exampleConfig (fst <$> render_state startedRender).

Definition startedModel : Model :=
  default (initModel (R := ScriptedSource) []) (snd <$> render_state startedRender).

Definition startedModel1 : Model :=
  modelOf startedModel
    (model_grow (R := ScriptedSource) (M := AxisMath)
       (D := CanvasDetector (C := exampleCanvas)) startedConfig startedModel).

(** The example system after [pause()] and the frame that consumes the stop
    request: no frame is pending. *)
Definition pausedSystem : System (R := ScriptedSource) :=
  sysOf (exampleCalls [StartNew renderScript; Pause; Frame]).

Definition startedModel2 : Model :=
  modelOf startedModel1
    (model_grow (R := ScriptedSource) (M := AxisMath)
       (D := CanvasDetector (C := exampleCanvas)) startedConfig startedModel1).

(** * Part 2: theorems *)

Section ModelOk.
Context {R : RandomSource} {L : RandomSourceLaws R} {M : MathEnv} {C : Canvas}.
Implicit Types (cfg : Config) (m : Model) (tr : list Event).

(** What [generate] on a new model leaves is well formed. *)
Lemma generate_model_ok cfg (s : rng) m :
  generate cfg (initModel s) = inr m -> model_ok cfg m.
Proof.
  intros Hg. destruct (generate_wf cfg _ _ Hg) as (Ht & Hk & Hr).
  destruct (generate_inr cfg _ _ Hg) as (_ & ss & Hs & Hall & Hlen & Hc & _).
  unfold model_ok, count_ok. rewrite (forest_Some _ _ Hs) in *.
  rewrite (countActive_fresh ss Hall), Hs. cbn in Hc.
  split; [lia |]. split; [eauto |]. auto.
Qed.

(** A tick keeps the model well formed. *)
Lemma model_grow_model_ok cfg m m1 :
  model_grow cfg m = inr m1 -> model_ok cfg m -> model_ok cfg m1.
Proof.
  intros Hg (Hc & Hs & Ht & Hk & Hr & Hlen).
  destruct (model_grow_phase cfg m m1 Hg) as ((Hl & _) & Hc' & Hs' & _).
  destruct (model_grow_wf cfg m m1 Hg) as (Ht' & Hk' & Hr'); [auto |].
  unfold model_ok. rewrite Hl. auto 10.
Qed.

(** A tick of a well-formed model does not throw. *)
Lemma model_grow_total cfg m : model_ok cfg m -> exists m1, model_grow cfg m = inr m1.
Proof. intros (_ & [ss Hs] & _). unfold model_grow. rewrite Hs. eauto. Qed.

(** Draws from the generator do not touch the forest. *)
Lemma set_rng_model_ok cfg m (s : rng) : model_ok cfg m -> model_ok cfg (set_rng s m).
Proof. intros H. exact H. Qed.

(** A callback that records one event per line and never stops the
    traversal records the events of all the lines, in the order of the
    traversal. *)
Lemma traverse_emit cfg m (e : LineRef * Line -> Config -> Event) tr :
  snd (forEachLineUntilTrue cfg m _ (emit e) tr) =
  tr ++ ((fun rl => e rl cfg) <$> allLines (forest m)).
Proof.
  rewrite (forEachLineUntilTrue_enumerates cfg m). cbn [snd].
  rewrite some_st_never by reflexivity. cbn [snd].
  generalize (allLines (forest m)). intros l. revert tr.
  induction l as [|rl l IH]; intros tr; cbn; [now rewrite app_nil_r |].
  rewrite IH, <- app_assoc. reflexivity.
Qed.

End ModelOk.

Section SystemFacts.
Context {R : RandomSource} {L : RandomSourceLaws R} {M : MathEnv} {C : Canvas} {V : View}.
Implicit Types (sys : System) (r : Render) (cfg : Config) (m : Model) (tr : list Event).
Implicit Types (i : nat).

(** [update] in closed form. *)
Lemma update_eq cfg m tr m1 :
  model_grow cfg m = inr m1 ->
  update cfg m tr =
  inr (if isActive m1 then (false, m1, tr ++ redraw cfg (forest m1)) else (true, m1, tr)).
Proof.
  intros Hg. unfold update. rewrite Hg. destruct (isActive m1); [| reflexivity].
  unfold drawRectOf, drawLineOf. rewrite !traverse_emit. unfold redraw.
  now rewrite <- !app_assoc.
Qed.

(** [doUpdate] in closed form, on an initialised render whose model
    ticks. *)
Lemma doUpdate_eq i sys r cfg m m1 :
  renders sys !! i = Some r -> render_state r = Some (cfg, m) ->
  model_grow cfg m = inr m1 ->
  doUpdate i sys =
  inr (let tr := if isActive m1 then trace sys ++ redraw cfg (forest m1) else trace sys in
       let r1 := set_state (cfg, m1) r in
       if stopRequested r then
         set_trace tr (set_renders (<[i := set_stop false r1]> (renders sys)) sys)
       else if isActive m1 then
         set_frames (frames sys ++ [i]) (set_trace tr (set_renders (<[i := r1]> (renders sys)) sys))
       else
         set_trace (tr ++ [Finished (onFinished r)])
           (set_renders (<[i := r1]> (renders sys)) sys)).
Proof.
  intros Hr Hs Hg. unfold doUpdate. rewrite Hr, Hs, (update_eq cfg m _ m1 Hg).
  destruct (isActive m1), (stopRequested r); reflexivity.
Qed.

(** Updates of the system that keep it well formed. *)
Lemma system_ok_renders sys (rs : list Render) :
  system_ok sys -> Forall render_ok rs -> length rs = length (renders sys) ->
  system_ok (set_renders rs sys).
Proof. intros (_ & Hcur & Hfr) Hall Hlen. unfold system_ok. cbn. now rewrite Hlen. Qed.

Lemma system_ok_trace sys tr : system_ok sys -> system_ok (set_trace tr sys).
Proof. intros H. exact H. Qed.

Lemma system_ok_frames sys (fs : list nat) :
  system_ok sys -> Forall (fun i => (i < length (renders sys))%nat) fs ->
  system_ok (set_frames fs sys).
Proof. intros (Hall & Hcur & Hfr) Hi. unfold system_ok. cbn. auto. Qed.

(** [doUpdate] of a render that exists keeps the system well formed and
    does not throw. *)
Lemma doUpdate_ok i sys :
  system_ok sys -> (i < length (renders sys))%nat ->
  exists sys', doUpdate i sys = inr sys' /\ system_ok sys' /\
               render sys' = render sys /\ length (renders sys') = length (renders sys).
Proof.
  intros (Hall & Hcur & Hfr) Hi.
  destruct (lookup_lt_is_Some_2 _ _ Hi) as [r Hr].
  pose proof (proj1 (Forall_lookup _ _) Hall i r Hr) as Hok. unfold render_ok in Hok.
  destruct (render_state r) as [[cfg m]|] eqn:Hs; [| contradiction].
  destruct (model_grow_total cfg m Hok) as [m1 Hg].
  pose proof (model_grow_model_ok cfg m m1 Hg Hok) as Hok1.
  rewrite (doUpdate_eq i sys r cfg m m1 Hr Hs Hg). eexists. split; [reflexivity |].
  assert (forall b, render_ok (set_stop b (set_state (cfg, m1) r))) as Hr1 by (intros b; exact Hok1).
  assert (render_ok (set_state (cfg, m1) r)) as Hr2 by exact Hok1.
  assert (forall r', render_ok r' -> system_ok (set_renders (<[i := r']> (renders sys)) sys)) as Hsys.
  { intros r' Hr'. apply system_ok_renders; [repeat split; assumption | | apply length_insert].
    now apply Forall_insert. }
  cbv zeta. destruct (stopRequested r); [| destruct (isActive m1)]; cbn [render renders set_trace set_frames set_renders];
    rewrite length_insert; (split; [| auto]).
  - apply system_ok_trace, Hsys, Hr1.
  - apply system_ok_frames; [apply system_ok_trace, Hsys, Hr2 |]. cbn.
    rewrite length_insert, Forall_app, Forall_singleton. auto.
  - apply system_ok_trace, Hsys, Hr2.
Qed.

(** [stop] keeps the system well formed. *)
Lemma stop_ok i sys : system_ok sys -> system_ok (stop i sys).
Proof.
  intros (Hall & Hcur & Hfr). unfold stop, system_ok. cbn. rewrite length_alter.
  split; [| auto]. apply Forall_alter; [assumption |]. intros r _ Hr. exact Hr.
Qed.

(** [init] leaves a well-formed render. *)
Lemma init_ok (seed : rng) (h : nat) tr r tr' :
  init (createNewRender seed h) tr = inr (r, tr') ->
  render_ok r /\ stopRequested r = false /\ onFinished r = h /\ tr' = tr ++ [Clear].
Proof.
  unfold init. cbn. destruct (buildRandomConfig seed) as [cfg s1].
  destruct (generate cfg (initModel s1)) as [e | m] eqn:Hg; [discriminate |].
  intros E. inversion E; subst. unfold render_ok. cbn.
  split; [eapply generate_model_ok, Hg | auto].
Qed.

(** [init] does not throw from a good state of the generator. *)
Lemma init_total (seed : rng) (h : nat) tr :
  rng_ok seed -> exists r, init (createNewRender seed h) tr = inr (r, tr ++ [Clear]).
Proof.
  intros Hs. unfold init. cbn. pose proof (buildRandomConfig_seedCount seed Hs) as Hc.
  destruct (buildRandomConfig seed) as [cfg s1]. cbn in Hc.
  destruct (generate_valid cfg (initModel s1)) as [m Hm]; [lia |].
  rewrite Hm. eauto.
Qed.

End SystemFacts.

Section Running.
Context {R : RandomSource} {L : RandomSourceLaws R} {M : MathEnv} {C : Canvas} {V : View}.
Implicit Types (sys : System) (r : Render) (cfg : Config) (m : Model) (tr : list Event).
Implicit Types (i : nat) (c : Call).

(** The system [startNew] hands to the first [doUpdate] is well formed. *)
Lemma started_ok sys r tr :
  system_ok sys -> render_ok r ->
  system_ok (mkSystem (renders sys ++ [r]) (Some (length (renders sys)))
               (onFinishedCurrentHandler sys) (frames sys) tr).
Proof.
  intros (Hall & Hcur & Hfr) Hr. unfold system_ok. cbn. rewrite length_app. cbn.
  split; [rewrite Forall_app, Forall_singleton; auto |].
  split; [intros i E; inversion E; lia |].
  eapply Forall_impl; [exact Hfr |]. cbn. intros. lia.
Qed.

Lemma stopped_ok sys :
  system_ok sys -> system_ok (match render sys with Some i => stop i sys | None => sys end).
Proof. intros H. destruct (render sys); [now apply stop_ok | assumption]. Qed.

(** [applyPencil] on a well-formed system. *)
Lemma applyPencil_ok sys sys' :
  system_ok sys -> applyPencil sys = inr sys' -> system_ok sys'.
Proof.
  intros Hok. unfold applyPencil.
  destruct (render sys) as [i|]; [| discriminate].
  destruct (renders sys !! i) as [r|] eqn:Hr; [| discriminate].
  pose proof (proj1 (Forall_lookup _ _) (proj1 Hok) i r Hr) as Hrok. unfold render_ok in Hrok.
  destruct (render_state r) as [[cfg m]|]; [| discriminate].
  destruct (render_applyPencil cfg m (trace sys)) as [m1 tr] eqn:Hp.
  intros E. inversion E; subst sys'. apply system_ok_trace, system_ok_renders;
    [assumption | | apply length_insert].
  apply Forall_insert; [exact (proj1 Hok) |].
  unfold render_applyPencil in Hp. inversion Hp; subst. exact Hrok.
Qed.

(** Every call keeps the system well formed. *)
Lemma call_ok c sys sys' : system_ok sys -> call c sys = inr sys' -> system_ok sys'.
Proof.
  intros Hok. destruct c as [seed | | | | h |]; cbn [call].
  - unfold startNew. pose proof (stopped_ok sys Hok) as Hok1.
    destruct (init _ _) as [e | [r tr]] eqn:Hi; [discriminate |].
    destruct (init_ok _ _ _ _ _ Hi) as (Hr & _).
    destruct (doUpdate_ok (length (renders (match render sys with Some i => stop i sys | None => sys end)))
                _ (started_ok _ r tr Hok1 Hr)) as (s2 & E & Hs2 & _).
    { cbn. rewrite length_app. cbn. lia. }
    rewrite E. intros E'. inversion E'; subst. assumption.
  - unfold resume. destruct (render sys) as [i|] eqn:Hc; [| discriminate].
    destruct (doUpdate_ok i sys Hok) as (s2 & E & Hs2 & _); [now apply (proj1 (proj2 Hok)) |].
    rewrite E. intros E'. inversion E'; subst. assumption.
  - unfold pause. destruct (render sys) as [i|]; [| discriminate].
    intros E. inversion E; subst. now apply stop_ok.
  - now apply applyPencil_ok.
  - intros E. inversion E; subst. exact Hok.
  - unfold frame. destruct (frames sys) as [|i fs] eqn:Hf.
    + intros E. inversion E; subst. exact Hok.
    + assert (system_ok (set_frames fs sys) /\ (i < length (renders sys))%nat) as [Hok1 Hi].
      { destruct Hok as (Hall & Hcur & Hfr). rewrite Hf in Hfr. inversion Hfr; subst.
        split; [| assumption]. apply system_ok_frames; [| assumption].
        repeat split; try assumption. now rewrite Hf. }
      destruct (doUpdate_ok i _ Hok1 Hi) as (s2 & E & Hs2 & _).
      rewrite E. intros E'. inversion E'; subst. assumption.
Qed.

(** [applyPencil] on an initialised current render does not throw. *)
Lemma applyPencil_total sys :
  system_ok sys -> is_Some (render sys) -> exists sys', applyPencil sys = inr sys'.
Proof.
  intros Hok [i Hi]. unfold applyPencil. rewrite Hi.
  destruct (lookup_lt_is_Some_2 (renders sys) i) as [r Hr]; [now apply (proj1 (proj2 Hok)) |].
  rewrite Hr. pose proof (proj1 (Forall_lookup _ _) (proj1 Hok) i r Hr) as Hrok.
  unfold render_ok in Hrok. destruct (render_state r) as [[cfg m]|]; [| contradiction].
  destruct (render_applyPencil cfg m (trace sys)). eauto.
Qed.

End Running.

Section Loop.
Context {R : RandomSource} {L : RandomSourceLaws R} {M : MathEnv} {C : Canvas} {V : View}.
Implicit Types (sys : System) (r : Render) (cfg : Config) (m : Model) (tr : list Event).
Implicit Types (i : nat) (c : Call).

(** What one [doUpdate] does, as seen from outside: the model ticks once;
    the canvas is redrawn if the model is active after the tick; the stop
    request is consumed if there was one; otherwise the handler is called if
    the model is complete and a frame is requested if it is not. *)
Lemma doUpdate_obs i sys r cfg m m1 :
  renders sys !! i = Some r -> render_state r = Some (cfg, m) ->
  model_grow cfg m = inr m1 ->
  exists sys', doUpdate i sys = inr sys' /\
    renders sys' = <[i := mkRender (render_seed r) (onFinished r) false (Some (cfg, m1))]> (renders sys) /\
    render sys' = render sys /\
    onFinishedCurrentHandler sys' = onFinishedCurrentHandler sys /\
    frames sys' = frames sys ++ (if negb (stopRequested r) && isActive m1 then [i] else []) /\
    trace sys' = trace sys ++ (if isActive m1 then redraw cfg (forest m1) else [])
                           ++ (if negb (stopRequested r) && negb (isActive m1)
                               then [Finished (onFinished r)] else []).
Proof.
  intros Hr Hs Hg. rewrite (doUpdate_eq i sys r cfg m m1 Hr Hs Hg). eexists. split; [reflexivity |].
  cbv zeta. destruct (stopRequested r) eqn:Hst, (isActive m1); cbn;
    rewrite ?app_nil_r; unfold set_state, set_stop; cbn; rewrite ?Hst; auto 10.
Qed.

(** The render [i] after [stop]. *)
Lemma lookup_stop i sys r :
  renders sys !! i = Some r -> renders (stop i sys) !! i = Some (set_stop true r).
Proof. intros Hr. unfold stop. cbn. now rewrite list_lookup_alter_eq, Hr. Qed.

Lemma insert_stop i sys r' :
  <[i := r']> (renders (stop i sys)) = <[i := r']> (renders sys).
Proof.
  unfold stop. cbn. apply list_eq. intros j.
  destruct (decide (i = j)) as [<- | Hne].
  - destruct (decide (i < length (renders sys))%nat).
    + rewrite !list_lookup_insert_eq; [reflexivity | assumption | now rewrite length_alter].
    + rewrite !lookup_ge_None_2; [reflexivity | | ]; rewrite length_insert, ?length_alter; lia.
  - rewrite !list_lookup_insert_ne, list_lookup_alter_ne by assumption. reflexivity.
Qed.

Lemma running_ok sys : running sys -> system_ok sys.
Proof.
  induction 1 as [| c sys sys' _ IH Hc]; [| eapply call_ok; eauto].
  split; [constructor |]. split; [discriminate | constructor].
Qed.

Lemma calls_running (cs : list Call) sys sys' :
  running sys -> calls cs sys = inr sys' -> running sys'.
Proof.
  revert sys. induction cs as [|c cs IH]; intros sys Hr; cbn.
  - intros E. inversion E; subst. assumption.
  - destruct (call c sys) as [e | s1] eqn:Hc; [discriminate |].
    apply IH. eapply running_call; eauto.
Qed.

End Loop.

Section RenderClaims.
Context {R : RandomSource} {L : RandomSourceLaws R} {M : MathEnv} {C : Canvas} {V : View}.
Implicit Types (sys : System) (r : Render) (cfg : Config) (m : Model) (tr : list Event).
Implicit Types (i : nat) (c : Call).

(** C8: in every state of the system, every render ever created is
    initialised and its model satisfies the invariants of the growth model
    (the counter is the number of active lines, the forest is defined with
    [seedCount] seeds, tips and parent links are right), whatever calls were
    made on it; the current render and the pending frames are renders that
    exist. *)
Theorem running_invariant sys :
  running sys ->
  (forall i r, renders sys !! i = Some r ->
     exists cfg m, render_state r = Some (cfg, m) /\ model_ok cfg m) /\
  (forall i, render sys = Some i -> is_Some (renders sys !! i)) /\
  (forall i, i ∈ frames sys -> is_Some (renders sys !! i)).
Proof.
  intros Hr. destruct (running_ok sys Hr) as (Hall & Hcur & Hfr). split; [| split].
  - intros i r Hi. pose proof (proj1 (Forall_lookup _ _) Hall i r Hi) as Hok.
    unfold render_ok in Hok. destruct (render_state r) as [[cfg m]|]; [eauto | contradiction].
  - intros i Hi. apply lookup_lt_is_Some_2. auto.
  - intros i Hi. apply lookup_lt_is_Some_2. exact (proj1 (Forall_forall _ _) Hfr i Hi).
Qed.

(** C14: no call throws once the system runs, provided a new render is given
    a good state of the generator and the methods that use the current
    render are called after a first [startNew]: the seed count drawn by
    [buildRandomConfig] is a valid array length for [generate], and [grow] is
    only ever called on a generated model. *)
Theorem call_never_throws sys c :
  running sys -> callable c sys -> exists sys', call c sys = inr sys'.
Proof.
  intros Hr Hc. pose proof (running_ok sys Hr) as Hok.
  destruct c as [seed | | | | h |]; cbn [call callable] in *.
  - unfold startNew. pose proof (stopped_ok sys Hok) as Hok1.
    set (sys1 := match render sys with Some i => stop i sys | None => sys end) in *.
    destruct (init_total seed (onFinishedCurrentHandler sys1) (trace sys1) Hc) as [r Hi].
    rewrite Hi. destruct (init_ok _ _ _ _ _ Hi) as (Hrok & _).
    destruct (doUpdate_ok (length (renders sys1)) _
                (started_ok sys1 r (trace sys1 ++ [Clear]) Hok1 Hrok)) as (s2 & E & _); [| eauto].
    cbn. rewrite length_app. cbn. lia.
  - destruct Hc as [i Hi]. unfold resume. rewrite Hi.
    destruct (doUpdate_ok i sys Hok) as (s2 & E & _); [now apply (proj1 (proj2 Hok)) | eauto].
  - destruct Hc as [i Hi]. unfold pause. rewrite Hi. eauto.
  - now apply applyPencil_total.
  - eauto.
  - unfold frame. destruct (frames sys) as [|i fs] eqn:Hf; [eauto |].
    destruct Hok as (Hall & Hcur & Hfr). rewrite Hf in Hfr. inversion Hfr; subst.
    destruct (doUpdate_ok i (set_frames fs sys)) as (s2 & E & _); [| assumption | eauto].
    apply system_ok_frames; [| assumption]. repeat split; try assumption. now rewrite Hf.
Qed.

(** Before the first [startNew] there is no render: [resume], [pause] and
    [applyPencil] throw a [TypeError]. *)
Lemma call_before_startNew sys c :
  render sys = None -> c = Resume \/ c = Pause \/ c = ApplyPencil ->
  call c sys = inl TypeError.
Proof.
  intros Hn [-> | [-> | ->]]; cbn; unfold resume, pause, applyPencil; now rewrite Hn.
Qed.

(** C15: one animation frame of the render [i]: its model ticks once; if the
    model is active after the tick the canvas is cleared and every line of
    the forest is drawn, all the rectangles and then all the strokes, in
    creation order; if it is not, nothing is drawn.  Then a stop request is
    consumed, or else the handler is called when the model is complete and
    a new frame is requested when it is not.  The other renders are not
    touched. *)
Theorem frame_spec sys i fs r cfg m m1 :
  frames sys = i :: fs -> renders sys !! i = Some r -> render_state r = Some (cfg, m) ->
  model_grow cfg m = inr m1 ->
  exists sys', frame sys = inr sys' /\
    renders sys' = <[i := mkRender (render_seed r) (onFinished r) false (Some (cfg, m1))]> (renders sys) /\
    render sys' = render sys /\
    frames sys' = fs ++ (if negb (stopRequested r) && isActive m1 then [i] else []) /\
    trace sys' = trace sys ++ (if isActive m1 then redraw cfg (forest m1) else [])
                           ++ (if negb (stopRequested r) && negb (isActive m1)
                               then [Finished (onFinished r)] else []).
Proof.
  intros Hf Hr Hs Hg. unfold frame. rewrite Hf.
  destruct (doUpdate_obs i (set_frames fs sys) r cfg m m1 Hr Hs Hg)
    as (s2 & E & H1 & H2 & _ & H4 & H5).
  exists s2. auto.
Qed.

(** C16: [pause()] takes effect one update late.  With a frame of the current
    render pending, after [pause()] that frame still ticks the model and
    redraws the canvas; only then the loop stops: no frame is requested, the
    stop request is cleared, and the handler is not called even if the model
    was completed by that tick. *)
Theorem pause_takes_effect_after_update sys i fs r cfg m m1 :
  render sys = Some i -> frames sys = i :: fs -> renders sys !! i = Some r ->
  render_state r = Some (cfg, m) -> model_grow cfg m = inr m1 ->
  exists sys', calls [Pause; Frame] sys = inr sys' /\
    frames sys' = fs /\
    trace sys' = trace sys ++ (if isActive m1 then redraw cfg (forest m1) else []) /\
    renders sys' !! i = Some (mkRender (render_seed r) (onFinished r) false (Some (cfg, m1))).
Proof.
  intros Hc Hf Hr Hs Hg. cbn [calls call]. unfold pause. rewrite Hc.
  unfold frame. cbn [frames stop set_renders]. rewrite Hf.
  destruct (doUpdate_obs i (set_frames fs (stop i sys)) (set_stop true r) cfg m m1)
    as (s2 & E & H1 & _ & _ & H4 & H5); [now apply lookup_stop | assumption | assumption |].
  change (set_renders (alter (set_stop true) i (renders sys)) sys) with (stop i sys).
  rewrite E. exists s2. split; [reflexivity |]. cbn in H4, H5.
  rewrite !app_nil_r in *. split; [assumption |]. split; [assumption |].
  rewrite H1. apply list_lookup_insert_eq. cbn. rewrite length_alter.
  eapply lookup_lt_Some, Hr.
Qed.

(** C17: a stop request that no frame consumes swallows the next [resume()]:
    [resume()] right after [pause()] runs one update at once and clears the
    request, but requests no frame.  If no frame was pending (the loop had
    stopped already) the animation does not start again, although the model
    may still be active. *)
Theorem pause_resume_does_not_restart sys i r cfg m m1 :
  render sys = Some i -> renders sys !! i = Some r ->
  render_state r = Some (cfg, m) -> model_grow cfg m = inr m1 ->
  exists sys', calls [Pause; Resume] sys = inr sys' /\
    frames sys' = frames sys /\
    trace sys' = trace sys ++ (if isActive m1 then redraw cfg (forest m1) else []) /\
    renders sys' !! i = Some (mkRender (render_seed r) (onFinished r) false (Some (cfg, m1))).
Proof.
  intros Hc Hr Hs Hg. cbn [calls call]. unfold pause. rewrite Hc.
  unfold resume. cbn [render stop set_renders]. rewrite Hc.
  destruct (doUpdate_obs i (stop i sys) (set_stop true r) cfg m m1)
    as (s2 & E & H1 & _ & _ & H4 & H5); [now apply lookup_stop | assumption | assumption |].
  change (set_renders (alter (set_stop true) i (renders sys)) sys) with (stop i sys).
  rewrite E. exists s2. split; [reflexivity |]. cbn in H4, H5.
  rewrite !app_nil_r in *. split; [assumption |]. split; [assumption |].
  rewrite H1. apply list_lookup_insert_eq. cbn. rewrite length_alter.
  eapply lookup_lt_Some, Hr.
Qed.

(** C18: [resume()] on a render that is not stopped starts a second loop: when
    the model is still active after the update it runs, one more frame of
    the render is pending than before, so a render that had a frame pending
    now ticks twice per animation frame. *)
Theorem resume_while_running_doubles sys i r cfg m m1 :
  render sys = Some i -> renders sys !! i = Some r -> stopRequested r = false ->
  render_state r = Some (cfg, m) -> model_grow cfg m = inr m1 -> isActive m1 = true ->
  exists sys', resume sys = inr sys' /\ frames sys' = frames sys ++ [i].
Proof.
  intros Hc Hr Hst Hs Hg Ha. unfold resume. rewrite Hc.
  destruct (doUpdate_obs i sys r cfg m m1 Hr Hs Hg) as (s2 & E & _ & _ & _ & H4 & _).
  exists s2. rewrite Hst, Ha in H4. auto.
Qed.

End RenderClaims.

(** The default seed of [startNew], [Date.now() & 0xfffff], is the time
    modulo 2^20: it has at most twenty bits, whatever the time. *)
Lemma defaultSeed_spec (now : Z) :
  (0 <= defaultSeed now <= 0xfffff)%Z /\ defaultSeed now = (now mod 2 ^ 20)%Z.
Proof.
  assert (defaultSeed now = (now mod 2 ^ 20)%Z) as E.
  { unfold defaultSeed. change 0xfffff%Z with (Z.ones 20). rewrite Z.land_ones by lia.
    unfold JS.toInt32, JS.two32, JS.two31. cbv zeta.
    change (2 ^ 20)%Z with 1048576%Z.
    destruct (Z.leb_spec 2147483648 (now mod 4294967296)); zlia. }
  rewrite E. split; [| reflexivity]. change (2 ^ 20)%Z with 1048576%Z. zlia.
Qed.

(** ** Witnesses on the example system *)

Lemma running_invariant_witness :
  (forall i r, renders startedSystem !! i = Some r ->
     exists cfg m, render_state r = Some (cfg, m) /\ model_ok (M := AxisMath) cfg m) /\
  (forall i, render startedSystem = Some i -> is_Some (renders startedSystem !! i)) /\
  (forall i, i ∈ frames startedSystem -> is_Some (renders startedSystem !! i)).
Proof.
  apply (@running_invariant ScriptedSource ScriptedLaws AxisMath exampleCanvas quietView
           startedSystem).
  apply running_call with (StartNew (R := ScriptedSource) renderScript)
                          (initSystem (R := ScriptedSource));
    [apply running_init | vm_compute; reflexivity].
Defined.

Lemma call_never_throws_witness :
  exists sys', exampleCall Frame startedSystem = inr sys'.
Proof.
  apply (@call_never_throws ScriptedSource ScriptedLaws AxisMath exampleCanvas quietView
           startedSystem Frame); [| exact I].
  apply running_call with (StartNew (R := ScriptedSource) renderScript)
                          (initSystem (R := ScriptedSource));
    [apply running_init | vm_compute; reflexivity].
Defined.

Example call_before_startNew_example :
  exampleCall Resume (initSystem (R := ScriptedSource)) = inl TypeError.
Proof.
  apply (@call_before_startNew ScriptedSource AxisMath exampleCanvas quietView
           (initSystem (R := ScriptedSource)) Resume); [reflexivity | left; reflexivity].
Qed.

Lemma frame_spec_witness :
  exists sys', exampleCall Frame startedSystem = inr sys' /\ frames sys' = [0%nat].
Proof.
  destruct (@frame_spec ScriptedSource AxisMath exampleCanvas startedSystem 0%nat []
              startedRender startedConfig startedModel startedModel1)
    as (sys' & E & _ & _ & Hf & _); try (vm_compute; reflexivity).
  exists sys'. split; [exact E |]. rewrite Hf. vm_compute. reflexivity.
Defined.

Lemma pause_takes_effect_after_update_witness :
  exists sys', exampleCallsFrom [Pause; Frame] startedSystem = inr sys' /\
               frames sys' = [] /\ length (trace sys') = 7%nat.
Proof.
  destruct (@pause_takes_effect_after_update ScriptedSource AxisMath exampleCanvas quietView
              startedSystem 0%nat [] startedRender startedConfig startedModel startedModel1)
    as (sys' & E & Hf & Ht & _); try (vm_compute; reflexivity).
  exists sys'. split; [exact E |]. split; [exact Hf |]. rewrite Ht. vm_compute. reflexivity.
Defined.

Lemma pause_resume_does_not_restart_witness :
  exists sys', exampleCallsFrom [Pause; Resume] pausedSystem = inr sys' /\
               frames sys' = [] /\ isActive startedModel2 = true.
Proof.
  destruct (@pause_resume_does_not_restart ScriptedSource AxisMath exampleCanvas quietView
              pausedSystem 0%nat
              (set_state (startedConfig, startedModel1) startedRender)
              startedConfig startedModel1 startedModel2)
    as (sys' & E & Hf & _); try (vm_compute; reflexivity).
  exists sys'. split; [exact E |]. split; [| vm_compute; reflexivity].
  rewrite Hf. vm_compute. reflexivity.
Defined.

Lemma resume_while_running_doubles_witness :
  exists sys', exampleCall Resume startedSystem = inr sys' /\ frames sys' = [0; 0]%nat.
Proof.
  destruct (@resume_while_running_doubles ScriptedSource AxisMath exampleCanvas
              startedSystem 0%nat startedRender startedConfig startedModel startedModel1)
    as (sys' & E & Hf); try (vm_compute; reflexivity).
  exists sys'. split; [exact E |]. rewrite Hf. vm_compute. reflexivity.
Defined.
